(** * NWChem basis-set and ECP text parser (pyscf/gto/basis/parse_nwchem.py)

    A shallow embedding of the parser and of the serializer
    [convert_basis_to_nwchem], followed by the properties of the
    specification that were checked against it.

    Conventions of the embedding.
    - A Python [str] is a list of characters ([str]).  The text is ASCII
      (NWChem library files are); a character code above 127 is an inert
      symbol: neither white space, nor a letter, nor changed by [upper].
      The string methods follow Python 3.
    - A Python exception is a value of [exn]; a function that may raise
      returns a [result].
    - A Python [float] is an IEEE-754 binary64 number ([float]), read by
      [float_of_str] and printed by [format_15_9f] with correct rounding.
    - The basis shell [[l, row, row, ...]] is the record [shell]; the ECP
      block [[l, by_ang]] is the record [ecp_block]. *)

From Stdlib Require Import Ascii String.
From Stdlib Require Import List ZArith Lia Bool Arith.
From Stdlib Require Import Sorting.Sorted Sorting.Permutation.
Import ListNotations.

Local Open Scope Z_scope.

(** ** Exceptions and results *)

Inductive exn : Type :=
| KeyError (msg : list ascii)
| IndexError
| ValueError
| UnboundLocalError.

Inductive result (A : Type) : Type :=
| Return (a : A)
| Raise (e : exn).

Arguments Return {A} a.
Arguments Raise {A} e.

Definition bind {A B : Type} (m : result A) (k : A -> result B) : result B :=
  match m with
  | Return a => k a
  | Raise e => Raise e
  end.

Notation "x <- m ;; k" := (bind m (fun x => k))
  (at level 61, m at next level, right associativity).

Definition raises {A : Type} (m : result A) : Prop := exists e, m = Raise e.

(** A [for] loop whose body may raise: the state is threaded from left to
    right and the first exception ends the loop. *)
Fixpoint for_each {S A : Type} (body : S -> A -> result S) (l : list A) (s : S)
  : result S :=
  match l with
  | [] => Return s
  | a :: l' => s' <- body s a ;; for_each body l' s'
  end.

(** A list comprehension whose element expression may raise. *)
Fixpoint map_result {A B : Type} (f : A -> result B) (l : list A)
  : result (list B) :=
  match l with
  | [] => Return []
  | a :: l' => b <- f a ;; bs <- map_result f l' ;; Return (b :: bs)
  end.

(** ** Python sequences *)

(** [l[i]] with Python's negative indices. *)
Definition py_norm_index (i : Z) (len : nat) : option nat :=
  let n := Z.of_nat len in
  if (0 <=? i) && (i <? n) then Some (Z.to_nat i)
  else if (i <? 0) && (0 <=? i + n) then Some (Z.to_nat (i + n))
  else None.

Definition py_index {A : Type} (l : list A) (i : Z) : result A :=
  match py_norm_index i (length l) with
  | Some n => match nth_error l n with
              | Some a => Return a
              | None => Raise IndexError
              end
  | None => Raise IndexError
  end.

Fixpoint alter_nth {A : Type} (f : A -> A) (n : nat) (l : list A) {struct l}
  : list A :=
  match l with
  | [] => []
  | a :: l' =>
      match n with
      | O => f a :: l'
      | S n' => a :: alter_nth f n' l'
      end
  end.

(** [l[i].append(x)] and the like: the element at index [i] is changed in
    place by [f]. *)
Definition py_alter {A : Type} (f : A -> A) (l : list A) (i : Z)
  : result (list A) :=
  match py_norm_index i (length l) with
  | Some n => Return (alter_nth f n l)
  | None => Raise IndexError
  end.

(** ** Python strings *)

Definition str : Type := list ascii.

Definition py (s : string) : str := list_ascii_of_string s.

Arguments py : simpl never.

Definition code (c : ascii) : Z := Z.of_nat (nat_of_ascii c).

Definition chr (n : Z) : ascii := ascii_of_nat (Z.to_nat n).

Definition LF : ascii := chr 10.
Definition CR : ascii := chr 13.

Fixpoint str_eqb (a b : str) : bool :=
  match a, b with
  | [], [] => true
  | x :: a', y :: b' => Ascii.eqb x y && str_eqb a' b'
  | _, _ => false
  end.

Definition is_empty (s : str) : bool :=
  match s with [] => true | _ => false end.

(** [str.isspace] on one character. *)
Definition isspace (c : ascii) : bool :=
  let n := code c in
  ((9 <=? n) && (n <=? 13)) || ((28 <=? n) && (n <=? 32)).

Definition isupper (c : ascii) : bool :=
  let n := code c in (65 <=? n) && (n <=? 90).

Definition islower (c : ascii) : bool :=
  let n := code c in (97 <=? n) && (n <=? 122).

Definition isalpha (c : ascii) : bool := isupper c || islower c.

Definition isdigit (c : ascii) : bool :=
  let n := code c in (48 <=? n) && (n <=? 57).

Definition upper_char (c : ascii) : ascii :=
  if islower c then chr (code c - 32) else c.

Definition lower_char (c : ascii) : ascii :=
  if isupper c then chr (code c + 32) else c.

Definition upper (s : str) : str := map upper_char s.
Definition lower (s : str) : str := map lower_char s.

Fixpoint lstrip (s : str) : str :=
  match s with
  | c :: s' => if isspace c then lstrip s' else s
  | [] => []
  end.

Definition rstrip (s : str) : str := rev (lstrip (rev s)).

Definition strip (s : str) : str := rstrip (lstrip s).

Fixpoint startswith (s prefix : str) : bool :=
  match prefix, s with
  | [], _ => true
  | p :: prefix', c :: s' => Ascii.eqb c p && startswith s' prefix'
  | _ :: _, [] => false
  end.

(** The longest prefix of characters satisfying [p], and the rest. *)
Fixpoint span (p : ascii -> bool) (s : str) : str * str :=
  match s with
  | c :: s' => if p c then let (a, b) := span p s' in (c :: a, b) else ([], s)
  | [] => ([], [])
  end.

Definition cons_nonempty (t : str) (ts : list str) : list str :=
  match t with [] => ts | _ => t :: ts end.

(** The token that starts at the head of [s] (empty when [s] starts with
    white space) and the tokens after it. *)
Fixpoint split_aux (s : str) : str * list str :=
  match s with
  | [] => ([], [])
  | c :: s' =>
      let (t, ts) := split_aux s' in
      if isspace c then ([], cons_nonempty t ts) else (c :: t, ts)
  end.

(** [s.split()] *)
Definition split (s : str) : list str :=
  let (t, ts) := split_aux s in cons_nonempty t ts.

(** [s.split(None, 1)] *)
Definition split_1 (s : str) : list str :=
  match lstrip s with
  | [] => []
  | s1 =>
      let (tok, rest) := span (fun c => negb (isspace c)) s1 in
      match lstrip rest with
      | [] => [tok]
      | rest' => [tok; rest']
      end
  end.

(** [s.split(sep)] for a one-character separator: never empty. *)
Fixpoint split_char (sep : ascii) (s : str) : list str :=
  match s with
  | [] => [[]]
  | c :: s' =>
      if Ascii.eqb c sep then [] :: split_char sep s'
      else match split_char sep s' with
           | t :: ts => (c :: t) :: ts
           | [] => [[c]]
           end
  end.

(** [s.replace(a, b)] for one-character [a] and [b]. *)
Definition replace_char (a b : ascii) (s : str) : str :=
  map (fun c => if Ascii.eqb c a then b else c) s.

Definition is_linebreak (c : ascii) : bool :=
  let n := code c in
  ((10 <=? n) && (n <=? 13)) || ((28 <=? n) && (n <=? 30)).

(** [s.splitlines()]: a carriage return followed by a line feed is one
    line boundary, and a final boundary opens no empty line. *)
Fixpoint splitlines (s : str) : list str :=
  match s with
  | [] => []
  | c :: s' =>
      if is_linebreak c then
        [] :: match s' with
              | d :: s'' =>
                  if Ascii.eqb c CR && Ascii.eqb d LF then splitlines s''
                  else splitlines s'
              | [] => []
              end
      else match splitlines s' with
           | l :: ls => (c :: l) :: ls
           | [] => [[c]]
           end
  end.

(** [sep.join(l)] *)
Fixpoint join (sep : str) (l : list str) : str :=
  match l with
  | [] => []
  | [a] => a
  | a :: l' => a ++ sep ++ join sep l'
  end.

(** [s.rjust(w, fill)] and [s.ljust(w, fill)]: the padding of a format
    with a field width. *)
Definition rjust (w : nat) (fill : ascii) (s : str) : str :=
  repeat fill (w - length s)%nat ++ s.

Definition ljust (w : nat) (fill : ascii) (s : str) : str :=
  s ++ repeat fill (w - length s)%nat.

(** ** Python numbers *)

(** *** Decimal digits *)

Definition digit_val (c : ascii) : Z := code c - 48.

Definition digit_char (d : Z) : ascii := chr (48 + d).

(** The value of a string of decimal digits, most significant first. *)
Definition Z_of_digits (ds : str) : Z :=
  fold_left (fun acc c => 10 * acc + digit_val c) ds 0.

Fixpoint digits_rec (fuel : nat) (n : Z) (acc : str) : str :=
  match fuel with
  | O => acc
  | S fuel' =>
      let acc' := digit_char (n mod 10) :: acc in
      if n <? 10 then acc' else digits_rec fuel' (n / 10) acc'
  end.

(** The decimal digits of [n >= 0], without leading zeros ([0] is "0"). *)
Definition digits_of (n : Z) : str :=
  digits_rec (S (Z.to_nat (Z.log2 n))) n [].

(** [str(n)] for an integer. *)
Definition str_of_Z (n : Z) : str :=
  if n <? 0 then "-"%char :: digits_of (- n) else digits_of n.

(** Underscores in a numeric literal stand only between two digits
    (Python 3.6 on); they are dropped before the number is read. *)
Fixpoint drop_underscores (prev : ascii) (s : str) : option str :=
  match s with
  | [] => if Ascii.eqb prev "_" then None else Some []
  | c :: s' =>
      if Ascii.eqb c "_" then
        if isdigit prev then drop_underscores c s' else None
      else if Ascii.eqb prev "_" && negb (isdigit c) then None
      else option_map (cons c) (drop_underscores c s')
  end.

(** An optional sign: [true] for minus. *)
Definition take_sign (s : str) : bool * str :=
  match s with
  | c :: s' =>
      if Ascii.eqb c "-" then (true, s')
      else if Ascii.eqb c "+" then (false, s')
      else (false, s)
  | [] => (false, [])
  end.

(** [int(s)] in base ten. *)
Definition int_of_str (s : str) : result Z :=
  match drop_underscores zero (strip s) with
  | None => Raise ValueError
  | Some t =>
      let (neg, ds) := take_sign t in
      if negb (is_empty ds) && forallb isdigit ds
      then Return (if neg then - Z_of_digits ds else Z_of_digits ds)
      else Raise ValueError
  end.

(** *** Floating-point numbers *)

(** A binary64 number: not-a-number, an infinity, or the finite value
    [(-1)^neg * m * 2^e] with [0 <= m < 2^53] and [-1074 <= e <= 971],
    where [m < 2^52] only at [e = -1074]. *)
Inductive float : Type :=
| F_nan
| F_inf (neg : bool)
| F_fin (neg : bool) (m e : Z).

(** The integer nearest to [p / q] for [q > 0], ties to the even one. *)
Definition round_half_even (p q : Z) : Z :=
  let m := p / q in
  let r := p mod q in
  if 2 * r <? q then m
  else if q <? 2 * r then m + 1
  else if Z.even m then m else m + 1.

(** [p / q * 2^(-e)] as a fraction. *)
Definition scale2 (p q e : Z) : Z * Z :=
  if 0 <=? e then (p, q * 2 ^ e) else (p * 2 ^ (- e), q).

(** The binary64 number nearest to [(-1)^neg * p / q], for [p >= 0] and
    [q > 0]: round to nearest, ties to even, overflow to infinity. *)
Definition binary64_of_ratio (neg : bool) (p q : Z) : float :=
  if p =? 0 then F_fin neg 0 (-1074)
  else
    let e1 := Z.log2 p - Z.log2 q - 52 in
    let e2 := (let (a, b) := scale2 p q e1 in
               if a / b <? 2 ^ 52 then e1 - 1 else e1) in
    let e := Z.max e2 (-1074) in
    let (a, b) := scale2 p q e in
    let m := round_half_even a b in
    let (m', e') := if m =? 2 ^ 53 then (2 ^ 52, e + 1) else (m, e) in
    if 971 <? e' then F_inf neg else F_fin neg m' e'.

(** The binary64 number nearest to [(-1)^neg * n * 10^k]. *)
Definition binary64_of_decimal (neg : bool) (n k : Z) : float :=
  if 0 <=? k then binary64_of_ratio neg (n * 10 ^ k) 1
  else binary64_of_ratio neg n (10 ^ (- k)).

Definition float_of_Z (n : Z) : float :=
  binary64_of_ratio (n <? 0) (Z.abs n) 1.

(** A decimal literal without sign, [digits [. digits] [(e|E) [sign] digits]]
    with a digit before or after the point: its digits as one integer and
    its power of ten. *)
Definition read_decimal (s : str) : option (Z * Z) :=
  let (ip, r1) := span isdigit s in
  let (fp, r2) := match r1 with
                  | c :: r => if Ascii.eqb c "." then span isdigit r
                              else ([], r1)
                  | [] => ([], r1)
                  end in
  if is_empty ip && is_empty fp then None
  else
    let n := Z_of_digits (ip ++ fp) in
    let k := - Z.of_nat (length fp) in
    match r2 with
    | [] => Some (n, k)
    | c :: r3 =>
        if Ascii.eqb c "e" || Ascii.eqb c "E" then
          let (eneg, r4) := take_sign r3 in
          if negb (is_empty r4) && forallb isdigit r4
          then Some (n, (if eneg then - Z_of_digits r4 else Z_of_digits r4) + k)
          else None
        else None
    end.

(** [float(s)].  The text is stripped, an optional sign is followed by a
    decimal literal or, in any letter case, by [inf], [infinity] or [nan]. *)
Definition float_of_str (s : str) : result float :=
  match drop_underscores zero (strip s) with
  | None => Raise ValueError
  | Some t =>
      let (neg, body) := take_sign t in
      let w := lower body in
      if str_eqb w (py "inf") || str_eqb w (py "infinity") then Return (F_inf neg)
      else if str_eqb w (py "nan") then Return F_nan
      else match read_decimal body with
           | Some (n, k) => Return (binary64_of_decimal neg n k)
           | None => Raise ValueError
           end
  end.

(** The integer nearest to [m * 2^e * 10^9], ties to even: the digits of
    [m * 2^e] rounded to nine decimals. *)
Definition nine_decimals (m e : Z) : Z :=
  if 0 <=? e then m * 2 ^ e * 10 ^ 9
  else round_half_even (m * 10 ^ 9) (2 ^ (- e)).

(** The text of [x] with nine digits after the point, rounded to nearest,
    ties to even, as [%f] prints it. *)
Definition format_9f (x : float) : str :=
  match x with
  | F_nan => py "nan"
  | F_inf neg => (if neg then py "-" else []) ++ py "inf"
  | F_fin neg m e =>
      let n := nine_decimals m e in
      (if neg then py "-" else [])
        ++ digits_of (n / 10 ^ 9)
        ++ py "."
        ++ rjust 9 "0" (digits_of (n mod 10 ^ 9))
  end.

(** ['%15.9f' % x] *)
Definition format_15_9f (x : float) : str := rjust 15 " " (format_9f x).

(** ** The regular expression of the segment delimiter *)

Fixpoint skip_blanks (s : str) : str :=
  match s with
  | c :: s' => if Ascii.eqb c " " then skip_blanks s' else s
  | [] => []
  end.

Definition not_LF (c : ascii) : bool := negb (Ascii.eqb c LF).

(** [BASIS_SET_DELIMITER = re.compile('# *BASIS SET.*\n')] matched at the
    head of [s]: the number of characters of the match.  Both stars are
    greedy and neither can give back a character ([B] is no blank and [.]
    excludes the line feed), so the match is unique. *)
Definition BASIS_SET_DELIMITER (s : str) : option nat :=
  match s with
  | c :: s1 =>
      if Ascii.eqb c "#" then
        let s2 := skip_blanks s1 in
        if startswith s2 (py "BASIS SET") then
          let (_, s4) := span not_LF (skipn 9 s2) in
          match s4 with
          | _ :: s5 => Some (length s - length s5)%nat
          | [] => None
          end
        else None
      else None
  | [] => None
  end.

(** The piece that starts at the head of [s] and the pieces after it;
    [skip] counts the characters of a match still to be passed over. *)
Fixpoint re_split_aux (re : str -> option nat) (skip : nat) (s : str)
  : str * list str :=
  match s with
  | [] => ([], [])
  | c :: s' =>
      match skip with
      | S k => re_split_aux re k s'
      | O =>
          match re s with
          | Some n =>
              let (p, ps) := re_split_aux re (n - 1) s' in ([], p :: ps)
          | None =>
              let (p, ps) := re_split_aux re 0 s' in (c :: p, ps)
          end
      end
  end.

(** [re.split(re, s)] for a pattern without groups that matches no empty
    string. *)
Definition re_split (re : str -> option nat) (s : str) : list str :=
  let (p, ps) := re_split_aux re 0 s in p :: ps.

(** ** Data model *)

(** The shell [[l, row_1, ..., row_n]]. *)
Record shell : Type := Shell { shell_l : Z; shell_rows : list (list float) }.

Definition Basis : Type := list shell.

(** The block [[l, by_ang]]. *)
Record ecp_block : Type :=
  EcpBlock { ecp_l : Z; ecp_by_ang : list (list (list float)) }.

(** The value [[nelec, blocks]]. *)
Definition Ecp : Type := (Z * list ecp_block)%type.

Definition MAXL : Z := 8.

Definition SPDF : list str :=
  [py "S"; py "P"; py "D"; py "F"; py "G"; py "H"; py "I"; py "K"].

Definition MAPSPDF : list (str * Z) :=
  [(py "S", 0); (py "P", 1); (py "D", 2); (py "F", 3);
   (py "G", 4); (py "H", 5); (py "I", 6); (py "K", 7)].

(** [d[key]] for a dictionary with string keys. *)
Fixpoint dict_get {V : Type} (d : list (str * V)) (key : str) : result V :=
  match d with
  | [] => Raise (KeyError key)
  | (k, v) :: d' => if str_eqb k key then Return v else dict_get d' key
  end.

(** [range(a, b)] *)
Definition range (a b : Z) : list Z :=
  map (fun i => a + Z.of_nat i) (seq 0 (Z.to_nat (b - a))).

(** The grouping loop that ends [_parse] and [_parse_ecp], for the
    elements [xs] with first component [k x]:
    [for l in range(a, b): bsort.extend([x for x in xs if x[0] == l])]. *)
Definition has_key_l {A : Type} (k : A -> Z) (l : Z) (x : A) : bool :=
  k x =? l.

Definition group_by_range {A : Type} (k : A -> Z) (a b : Z) (xs : list A)
  : list A :=
  flat_map (fun l => filter (has_key_l k l) xs) (range a b).

Definition in_range {A : Type} (k : A -> Z) (a b : Z) (x : A) : bool :=
  (a <=? k x) && (k x <? b).

(** ** [_parse] *)

(** The variables of the loop of [_parse]: [key] is unbound until a header
    line has been read. *)
Record parse_state : Type :=
  ParseState { basis_add : list shell; key : option str }.

Definition add_row (row : list float) (b : shell) : shell :=
  Shell (shell_l b) (shell_rows b ++ [row]).

Definition read_key (k : option str) : result str :=
  match k with
  | Some k => Return k
  | None => Raise UnboundLocalError
  end.

Definition D_to_e (s : str) : str := replace_char "D" "e" s.

Definition _parse_line (st : parse_state) (line : str) : result parse_state :=
  let dat := strip line in
  if is_empty dat || startswith dat (py "#") then Return st
  else
    c <- py_index dat 0 ;;
    if isalpha c then
      key <- py_index (split dat) 1 ;;
      if str_eqb key (py "SP") then
        Return (ParseState (basis_add st ++ [Shell 0 []] ++ [Shell 1 []])
                           (Some key))
      else
        l <- dict_get MAPSPDF key ;;
        Return (ParseState (basis_add st ++ [Shell l []]) (Some key))
    else
      line <- map_result float_of_str (split (D_to_e dat)) ;;
      key <- read_key (key st) ;;
      if str_eqb key (py "SP") then
        _ <- py_index (basis_add st) (-2) ;;
        x0 <- py_index line 0 ;;
        x1 <- py_index line 1 ;;
        ba1 <- py_alter (add_row [x0; x1]) (basis_add st) (-2) ;;
        _ <- py_index ba1 (-1) ;;
        y0 <- py_index line 0 ;;
        y2 <- py_index line 2 ;;
        ba2 <- py_alter (add_row [y0; y2]) ba1 (-1) ;;
        Return (ParseState ba2 (Some key))
      else
        ba <- py_alter (add_row line) (basis_add st) (-1) ;;
        Return (ParseState ba (Some key)).

(** The last loop of [_parse]: for each [l] in turn, the shells of that
    [l] in their order of appearance. *)
Definition bsort_shells (basis_add : list shell) : list shell :=
  group_by_range shell_l 0 MAXL basis_add.

Definition _parse_loop (raw_basis : list str) : result parse_state :=
  for_each _parse_line raw_basis (ParseState [] None).

Definition _parse (raw_basis : list str) : result Basis :=
  st <- _parse_loop raw_basis ;;
  Return (bsort_shells (basis_add st)).

(** ** [_parse_ecp] *)

(** The variables of the loop of [_parse_ecp].  [by_ang] is a reference
    to the list of power slots held by one block of [ecp_add]: it is
    kept as the index of that block, and is unbound until the first block
    has been opened. *)
Record ecp_state : Type :=
  EcpState { ecp_add : list ecp_block; nelec : option Z; by_ang : option nat }.

Definition read_by_ang (r : option nat) : result nat :=
  match r with
  | Some i => Return i
  | None => Raise UnboundLocalError
  end.

Definition empty_by_ang : list (list (list float)) := [[]; []; []; []].

(** The list that the reference [i] points to. *)
Definition deref_by_ang (ecp_add : list ecp_block) (i : nat)
  : result (list (list (list float))) :=
  match nth_error ecp_add i with
  | Some b => Return (ecp_by_ang b)
  | None => Raise IndexError
  end.

Definition set_by_ang (slots : list (list (list float))) (b : ecp_block)
  : ecp_block :=
  EcpBlock (ecp_l b) slots.

Definition _parse_ecp_line (st : ecp_state) (line : str) : result ecp_state :=
  let dat := strip line in
  if is_empty dat || startswith dat (py "#") then Return st
  else
    c <- py_index dat 0 ;;
    if isalpha c then
      key <- py_index (split dat) 1 ;;
      if str_eqb key (py "NELEC") then
        tok <- py_index (split dat) 2 ;;
        n <- int_of_str tok ;;
        Return (EcpState (ecp_add st) (Some n) (by_ang st))
      else
        l <- (if str_eqb key (py "UL") then Return (-1)
              else dict_get MAPSPDF key) ;;
        Return (EcpState (ecp_add st ++ [EcpBlock l empty_by_ang])
                         (nelec st)
                         (Some (length (ecp_add st))))
    else
      let line := split (D_to_e dat) in
      tok <- py_index line 0 ;;
      l <- int_of_str tok ;;
      i <- read_by_ang (by_ang st) ;;
      slots <- deref_by_ang (ecp_add st) i ;;
      _ <- py_index slots l ;;
      row <- map_result float_of_str (skipn 1 line) ;;
      slots' <- py_alter (fun slot => slot ++ [row]) slots l ;;
      Return (EcpState (alter_nth (set_by_ang slots') i (ecp_add st))
                       (nelec st) (by_ang st)).

Definition bsort_ecp (ecp_add : list ecp_block) : list ecp_block :=
  group_by_range ecp_l (-1) MAXL ecp_add.

Definition _parse_ecp_loop (raw_ecp : list str) : result ecp_state :=
  for_each _parse_ecp_line raw_ecp (EcpState [] None None).

(** The result [None] is Python's [None], returned when no [NELEC] line
    was read. *)
Definition _parse_ecp (raw_ecp : list str) : result (option Ecp) :=
  st <- _parse_ecp_loop raw_ecp ;;
  match nelec st with
  | Some n => Return (Some (n, bsort_ecp (ecp_add st)))
  | None => Return None
  end.

(** ** The entry points *)

(** The lines kept by [parse] and [parse_ecp]: the text before [#],
    stripped and in upper case, unless it is empty or starts with [END] or
    with [word] ([BASIS] or [ECP]). *)
Definition clean_line (dat : str) : str :=
  match split_char "#" dat with
  | x :: _ => upper (strip x)
  | [] => []
  end.

Definition keep_line (word : str) (x : str) : bool :=
  negb (is_empty x) && negb (startswith x (py "END"))
    && negb (startswith x word).

Definition clean_lines (word : str) (lines : list str) : list str :=
  filter (keep_line word) (map clean_line lines).

(** The loop of [_search_seg] over [raw_data[1:]]; [None] is the value
    returned when the loop ends. *)
Fixpoint _search_seg_loop (chunks : list str) (symb : str) : option str :=
  match chunks with
  | [] => None
  | dat :: chunks' =>
      match split_1 dat with
      | dat0 :: _ =>
          if str_eqb dat0 symb then Some dat
          else _search_seg_loop chunks' symb
      | [] => _search_seg_loop chunks' symb
      end
  end.

Definition _search_seg (raw_data : list str) (symb : str) : option str :=
  _search_seg_loop (skipn 1 raw_data) symb.

(** [dat0 and dat0[0] == symb] for [dat0 = dat.split(None, 1)]. *)
Definition first_token_is (symb : str) (dat : str) : bool :=
  match split_1 dat with
  | dat0 :: _ => str_eqb dat0 symb
  | [] => false
  end.

(** The first loop of [parse_ecp]: the value of [i] after the loop, which
    stops at the first line whose first token is [symb]; [last] is the
    value of [i] before the line at hand ([None] while unbound). *)
Fixpoint find_symb_loop (symb : str) (raw_data : list str) (i : nat)
    (last : option nat) : option nat :=
  match raw_data with
  | [] => last
  | dat :: raw_data' =>
      if first_token_is symb dat then Some i
      else find_symb_loop symb raw_data' (S i) (Some i)
  end.

(** The second loop of [parse_ecp]: the lines of the segment, up to the
    first line that starts with a letter and with another symbol. *)
Fixpoint seg_loop (symb : str) (lines : list str) (seg : list str)
  : result (list str) :=
  match lines with
  | [] => Return seg
  | dat :: lines' =>
      let dat := upper (strip dat) in
      c <- py_index dat 0 ;;
      other <- (if isalpha c then
                  tok <- py_index (split_1 dat) 0 ;;
                  Return (negb (str_eqb tok (upper symb)))
                else Return false) ;;
      if other then Return seg
      else if negb (is_empty dat) then seg_loop symb lines' (seg ++ [dat])
      else seg_loop symb lines' seg
  end.

Section Parser.

(** The canonical form of an element symbol, [pyscf.gto.mole._std_symbol],
    is defined outside this module. *)
Variable _std_symbol : str -> str.

(** The first half of [parse]: the text to read, which is the chunk of
    the element when a symbol is given. *)
Definition basis_segment (string : str) (symb : option str) : result str :=
  match symb with
  | Some symb =>
      let symb := _std_symbol symb in
      match _search_seg (re_split BASIS_SET_DELIMITER string) symb with
      | Some seg => Return seg
      | None => Raise (KeyError (py "Basis not found for " ++ symb))
      end
  | None => Return string
  end.

Definition parse (string : str) (symb : option str) : result Basis :=
  string <- basis_segment string symb ;;
  _parse (clean_lines (py "BASIS") (splitlines string)).

(** The first half of [parse_ecp]: the lines [seg]. *)
Definition ecp_segment (string : str) (symb : option str)
  : result (list str) :=
  match symb with
  | Some symb =>
      let symb := _std_symbol symb in
      let raw_data := splitlines string in
      match find_symb_loop symb raw_data 0 None with
      | None => Raise UnboundLocalError
      | Some i =>
          if (i + 1 =? length raw_data)%nat
          then Raise (KeyError (py "ECP not found for " ++ symb))
          else seg_loop symb (skipn i raw_data) []
      end
  | None => Return (splitlines string)
  end.

Definition parse_ecp (string : str) (symb : option str)
  : result (option Ecp) :=
  seg <- ecp_segment string symb ;;
  _parse_ecp (clean_lines (py "ECP") seg).

(** ** [convert_basis_to_nwchem] *)

(** [set(ls)] as the [for] loop visits it.  CPython keeps small
    non-negative integers in a set in ascending order; this is the order
    of the model for every [l].  For a negative [l] CPython may visit the
    set in another order, which changes the order of the items of the
    summary line only: the properties that speak of that line are stated
    for [0 <= l < MAXL]. *)
Fixpoint set_add (x : Z) (s : list Z) : list Z :=
  match s with
  | [] => [x]
  | y :: s' =>
      if x <? y then x :: s
      else if x =? y then s
      else y :: set_add x s'
  end.

Definition set_of (ls : list Z) : list Z :=
  fold_left (fun s x => set_add x s) ls [].

(** The dictionary [prim_to_ctr], from [l] to the pair of its counts. *)
Definition counts : Type := list (Z * (Z * Z)).

Fixpoint counts_get (d : counts) (l : Z) : option (Z * Z) :=
  match d with
  | [] => None
  | (k, v) :: d' => if k =? l then Some v else counts_get d' l
  end.

Fixpoint counts_set (d : counts) (l : Z) (v : Z * Z) : counts :=
  match d with
  | [] => [(l, v)]
  | (k, w) :: d' => if k =? l then (k, v) :: d' else (k, w) :: counts_set d' l v
  end.

(** The loop over [enumerate(ls)]: one step for the shell [l] with
    [nprim] rows and [nctr] coefficient columns. *)
Definition add_counts (d : counts) (x : Z * (Z * Z)) : counts :=
  let '(l, (nprim, nctr)) := x in
  match counts_get d l with
  | Some (p, c) => counts_set d l (p + nprim, c + nctr)
  | None => counts_set d l (nprim, nctr)
  end.

(** [(l, (len(b[1:]), len(b[1]) - 1))] for a shell [b]: [b[1]] raises when
    the shell has no row. *)
Definition shell_counts (b : shell) : result (Z * (Z * Z)) :=
  row <- py_index (shell_rows b) 0 ;;
  Return (shell_l b,
          (Z.of_nat (length (shell_rows b)), Z.of_nat (length row) - 1)).

Definition summary_item (d : counts) (pick : Z * Z -> Z) (l : Z) : result str :=
  match counts_get d l with
  | None => Raise (KeyError (str_of_Z l))
  | Some v =>
      letter <- py_index SPDF l ;;
      Return (str_of_Z (pick v) ++ lower letter)
  end.

(** ['#BASIS SET: (%s) -> [%s]'] *)
Definition summary_line (basis : Basis) : result str :=
  cs <- map_result shell_counts basis ;;
  let prim_to_ctr := fold_left add_counts cs [] in
  let ls := set_of (map shell_l basis) in
  nprims <- map_result (summary_item prim_to_ctr fst) ls ;;
  nctrs <- map_result (summary_item prim_to_ctr snd) ls ;;
  Return (py "#BASIS SET: (" ++ join (py ",") nprims ++ py ") -> ["
             ++ join (py ",") nctrs ++ py "]").

(** [' '.join('%15.9f' % x for x in dat)] *)
Definition row_line (dat : list float) : str :=
  join (py " ") (map format_15_9f dat).

(** The lines of one shell: ['%-2s    %s' % (symb, SPDF[bas[0]])] and its
    rows. *)
Definition shell_lines (symb : str) (bas : shell) : result (list str) :=
  letter <- py_index SPDF (shell_l bas) ;;
  Return ((ljust 2 " " symb ++ py "    " ++ letter)
            :: map row_line (shell_rows bas)).

Definition convert_basis_to_nwchem (symb : str) (basis : Basis) : result str :=
  let symb := _std_symbol symb in
  line1 <- summary_line basis ;;
  blocks <- map_result (shell_lines symb) basis ;;
  Return (join [LF] (line1 :: concat blocks)).

End Parser.

(** ** The functions that read a basis file, and [convert_ecp_to_nwchem] *)

(** [sub in s] *)
Fixpoint contains (sub s : str) : bool :=
  match s with
  | [] => is_empty sub
  | _ :: s' => startswith s sub || contains sub s'
  end.

(** [ECP_DELIMITER = re.compile('\n *ECP *\n')] matched at the head of
    [s]: the number of characters of the match.  Neither star can give
    back a blank, so the match is unique. *)
Definition ECP_DELIMITER (s : str) : option nat :=
  match s with
  | c :: s1 =>
      if Ascii.eqb c LF then
        let s2 := skip_blanks s1 in
        if startswith s2 (py "ECP") then
          match skip_blanks (skipn 3 s2) with
          | d :: s4 =>
              if Ascii.eqb d LF then Some (length s - length s4)%nat else None
          | [] => None
          end
        else None
      else None
  | [] => None
  end.

(** [enumerate(l)] *)
Definition enumerate {A : Type} (l : list A) : list (nat * A) :=
  combine (seq 0 (length l)) l.

(** The second loop of [search_ecp]: as in [parse_ecp], but the segment
    is returned only at a line of another symbol, and the end of the
    lines returns the empty list. *)
Fixpoint search_ecp_loop (symb : str) (lines : list str) (seg : list str)
  : result (list str) :=
  match lines with
  | [] => Return []
  | dat :: lines' =>
      let dat := upper (strip dat) in
      c <- py_index dat 0 ;;
      other <- (if isalpha c then
                  tok <- py_index (split_1 dat) 0 ;;
                  Return (negb (str_eqb tok (upper symb)))
                else Return false) ;;
      if other then Return seg
      else if negb (is_empty dat) then search_ecp_loop symb lines' (seg ++ [dat])
      else search_ecp_loop symb lines' seg
  end.

(** ['%d    %15.9f  %15.9f' % (r_order, e, c)] for the row [dat] of the
    loop [for e, c in ...]: a row of another length cannot be unpacked. *)
Definition ecp_row_line (r_order : nat) (dat : list float) : result str :=
  match dat with
  | [e; c] =>
      Return (str_of_Z (Z.of_nat r_order) ++ py "    " ++ format_15_9f e
                ++ py "  " ++ format_15_9f c)
  | _ => Raise ValueError
  end.

Section Files.

Variable _std_symbol : str -> str.

(** [search_seg], for the text [content] that [fin.read()] returns. *)
Definition search_seg (content symb : str) : list str :=
  let symb := _std_symbol symb in
  match _search_seg (re_split BASIS_SET_DELIMITER content) symb with
  | None => []
  | Some dat =>
      map upper
          (filter (fun x => negb (is_empty x) && negb (contains (py "END") x))
                  (splitlines dat))
  end.

Definition load (content symb : str) : result Basis :=
  _parse (search_seg content symb).

(** [search_ecp], for the text [content] that [fin.read()] returns. *)
Definition search_ecp (content symb : str) : result (list str) :=
  let symb := _std_symbol symb in
  chunk <- py_index (re_split ECP_DELIMITER content) 1 ;;
  let fdata := splitlines chunk in
  match find_symb_loop symb fdata 0 None with
  | None => Raise UnboundLocalError
  | Some i => search_ecp_loop symb (skipn i fdata) []
  end.

Definition load_ecp (content symb : str) : result (option Ecp) :=
  seg <- search_ecp content symb ;;
  _parse_ecp seg.

(** The lines of one block: its header and one line per row, slot by
    slot. *)
Definition ecp_block_lines (symb : str) (blk : ecp_block)
  : result (list str) :=
  let l := ecp_l blk in
  hdr <- (if l =? -1 then Return (ljust 2 " " symb ++ py " ul")
          else letter <- py_index SPDF l ;;
               Return (ljust 2 " " symb ++ py " " ++ lower letter)) ;;
  rows <- map_result (fun slot => map_result (ecp_row_line (fst slot)) (snd slot))
                     (enumerate (ecp_by_ang blk)) ;;
  Return (hdr :: concat rows).

Definition convert_ecp_to_nwchem (symb : str) (ecp : Ecp) : result str :=
  let symb := _std_symbol symb in
  let line1 := ljust 2 " " symb ++ py " nelec " ++ str_of_Z (fst ecp) in
  blocks <- map_result (ecp_block_lines symb) (snd ecp) ;;
  Return (join [LF] (line1 :: concat blocks)).

End Files.

(** ** Vocabulary of the properties *)

(** A text given by its lines, joined by line feeds. *)
Definition text (lines : list str) : str := join [LF] lines.

(** Some suffix of [s] starts with a match of [re]. *)
Fixpoint contains_match (re : str -> option nat) (s : str) : bool :=
  match s with
  | [] => match re [] with Some _ => true | None => false end
  | _ :: s' =>
      match re s with Some _ => true | None => contains_match re s' end
  end.

(** The classes of lines that the loops of [_parse] and [_parse_ecp]
    tell apart: skipped, header (first character a letter), data. *)
Definition is_skipped (line : str) : bool :=
  let dat := strip line in is_empty dat || startswith dat (py "#").

Definition starts_with_letter (line : str) : bool :=
  match strip line with
  | c :: _ => isalpha c
  | [] => false
  end.

Definition is_header (line : str) : bool :=
  negb (is_skipped line) && starts_with_letter line.

Definition is_data (line : str) : bool :=
  negb (is_skipped line) && negb (starts_with_letter line).

(** The second token of a line, which names the shell type on a header. *)
Definition header_key (line : str) : option str :=
  nth_error (split (strip line)) 1.

(** A header line whose second token is [k]. *)
Definition has_key (k : str) (line : str) : bool :=
  is_header line &&
  match header_key line with
  | Some key => str_eqb key k
  | None => false
  end.

(** The numbers of a data line. *)
Definition data_numbers (line : str) : result (list float) :=
  map_result float_of_str (split (D_to_e (strip line))).

(** The second loop of [parse_ecp] breaks at such a line. *)
Definition other_symbol_line (symb : str) (dat : str) : bool :=
  let dat := upper (strip dat) in
  match dat with
  | c :: _ =>
      isalpha c &&
      match split_1 dat with
      | tok :: _ => negb (str_eqb tok (upper symb))
      | [] => false
      end
  | [] => false
  end.

(** [s.capitalize()] *)
Definition capitalize (s : str) : str :=
  match s with
  | c :: s' => upper_char c :: lower s'
  | [] => []
  end.

(** Modelled from the spec: [_std_symbol] belongs to [pyscf.gto.mole],
    which is not part of this module; the spec calls it a normalizer of
    element symbols that strips isotope and ghost-atom suffixes.  This
    instance keeps the leading letters and capitalizes them.  The
    properties below hold for every [_std_symbol]; the instance serves to
    evaluate them on concrete inputs. *)
Definition std_symbol_model (symb : str) : str :=
  capitalize (fst (span isalpha symb)).

(** Every shell of [basis_add] has an [l] of the table [MAPSPDF]. *)
Definition shells_in_range (st : parse_state) : Prop :=
  Forall (fun b => 0 <= shell_l b < MAXL) (basis_add st).

(** The angular momenta that a line adds to [basis_add]. *)
Definition shells_of_line (line : str) : list Z :=
  if is_header line then
    match header_key line with
    | Some key =>
        if str_eqb key (py "SP") then [0; 1]
        else match dict_get MAPSPDF key with
             | Return l => [l]
             | Raise _ => []
             end
    | None => []
    end
  else [].

(** The angular momenta that a line adds to [ecp_add]. *)
Definition blocks_of_line (line : str) : list Z :=
  if is_header line then
    match header_key line with
    | Some key =>
        if str_eqb key (py "NELEC") then []
        else if str_eqb key (py "UL") then [-1]
        else match dict_get MAPSPDF key with
             | Return l => [l]
             | Raise _ => []
             end
    | None => []
    end
  else [].

(** Every block of [ecp_add] has [l = -1] or an [l] of the table. *)
Definition blocks_in_range (st : ecp_state) : Prop :=
  Forall (fun b => -1 <= ecp_l b < MAXL) (ecp_add st).

(** The value of a result changed by [f], an exception kept. *)
Definition result_map {A B : Type} (f : A -> B) (m : result A) : result B :=
  x <- m ;; Return (f x).







(** Texts of blanks only, and texts without a blank. *)
Definition all_space (s : str) : Prop := forallb isspace s = true.

Definition no_space (s : str) : Prop :=
  forallb (fun c => negb (isspace c)) s = true.

(** A text that [strip] leaves alone: empty, or with a first and a last
    character that are no blanks. *)
Definition trimmed (t : str) : Prop :=
  t = [] \/
  (exists c r, t = c :: r /\ isspace c = false)
  /\ (exists r c, t = r ++ [c] /\ isspace c = false).

(** A word followed by nothing or by a blank is the first token. *)
Definition at_word_end (rest : str) : Prop :=
  match rest with
  | c :: _ => isspace c = true
  | [] => True
  end.

(** The characters of a finite number printed by [%f]. *)
Definition plain_char (c : ascii) : bool :=
  isdigit c || Ascii.eqb c "-" || Ascii.eqb c ".".

(** The characters of any number printed by [%f]: those of a finite one
    and the letters of [inf] and [nan]. *)
Definition number_char (c : ascii) : bool :=
  plain_char c || Ascii.eqb c "i" || Ascii.eqb c "n" || Ascii.eqb c "f"
    || Ascii.eqb c "a".

(** Neither an infinity nor not-a-number. *)
Definition is_finite (x : float) : bool :=
  match x with
  | F_fin _ _ _ => true
  | _ => false
  end.

(** The number that [float] reads from the text ['%15.9f' % x]. *)
Definition reread (x : float) : float :=
  match float_of_str (format_15_9f x) with
  | Return y => y
  | Raise _ => x
  end.

(** Texts without a line boundary, and texts without [#]. *)
Definition no_linebreak (s : str) : Prop :=
  forallb (fun c => negb (is_linebreak c)) s = true.

Definition no_hash (s : str) : Prop :=
  forallb (fun c => negb (Ascii.eqb c "#")) s = true.

(** A line as [convert_basis_to_nwchem] writes it. *)
Definition plain_line (s : str) : Prop := s <> [] /\ no_linebreak s.

(** A canonical element symbol: a word of letters that [parse] takes
    neither for [END] nor for [BASIS]. *)
Definition element_word (symb : str) : Prop :=
  symb <> [] /\ forallb isalpha symb = true
  /\ startswith (upper symb) (py "END") = false
  /\ startswith (upper symb) (py "BASIS") = false.

(** The header line that [convert_basis_to_nwchem] writes. *)
Definition header_text (symb : str) (c : ascii) : str :=
  ljust 2 " " symb ++ py "    " ++ [c].

(** The same line as the second [parse] keeps it. *)
Definition header_clean (symb : str) (c : ascii) : str :=
  upper symb ++ repeat " "%char (2 - length symb)%nat ++ py "    " ++ [c].

(** The line of a row as the second [parse] keeps it. *)
Definition row_clean (row : list float) : str := upper (strip (row_line row)).

(** The letter of a shell type. *)
Definition spdf_char (l : Z) : ascii :=
  match py_index SPDF l with
  | Return (c :: _) => c
  | _ => " "%char
  end.

(** A row that starts with a finite number. *)
Definition starts_finite (row : list float) : Prop :=
  match row with
  | x :: _ => is_finite x = true
  | [] => False
  end.

(** A shell that [convert_basis_to_nwchem] can write and [parse] read
    again: it has a row, and each row starts with a finite number. *)
Definition writable (b : shell) : Prop :=
  shell_rows b <> [] /\ Forall starts_finite (shell_rows b).

(** The shell with every number replaced by the number that reads back
    from its text. *)
Definition reread_shell (b : shell) : shell :=
  Shell (shell_l b) (map (map reread) (shell_rows b)).

(** The lines of a shell as [convert_basis_to_nwchem] writes them and as
    the second [parse] keeps them. *)
Definition shell_text (symb : str) (b : shell) : list str :=
  header_text symb (spdf_char (shell_l b)) :: map row_line (shell_rows b).

Definition shell_clean (symb : str) (b : shell) : list str :=
  header_clean symb (spdf_char (shell_l b)) :: map row_clean (shell_rows b).

(** [l in prim_to_ctr] *)
Definition has_counts (d : counts) (l : Z) : Prop :=
  exists v, counts_get d l = Some v.

(** [y] is the number that [float] reads from the text ['%15.9f' % x]. *)
Definition reads_back (x y : float) : Prop :=
  float_of_str (format_15_9f x) = Return y.

(** Two shells with the same [l] whose numbers agree up to the nine
    decimals of the text. *)
Definition same_up_to_format (b b' : shell) : Prop :=
  shell_l b = shell_l b'
  /\ Forall2 (Forall2 reads_back) (shell_rows b) (shell_rows b').

Definition rows_nonempty (b : shell) : Prop :=
  Forall (fun row => row <> []) (shell_rows b).

(** The state of the loop of [_parse_ecp] is well formed: every block has
    four slots, and [by_ang] is unbound while no block is open and refers
    to the last block afterwards. *)
Definition ecp_wf (st : ecp_state) : Prop :=
  Forall (fun b => length (ecp_by_ang b) = 4%nat) (ecp_add st)
  /\ ((ecp_add st = [] /\ by_ang st = None)
      \/ exists ba b, ecp_add st = ba ++ [b] /\ by_ang st = Some (length ba)).

(** The part of the state that holds the blocks. *)
Definition blocks_part (st : ecp_state) : list ecp_block * option nat :=
  (ecp_add st, by_ang st).

(** The exponent marker in lower case. *)
Definition e_lower (c : ascii) : ascii :=
  if Ascii.eqb c "E" then "e"%char else c.

Definition D_to_E (s : str) : str := replace_char "D" "E" s.

(** A shell that can be written: it has a row, and its [l] is an index of
    the tuple [SPDF], from either end. *)
Definition printable (b : shell) : Prop :=
  shell_rows b <> [] /\ -8 <= shell_l b < 8.

(** A line of a basis file that [load] and [parse] treat alike: without
    comment, without [END] anywhere, and not starting with [END] or
    [BASIS] in any letter case. *)
Definition tidy_line (x : str) : Prop :=
  no_hash x /\ contains (py "END") x = false
  /\ startswith (upper (strip x)) (py "END") = false
  /\ startswith (upper (strip x)) (py "BASIS") = false.

(** A line that is kept as it is by the cleaning of [parse_ecp], or is
    dropped there and skipped by [_parse_ecp]. *)
Definition kept_or_skipped (z : str) : Prop :=
  (clean_line z = z /\ keep_line (py "ECP") z = true)
  \/ (clean_line z = [] /\ is_skipped z = true).

(** A line without comment, or a line that is a comment. *)
Definition plain_or_comment (x : str) : Prop :=
  no_hash x \/ startswith (strip x) (py "#") = true.

(** A canonical element symbol for an ECP text: a word of letters that
    [parse_ecp] takes neither for [END] nor for [ECP]. *)
Definition ecp_word (symb : str) : Prop :=
  symb <> [] /\ forallb isalpha symb = true
  /\ startswith (upper symb) (py "END") = false
  /\ startswith (upper symb) (py "ECP") = false.

(** A block that [convert_ecp_to_nwchem] can write and [parse_ecp] read
    again: its [l] is [-1] or an index of the table, and it has four slots
    of rows of two numbers. *)
Definition ecp_writable (b : ecp_block) : Prop :=
  -1 <= ecp_l b < MAXL /\ length (ecp_by_ang b) = 4%nat
  /\ Forall (Forall (fun row => length row = 2%nat)) (ecp_by_ang b).

(** The block with every number replaced by the number that reads back
    from its text. *)
Definition reread_block (b : ecp_block) : ecp_block :=
  EcpBlock (ecp_l b) (map (map (map reread)) (ecp_by_ang b)).

(** The characters of a line that is neither cut by [splitlines] nor
    shortened as a comment. *)
Definition line_char (c : ascii) : bool :=
  negb (Ascii.eqb c "#") && negb (is_linebreak c).

(** The lines that [convert_ecp_to_nwchem] writes. *)
Definition nelec_text (symb : str) (n : Z) : str :=
  ljust 2 " " symb ++ py " nelec " ++ str_of_Z n.

Definition ecp_header_text (symb : str) (l : Z) : str :=
  if l =? -1 then ljust 2 " " symb ++ py " ul"
  else ljust 2 " " symb ++ py " " ++ lower [spdf_char l].

Definition ecp_row_text (r_order : nat) (row : list float) : str :=
  match row with
  | [e; c] => str_of_Z (Z.of_nat r_order) ++ py "    " ++ format_15_9f e
                ++ py "  " ++ format_15_9f c
  | _ => []
  end.

Definition ecp_slot_text (slot : nat * list (list float)) : list str :=
  map (ecp_row_text (fst slot)) (snd slot).

Definition ecp_block_text (symb : str) (b : ecp_block) : list str :=
  ecp_header_text symb (ecp_l b)
    :: concat (map ecp_slot_text (enumerate (ecp_by_ang b))).

(** A line as [parse_ecp] keeps it. *)
Definition cleaned (line : str) : str := upper (strip line).

(** A line that [convert_ecp_to_nwchem] writes for the symbol [symb]:
    its first token is the symbol or starts with a digit. *)
Definition written (symb line : str) : Prop :=
  forallb line_char line = true
  /\ ((exists toks, split line = symb :: toks)
      \/ (exists c t toks, split line = (c :: t) :: toks /\ isdigit c = true)).

(** A block that can be written: its [l] is an index of the tuple [SPDF],
    from either end, and each of its rows has two numbers. *)
Definition ecp_printable (b : ecp_block) : Prop :=
  -8 <= ecp_l b < 8
  /\ Forall (Forall (fun row => length row = 2%nat)) (ecp_by_ang b).

(** The characters other than [#]. *)
Definition not_hash (c : ascii) : bool := negb (Ascii.eqb c "#").

(** The lines that [search_seg] keeps. *)
Definition search_seg_keeps (x : str) : bool :=
  negb (is_empty x) && negb (contains (py "END") x).

(** ** Properties *)

(** *** Grouping by a key over a range *)

Lemma range_nil (a b : Z) : b <= a -> range a b = [].
Proof.
  intros H. unfold range. replace (Z.to_nat (b - a)) with O by lia. reflexivity.
Qed.

Lemma range_cons (a b : Z) : a < b -> range a b = a :: range (a + 1) b.
Proof.
  intros H. unfold range.
  replace (Z.to_nat (b - a)) with (S (Z.to_nat (b - (a + 1)))) by lia.
  simpl. f_equal; [lia|].
  rewrite <- seq_shift, map_map. apply map_ext. intros i. lia.
Qed.

Section Grouping.

Variable A : Type.
Variable k : A -> Z.

Lemma group_by_range_nil (a b : Z) (xs : list A) :
  b <= a -> group_by_range k a b xs = [].
Proof. intros H. unfold group_by_range. rewrite range_nil by lia. reflexivity. Qed.

Lemma group_by_range_cons (a b : Z) (xs : list A) :
  a < b ->
  group_by_range k a b xs = filter (has_key_l k a) xs ++ group_by_range k (a + 1) b xs.
Proof. intros H. unfold group_by_range. rewrite range_cons by lia. reflexivity. Qed.

(** Induction on the width of the range. *)
Lemma range_induction (P : Z -> Z -> Prop) :
  (forall a b, b <= a -> P a b) ->
  (forall a b, a < b -> P (a + 1) b -> P a b) ->
  forall a b, P a b.
Proof.
  intros Hnil Hcons a b.
  remember (Z.to_nat (b - a)) as n eqn:Hn. revert a Hn.
  induction n as [|n IH]; intros a Hn.
  - apply Hnil. lia.
  - apply Hcons; [lia|]. apply IH. lia.
Qed.

Lemma group_by_range_In (a b : Z) (xs : list A) (x : A) :
  In x (group_by_range k a b xs) <-> In x xs /\ a <= k x < b.
Proof.
  revert a b. apply (range_induction (fun a b =>
    In x (group_by_range k a b xs) <-> In x xs /\ a <= k x < b)); intros a b H.
  - rewrite group_by_range_nil by lia. simpl. split; [tauto|lia].
  - intros IH. rewrite group_by_range_cons by lia.
    rewrite in_app_iff, IH, filter_In. unfold has_key_l.
    rewrite Z.eqb_eq. split.
    + intros [[Hx Hk]|[Hx Hk]]; split; auto; lia.
    + intros [Hx Hk]. destruct (Z.eq_dec (k x) a); [left|right]; split; auto; lia.
Qed.

Lemma filter_filter_key (l l' : Z) (xs : list A) :
  filter (has_key_l k l) (filter (has_key_l k l') xs)
  = if l =? l' then filter (has_key_l k l) xs else [].
Proof.
  destruct (Z.eqb_spec l l') as [->|Hne].
  - induction xs as [|x xs IH]; simpl; [reflexivity|].
    destruct (has_key_l k l' x) eqn:E; simpl; rewrite ?E, IH; reflexivity.
  - induction xs as [|x xs IH]; simpl; [reflexivity|].
    destruct (has_key_l k l' x) eqn:E; simpl; [|exact IH].
    replace (has_key_l k l x) with false; [exact IH|].
    unfold has_key_l in *. apply Z.eqb_eq in E.
    symmetry. apply Z.eqb_neq. lia.
Qed.

(** Stability: the elements of one key keep their order. *)
Lemma group_by_range_stable (a b l : Z) (xs : list A) :
  filter (has_key_l k l) (group_by_range k a b xs)
  = if (a <=? l) && (l <? b) then filter (has_key_l k l) xs else [].
Proof.
  revert a b. apply (range_induction (fun a b =>
    filter (has_key_l k l) (group_by_range k a b xs)
    = if (a <=? l) && (l <? b) then filter (has_key_l k l) xs else []));
    intros a b H.
  - rewrite group_by_range_nil by lia. simpl.
    replace ((a <=? l) && (l <? b)) with false; [reflexivity|].
    symmetry. apply andb_false_iff.
    destruct (Z.leb_spec a l); [right; apply Z.ltb_ge; lia | left; reflexivity].
  - intros IH. rewrite group_by_range_cons by lia.
    rewrite filter_app, IH, filter_filter_key.
    destruct (Z.eqb_spec l a) as [->|Hne].
    + replace (a + 1 <=? a) with false by (symmetry; apply Z.leb_gt; lia).
      replace (a <=? a) with true by (symmetry; apply Z.leb_le; lia).
      replace (a <? b) with true by (symmetry; apply Z.ltb_lt; lia).
      simpl. apply app_nil_r.
    + simpl. destruct (Z.leb_spec (a + 1) l), (Z.leb_spec a l); simpl;
        try reflexivity; lia.
Qed.

Lemma sorted_app (l1 l2 : list Z) (a : Z) :
  Forall (fun y => y = a) l1 -> Forall (fun y => a <= y) l2 ->
  StronglySorted Z.le l2 -> StronglySorted Z.le (l1 ++ l2).
Proof.
  intros H1 H2 Hs. induction H1 as [|y l1 Hy H1 IH]; simpl; [exact Hs|].
  constructor; [exact IH|]. apply Forall_app. split.
  - revert H1. apply Forall_impl. intros; lia.
  - revert H2. apply Forall_impl. intros; lia.
Qed.

Lemma group_by_range_sorted (a b : Z) (xs : list A) :
  StronglySorted Z.le (map k (group_by_range k a b xs)).
Proof.
  revert a b. apply (range_induction (fun a b =>
    StronglySorted Z.le (map k (group_by_range k a b xs)))); intros a b H.
  - rewrite group_by_range_nil by lia. constructor.
  - intros IH. rewrite group_by_range_cons by lia. rewrite map_app.
    apply sorted_app with (a := a); [| |exact IH].
    + apply Forall_forall. intros y Hy. apply in_map_iff in Hy.
      destruct Hy as [x [<- Hx]]. apply filter_In in Hx.
      destruct Hx as [_ Hx]. apply Z.eqb_eq in Hx. exact Hx.
    + apply Forall_forall. intros y Hy. apply in_map_iff in Hy.
      destruct Hy as [x [<- Hx]]. apply group_by_range_In in Hx. lia.
Qed.

Ltac key_facts :=
  unfold in_range, has_key_l in *;
  rewrite ?andb_true_iff, ?andb_false_iff, ?Z.leb_le, ?Z.ltb_lt, ?Z.leb_gt,
    ?Z.ltb_ge, ?Z.eqb_eq, ?Z.eqb_neq in *.

Lemma filter_in_range_split (a b : Z) (xs : list A) :
  a < b ->
  Permutation (filter (in_range k a b) xs)
              (filter (has_key_l k a) xs ++ filter (in_range k (a + 1) b) xs).
Proof.
  intros H. induction xs as [|x xs IH]; simpl; [constructor|].
  destruct (in_range k a b x) eqn:E1, (has_key_l k a x) eqn:E2,
    (in_range k (a + 1) b x) eqn:E3; simpl;
    try (exfalso; key_facts; lia).
  - constructor. exact IH.
  - apply Permutation_cons_app. exact IH.
  - exact IH.
Qed.

Lemma filter_in_range_empty (a b : Z) (xs : list A) :
  b <= a -> filter (in_range k a b) xs = [].
Proof.
  intros H. induction xs as [|x xs IH]; simpl; [reflexivity|].
  destruct (in_range k a b x) eqn:E; [exfalso; key_facts; lia | exact IH].
Qed.

Lemma filter_in_range_all (a b : Z) (xs : list A) :
  Forall (fun x => a <= k x < b) xs -> filter (in_range k a b) xs = xs.
Proof.
  intros H. induction H as [|x xs Hx H IH]; simpl; [reflexivity|].
  destruct (in_range k a b x) eqn:E; [f_equal; exact IH | exfalso; key_facts; lia].
Qed.

Lemma group_by_range_perm (a b : Z) (xs : list A) :
  Permutation (filter (in_range k a b) xs) (group_by_range k a b xs).
Proof.
  revert a b. apply (range_induction (fun a b =>
    Permutation (filter (in_range k a b) xs) (group_by_range k a b xs)));
    intros a b H.
  - rewrite group_by_range_nil, filter_in_range_empty by lia. constructor.
  - intros IH. rewrite group_by_range_cons by lia.
    rewrite filter_in_range_split by lia.
    apply Permutation_app_head. exact IH.
Qed.

(** Nothing is dropped when every key lies in the range. *)
Lemma group_by_range_perm_all (a b : Z) (xs : list A) :
  Forall (fun x => a <= k x < b) xs ->
  Permutation xs (group_by_range k a b xs).
Proof.
  intros H. rewrite <- group_by_range_perm, filter_in_range_all by exact H.
  reflexivity.
Qed.

End Grouping.


Section Segments.

Variable _std_symbol : str -> str.


(** C7.  The five-line ECP text of the specification, parsed without an
    element symbol, gives 10 core electrons, the UL block with the row
    [0.5, 10.0] in its power-1 slot, then the S block with the row
    [1.0, 5.0] in its power-0 slot.  The numbers are written out as
    binary64 values [m * 2^e]: [0.5 = 2^52 * 2^-53],
    [10.0 = 5 * 2^50 * 2^-49], [1.0 = 2^52 * 2^-52] and
    [5.0 = 5 * 2^50 * 2^-50]. *)
Theorem parse_ecp_example :
  parse_ecp _std_symbol
    (text [py "NA NELEC 10"; py "NA UL"; py "1 0.5 10.0"; py "NA S";
           py "0 1.0 5.0"])
    None
  = Return (Some (10,
      [ EcpBlock (-1) [ [];
                        [[F_fin false 4503599627370496 (-53);
                          F_fin false 5629499534213120 (-49)]];
                        []; [] ];
        EcpBlock 0 [ [[F_fin false 4503599627370496 (-52);
                       F_fin false 5629499534213120 (-50)]];
                     []; []; [] ] ])).
Proof. vm_compute. reflexivity. Qed.

(** *** Segments of a basis text *)

(** [contains_match] finds a match exactly when some suffix of the text
    starts with one. *)
Lemma contains_match_spec (re : str -> option nat) (s : str) :
  contains_match re s = true
  <-> exists pre suf n, s = pre ++ suf /\ re suf = Some n.
Proof.
  induction s as [|c s IH]; simpl.
  - split.
    + destruct (re []) as [n|] eqn:E; [|discriminate].
      intros _. exists [], [], n. split; [reflexivity | exact E].
    + intros [pre [suf [n [Hs Hn]]]]. symmetry in Hs.
      apply app_eq_nil in Hs. destruct Hs as [_ ->]. rewrite Hn. reflexivity.
  - split.
    + destruct (re (c :: s)) as [n|] eqn:E.
      * intros _. exists [], (c :: s), n. split; [reflexivity | exact E].
      * intros H. apply IH in H. destruct H as [pre [suf [n [Hs Hn]]]].
        exists (c :: pre), suf, n. split; [rewrite Hs; reflexivity | exact Hn].
    + intros [pre [suf [n [Hs Hn]]]]. destruct pre as [|d pre].
      * simpl in Hs. subst suf. rewrite Hn. reflexivity.
      * injection Hs as -> Hs. destruct (re (d :: s)); [reflexivity|].
        apply IH. exists pre, suf, n. split; assumption.
Qed.

Lemma re_split_aux_no_match (re : str -> option nat) (s : str) :
  contains_match re s = false -> re_split_aux re 0 s = (s, []).
Proof.
  induction s as [|c s IH]; simpl; intros H; [reflexivity|].
  destruct (re (c :: s)); [discriminate|].
  rewrite (IH H). reflexivity.
Qed.

Lemma re_split_no_match (re : str -> option nat) (s : str) :
  contains_match re s = false -> re_split re s = [s].
Proof.
  intros H. unfold re_split. rewrite (re_split_aux_no_match _ _ H). reflexivity.
Qed.

(** C8.  With an element symbol, a text in which the delimiter
    [# BASIS SET...] matches nowhere has no chunk after a delimiter, and
    [parse] raises the KeyError "Basis not found". *)
Theorem parse_without_delimiter (string symb : str) :
  contains_match BASIS_SET_DELIMITER string = false ->
  parse _std_symbol string (Some symb)
  = Raise (KeyError (py "Basis not found for " ++ _std_symbol symb)).
Proof.
  intros H. unfold parse, basis_segment.
  rewrite (re_split_no_match _ _ H). reflexivity.
Qed.

(** *** The segment of an element in an ECP text *)

Lemma find_symb_loop_app (symb : str) (pre rest : list str) (i : nat)
    (last : option nat) :
  forallb (fun dat => negb (first_token_is symb dat)) pre = true ->
  find_symb_loop symb (pre ++ rest) i last
  = find_symb_loop symb rest (i + length pre)
      (match pre with [] => last | _ => Some (i + length pre - 1)%nat end).
Proof.
  revert i last. induction pre as [|dat pre IH]; intros i last H; simpl.
  - rewrite Nat.add_0_r. reflexivity.
  - simpl in H. apply andb_true_iff in H. destruct H as [Hd Hp].
    apply negb_true_iff in Hd. rewrite Hd. rewrite (IH _ _ Hp).
    replace (S i + length pre)%nat with (i + S (length pre))%nat by lia.
    destruct pre; simpl; f_equal; f_equal; lia.
Qed.

(** C10.  When the first line whose first token is the symbol is the last
    line of the text, the index of the first loop stops at the last line
    and [parse_ecp] raises the KeyError "ECP not found". *)
Theorem parse_ecp_symbol_on_last_line (string symb : str)
    (pre : list str) (last : str) :
  splitlines string = pre ++ [last] ->
  forallb (fun dat => negb (first_token_is (_std_symbol symb) dat)) pre = true ->
  first_token_is (_std_symbol symb) last = true ->
  parse_ecp _std_symbol string (Some symb)
  = Raise (KeyError (py "ECP not found for " ++ _std_symbol symb)).
Proof.
  intros Hl Hpre Hlast. unfold parse_ecp, ecp_segment.
  rewrite Hl, (find_symb_loop_app _ _ _ _ _ Hpre). simpl.
  rewrite Hlast. rewrite length_app. simpl.
  replace (length pre + 1 =? length pre + 1)%nat with true
    by (symmetry; apply Nat.eqb_refl).
  reflexivity.
Qed.

End Segments.

(** The text of C8's instance is the basis block of sodium itself. *)
Lemma parse_without_delimiter_witness :
  contains_match BASIS_SET_DELIMITER (text [py "Na S"; py "1.0 1.0"]) = false
  /\ parse std_symbol_model (text [py "Na S"; py "1.0 1.0"]) (Some (py "Na"))
     = Raise (KeyError (py "Basis not found for Na")).
Proof.
  split; [reflexivity|].
  exact (parse_without_delimiter std_symbol_model
           (text [py "Na S"; py "1.0 1.0"]) (py "Na") eq_refl).
Defined.

Lemma parse_ecp_symbol_on_last_line_witness :
  parse_ecp std_symbol_model (text [py "K nelec 10"; py "K ul"; py "Na nelec 10"])
            (Some (py "Na"))
  = Raise (KeyError (py "ECP not found for Na")).
Proof.
  exact (parse_ecp_symbol_on_last_line std_symbol_model
           (text [py "K nelec 10"; py "K ul"; py "Na nelec 10"]) (py "Na")
           [py "K nelec 10"; py "K ul"] (py "Na nelec 10")
           eq_refl eq_refl eq_refl).
Defined.

(** *** Results and loops *)

Lemma bind_Return {A B : Type} (m : result A) (k : A -> result B) (b : B) :
  bind m k = Return b -> exists a, m = Return a /\ k a = Return b.
Proof. destruct m as [a|e]; simpl; intros H; [eauto | discriminate]. Qed.

(** Splits a hypothesis [bind m k = Return b] into its two steps. *)
Ltac bind_inv H :=
  let a := fresh "a" in
  let Ha := fresh "Ha" in
  apply bind_Return in H; destruct H as [a [Ha H]].

Lemma for_each_app {S A : Type} (body : S -> A -> result S) (l1 l2 : list A)
    (s : S) :
  for_each body (l1 ++ l2) s = (s' <- for_each body l1 s ;; for_each body l2 s').
Proof.
  revert s. induction l1 as [|a l1 IH]; intros s; simpl; [reflexivity|].
  destruct (body s a); simpl; [apply IH | reflexivity].
Qed.

Lemma for_each_invariant {S A : Type} (body : S -> A -> result S)
    (P : S -> Prop) :
  (forall s a s', P s -> body s a = Return s' -> P s') ->
  forall l s s', P s -> for_each body l s = Return s' -> P s'.
Proof.
  intros Hstep l. induction l as [|a l IH]; intros s s' Hs H; simpl in H.
  - injection H as <-. exact Hs.
  - bind_inv H. eapply IH; [|exact H]. eapply Hstep; eassumption.
Qed.

(** *** Indexing *)

Lemma py_index_0 {A : Type} (a : A) (l : list A) : py_index (a :: l) 0 = Return a.
Proof.
  unfold py_index, py_norm_index.
  replace (0 <? Z.of_nat (length (a :: l))) with true
    by (symmetry; apply Z.ltb_lt; simpl; lia).
  reflexivity.
Qed.

Lemma py_alter_cases {A : Type} (f : A -> A) (l l' : list A) (i : Z) :
  py_alter f l i = Return l' -> exists n, l' = alter_nth f n l.
Proof.
  unfold py_alter. destruct (py_norm_index i (length l)); intros H;
    [injection H as <-; eauto | discriminate].
Qed.

(** Replaces the result of each successful [py_alter] by its value. *)
Ltac alter_inv :=
  repeat match goal with
         | H : py_alter _ _ _ = Return _ |- _ =>
             apply py_alter_cases in H; destruct H as [? ->]
         end.

Lemma alter_nth_Forall {A : Type} (P : A -> Prop) (f : A -> A) (n : nat)
    (l : list A) :
  (forall x, P x -> P (f x)) -> Forall P l -> Forall P (alter_nth f n l).
Proof.
  intros Hf H. revert n. induction H as [|x l Hx H IH]; intros n; simpl.
  - constructor.
  - destruct n; constructor; auto.
Qed.

Lemma alter_nth_length {A : Type} (f : A -> A) (n : nat) (l : list A) :
  length (alter_nth f n l) = length l.
Proof.
  revert n. induction l as [|x l IH]; intros n; simpl; [reflexivity|].
  destruct n; simpl; [reflexivity | f_equal; apply IH].
Qed.

(** *** The line classes *)

Lemma line_class (line : str) :
  is_skipped line = true \/ is_header line = true \/ is_data line = true.
Proof.
  unfold is_header, is_data. destruct (is_skipped line); [left; reflexivity|].
  destruct (starts_with_letter line); simpl; auto.
Qed.

Lemma _parse_line_skipped (st : parse_state) (line : str) :
  is_skipped line = true -> _parse_line st line = Return st.
Proof. unfold is_skipped, _parse_line. intros ->. reflexivity. Qed.

Lemma strip_head_of_class (line : str) :
  is_skipped line = false -> exists c r, strip line = c :: r.
Proof.
  unfold is_skipped. destruct (strip line) as [|c r]; simpl; [discriminate|eauto].
Qed.

Lemma _parse_line_header (st : parse_state) (line : str) :
  is_header line = true ->
  _parse_line st line
  = (key <- py_index (split (strip line)) 1 ;;
     if str_eqb key (py "SP") then
       Return (ParseState (basis_add st ++ [Shell 0 []] ++ [Shell 1 []])
                          (Some key))
     else
       l <- dict_get MAPSPDF key ;;
       Return (ParseState (basis_add st ++ [Shell l []]) (Some key))).
Proof.
  unfold is_header. intros H. apply andb_true_iff in H. destruct H as [H1 H2].
  apply negb_true_iff in H1. destruct (strip_head_of_class _ H1) as [c [r E]].
  unfold starts_with_letter in H2. unfold is_skipped in H1.
  unfold _parse_line. rewrite H1. rewrite E in *. rewrite py_index_0. simpl.
  rewrite H2. reflexivity.
Qed.

Lemma _parse_line_data (st : parse_state) (line : str) :
  is_data line = true ->
  _parse_line st line
  = (line <- data_numbers line ;;
     key <- read_key (key st) ;;
     if str_eqb key (py "SP") then
       _ <- py_index (basis_add st) (-2) ;;
       x0 <- py_index line 0 ;;
       x1 <- py_index line 1 ;;
       ba1 <- py_alter (add_row [x0; x1]) (basis_add st) (-2) ;;
       _ <- py_index ba1 (-1) ;;
       y0 <- py_index line 0 ;;
       y2 <- py_index line 2 ;;
       ba2 <- py_alter (add_row [y0; y2]) ba1 (-1) ;;
       Return (ParseState ba2 (Some key))
     else
       ba <- py_alter (add_row line) (basis_add st) (-1) ;;
       Return (ParseState ba (Some key))).
Proof.
  unfold is_data. intros H. apply andb_true_iff in H. destruct H as [H1 H2].
  apply negb_true_iff in H1. apply negb_true_iff in H2.
  destruct (strip_head_of_class _ H1) as [c [r E]].
  unfold starts_with_letter in H2. unfold is_skipped in H1.
  unfold _parse_line, data_numbers. rewrite H1. rewrite E in *.
  rewrite py_index_0. simpl. rewrite H2. reflexivity.
Qed.

(** *** Shells carry an angular momentum of the table *)

Lemma MAPSPDF_range (key : str) (l : Z) :
  dict_get MAPSPDF key = Return l -> 0 <= l < MAXL.
Proof.
  unfold MAPSPDF, MAXL. simpl.
  repeat match goal with
         | |- context [if ?b then _ else _] => destruct b
         end; intros H; try discriminate; injection H as <-; lia.
Qed.

Lemma add_row_l (row : list float) (b : shell) :
  shell_l (add_row row b) = shell_l b.
Proof. reflexivity. Qed.

Lemma _parse_line_in_range (st : parse_state) (line : str) (st' : parse_state) :
  shells_in_range st -> _parse_line st line = Return st' -> shells_in_range st'.
Proof.
  unfold shells_in_range. intros Hst H.
  destruct (line_class line) as [C|[C|C]].
  - rewrite _parse_line_skipped in H by exact C. injection H as <-. exact Hst.
  - rewrite _parse_line_header in H by exact C. bind_inv H.
    destruct (str_eqb a (py "SP")).
    + injection H as <-. simpl. apply Forall_app. split; [exact Hst|].
      constructor; [simpl; unfold MAXL; lia|].
      constructor; [simpl; unfold MAXL; lia|constructor].
    + bind_inv H. injection H as <-. simpl. apply Forall_app. split; [exact Hst|].
      constructor; [|constructor]. simpl. eapply MAPSPDF_range; eassumption.
  - rewrite _parse_line_data in H by exact C. bind_inv H. bind_inv H.
    destruct (str_eqb a0 (py "SP")).
    + do 8 bind_inv H. injection H as <-. simpl.
      alter_inv. apply alter_nth_Forall; [auto|]. apply alter_nth_Forall; auto.
    + bind_inv H. injection H as <-. simpl.
      alter_inv. apply alter_nth_Forall; auto.
Qed.

Lemma _parse_loop_in_range (lines : list str) (st : parse_state) :
  _parse_loop lines = Return st -> shells_in_range st.
Proof.
  unfold _parse_loop. apply for_each_invariant with (P := shells_in_range).
  - intros s a s'. apply _parse_line_in_range.
  - constructor.
Qed.

Lemma alter_nth_map {A B : Type} (k : A -> B) (f : A -> A) (n : nat)
    (l : list A) :
  (forall x, k (f x) = k x) -> map k (alter_nth f n l) = map k l.
Proof.
  intros Hf. revert n. induction l as [|x l IH]; intros n; simpl; [reflexivity|].
  destruct n; simpl; [rewrite Hf | rewrite IH]; reflexivity.
Qed.

Lemma py_index_nth_error {A : Type} (l : list A) (n : nat) (a : A) :
  py_index l (Z.of_nat n) = Return a -> nth_error l n = Some a.
Proof.
  unfold py_index, py_norm_index.
  destruct (Z.leb_spec 0 (Z.of_nat n)) as [_|Hn]; [|lia].
  destruct (Z.ltb_spec (Z.of_nat n) (Z.of_nat (length l))) as [_|_]; simpl.
  - rewrite Nat2Z.id. destruct (nth_error l n); intros H;
      [injection H as <-; reflexivity | discriminate].
  - destruct (Z.ltb_spec (Z.of_nat n) 0) as [Hn|_]; [lia|]. simpl. discriminate.
Qed.

Lemma _parse_line_order (st : parse_state) (line : str) (st' : parse_state) :
  _parse_line st line = Return st' ->
  map shell_l (basis_add st')
  = map shell_l (basis_add st) ++ shells_of_line line.
Proof.
  intros H. unfold shells_of_line.
  destruct (line_class line) as [C|[C|C]].
  - rewrite _parse_line_skipped in H by exact C. injection H as <-.
    unfold is_header. rewrite C. simpl. symmetry. apply app_nil_r.
  - rewrite _parse_line_header in H by exact C. rewrite C. bind_inv H.
    unfold header_key. rewrite (py_index_nth_error _ 1%nat _ Ha).
    destruct (str_eqb a (py "SP")).
    + injection H as <-. simpl. rewrite map_app. reflexivity.
    + bind_inv H. rewrite Ha0. injection H as <-. simpl. rewrite map_app.
      reflexivity.
  - rewrite _parse_line_data in H by exact C.
    assert (Hh : is_header line = false).
    { unfold is_data in C. unfold is_header.
      apply andb_true_iff in C. destruct C as [C1 C2]. rewrite C1.
      apply negb_true_iff in C2. rewrite C2. reflexivity. }
    rewrite Hh, app_nil_r. bind_inv H. bind_inv H.
    destruct (str_eqb a0 (py "SP")).
    + do 8 bind_inv H. injection H as <-. simpl. alter_inv.
      rewrite !alter_nth_map by reflexivity. reflexivity.
    + bind_inv H. injection H as <-. simpl. alter_inv.
      rewrite alter_nth_map by reflexivity. reflexivity.
Qed.

Lemma for_each_parse_order (lines : list str) (st st' : parse_state) :
  for_each _parse_line lines st = Return st' ->
  map shell_l (basis_add st')
  = map shell_l (basis_add st) ++ flat_map shells_of_line lines.
Proof.
  revert st. induction lines as [|line lines IH]; intros st H; simpl in H.
  - injection H as <-. simpl. symmetry. apply app_nil_r.
  - bind_inv H. rewrite (IH _ H), (_parse_line_order _ _ _ Ha).
    simpl. rewrite app_assoc. reflexivity.
Qed.

Section BasisOrder.

Variable _std_symbol : str -> str.

(** C4.  When [parse] returns, its shells are those that the header lines
    opened, in ascending order of [l]; none is dropped, and the shells of
    one [l] keep the order in which their headers appear in the text. *)
Theorem parse_sorted_stable (string : str) (symb : option str) (bs : Basis) :
  parse _std_symbol string symb = Return bs ->
  exists (seg : str) (st : parse_state),
    basis_segment _std_symbol string symb = Return seg
    /\ _parse_loop (clean_lines (py "BASIS") (splitlines seg)) = Return st
    /\ map shell_l (basis_add st)
       = flat_map shells_of_line (clean_lines (py "BASIS") (splitlines seg))
    /\ StronglySorted Z.le (map shell_l bs)
    /\ Permutation (basis_add st) bs
    /\ forall l, filter (has_key_l shell_l l) bs
                 = filter (has_key_l shell_l l) (basis_add st).
Proof.
  unfold parse, _parse. intros H. bind_inv H. bind_inv H. injection H as <-.
  exists a, a0. split; [exact Ha|]. split; [exact Ha0|].
  pose proof (_parse_loop_in_range _ _ Ha0) as Hr.
  split; [|split; [|split]].
  - apply (for_each_parse_order _ _ _ Ha0).
  - apply group_by_range_sorted.
  - apply group_by_range_perm_all. exact Hr.
  - intros l. unfold bsort_shells. rewrite group_by_range_stable.
    destruct ((0 <=? l) && (l <? MAXL)) eqn:E; [reflexivity|].
    symmetry. unfold shells_in_range in Hr.
    induction Hr as [|b ba Hb Hr IH]; simpl; [reflexivity|].
    unfold has_key_l at 1. destruct (Z.eqb_spec (shell_l b) l) as [El|El];
      [|exact IH].
    exfalso. apply andb_false_iff in E.
    destruct E as [E|E]; [apply Z.leb_gt in E | apply Z.ltb_ge in E]; lia.
Qed.

End BasisOrder.

Lemma parse_sorted_stable_witness :
  let string := text [py "# BASIS SET"; py "Na P"; py "2.0 1.0"; py "Na S";
                      py "3.0 1.0"; py "Na P"; py "1.0 1.0"] in
  let bs := [Shell 0 [[float_of_Z 3; float_of_Z 1]];
             Shell 1 [[float_of_Z 2; float_of_Z 1]];
             Shell 1 [[float_of_Z 1; float_of_Z 1]]] in
  parse std_symbol_model string (Some (py "Na")) = Return bs
  /\ exists (seg : str) (st : parse_state),
       basis_segment std_symbol_model string (Some (py "Na")) = Return seg
       /\ _parse_loop (clean_lines (py "BASIS") (splitlines seg)) = Return st
       /\ map shell_l (basis_add st)
          = flat_map shells_of_line (clean_lines (py "BASIS") (splitlines seg))
       /\ StronglySorted Z.le (map shell_l bs)
       /\ Permutation (basis_add st) bs
       /\ forall l, filter (has_key_l shell_l l) bs
                    = filter (has_key_l shell_l l) (basis_add st).
Proof.
  intros string bs. split; [reflexivity|].
  apply (parse_sorted_stable std_symbol_model string (Some (py "Na")) bs).
  reflexivity.
Defined.

(** *** The loop of [_parse_ecp] by line class *)

Lemma _parse_ecp_line_skipped (st : ecp_state) (line : str) :
  is_skipped line = true -> _parse_ecp_line st line = Return st.
Proof. unfold is_skipped, _parse_ecp_line. intros ->. reflexivity. Qed.

Lemma _parse_ecp_line_header (st : ecp_state) (line : str) :
  is_header line = true ->
  _parse_ecp_line st line
  = (key <- py_index (split (strip line)) 1 ;;
     if str_eqb key (py "NELEC") then
       tok <- py_index (split (strip line)) 2 ;;
       n <- int_of_str tok ;;
       Return (EcpState (ecp_add st) (Some n) (by_ang st))
     else
       l <- (if str_eqb key (py "UL") then Return (-1)
             else dict_get MAPSPDF key) ;;
       Return (EcpState (ecp_add st ++ [EcpBlock l empty_by_ang])
                        (nelec st)
                        (Some (length (ecp_add st))))).
Proof.
  unfold is_header. intros H. apply andb_true_iff in H. destruct H as [H1 H2].
  apply negb_true_iff in H1. destruct (strip_head_of_class _ H1) as [c [r E]].
  unfold starts_with_letter in H2. unfold is_skipped in H1.
  unfold _parse_ecp_line. rewrite H1. rewrite E in *. rewrite py_index_0. simpl.
  rewrite H2. reflexivity.
Qed.

Lemma _parse_ecp_line_data (st : ecp_state) (line : str) :
  is_data line = true ->
  _parse_ecp_line st line
  = (let toks := split (D_to_e (strip line)) in
     tok <- py_index toks 0 ;;
     l <- int_of_str tok ;;
     i <- read_by_ang (by_ang st) ;;
     slots <- deref_by_ang (ecp_add st) i ;;
     _ <- py_index slots l ;;
     row <- map_result float_of_str (skipn 1 toks) ;;
     slots' <- py_alter (fun slot => slot ++ [row]) slots l ;;
     Return (EcpState (alter_nth (set_by_ang slots') i (ecp_add st))
                      (nelec st) (by_ang st))).
Proof.
  unfold is_data. intros H. apply andb_true_iff in H. destruct H as [H1 H2].
  apply negb_true_iff in H1. apply negb_true_iff in H2.
  destruct (strip_head_of_class _ H1) as [c [r E]].
  unfold starts_with_letter in H2. unfold is_skipped in H1.
  unfold _parse_ecp_line. rewrite H1. rewrite E in *.
  rewrite py_index_0. simpl. rewrite H2. reflexivity.
Qed.

Lemma is_data_not_header (line : str) : is_data line = true -> is_header line = false.
Proof.
  unfold is_data, is_header. intros C.
  apply andb_true_iff in C. destruct C as [C1 C2]. rewrite C1.
  apply negb_true_iff in C2. rewrite C2. reflexivity.
Qed.

Lemma is_skipped_not_header (line : str) :
  is_skipped line = true -> is_header line = false.
Proof. unfold is_header. intros ->. reflexivity. Qed.

Lemma ecp_header_l_range (key : str) (l : Z) :
  (if str_eqb key (py "UL") then Return (-1) else dict_get MAPSPDF key)
  = Return l -> -1 <= l < MAXL.
Proof.
  destruct (str_eqb key (py "UL")).
  - intros H. injection H as <-. unfold MAXL. lia.
  - intros H. apply MAPSPDF_range in H. lia.
Qed.

Lemma _parse_ecp_line_in_range (st : ecp_state) (line : str) (st' : ecp_state) :
  blocks_in_range st -> _parse_ecp_line st line = Return st' ->
  blocks_in_range st'.
Proof.
  unfold blocks_in_range. intros Hst H.
  destruct (line_class line) as [C|[C|C]].
  - rewrite _parse_ecp_line_skipped in H by exact C. injection H as <-. exact Hst.
  - rewrite _parse_ecp_line_header in H by exact C. bind_inv H.
    destruct (str_eqb a (py "NELEC")).
    + do 2 bind_inv H. injection H as <-. exact Hst.
    + bind_inv H. injection H as <-. simpl. apply Forall_app. split; [exact Hst|].
      constructor; [|constructor]. simpl. eapply ecp_header_l_range; eassumption.
  - rewrite _parse_ecp_line_data in H by exact C. cbv zeta in H.
    do 7 bind_inv H. injection H as <-. simpl.
    apply alter_nth_Forall; auto.
Qed.

Lemma _parse_ecp_loop_in_range (lines : list str) (st : ecp_state) :
  _parse_ecp_loop lines = Return st -> blocks_in_range st.
Proof.
  unfold _parse_ecp_loop. apply for_each_invariant with (P := blocks_in_range).
  - intros s a s'. apply _parse_ecp_line_in_range.
  - constructor.
Qed.

Lemma _parse_ecp_line_order (st : ecp_state) (line : str) (st' : ecp_state) :
  _parse_ecp_line st line = Return st' ->
  map ecp_l (ecp_add st') = map ecp_l (ecp_add st) ++ blocks_of_line line.
Proof.
  intros H. unfold blocks_of_line.
  destruct (line_class line) as [C|[C|C]].
  - rewrite _parse_ecp_line_skipped in H by exact C. injection H as <-.
    rewrite is_skipped_not_header by exact C. symmetry. apply app_nil_r.
  - rewrite _parse_ecp_line_header in H by exact C. rewrite C. bind_inv H.
    unfold header_key. rewrite (py_index_nth_error _ 1%nat _ Ha).
    destruct (str_eqb a (py "NELEC")).
    + do 2 bind_inv H. injection H as <-. symmetry. apply app_nil_r.
    + bind_inv H. injection H as <-. cbn [ecp_add]. rewrite map_app.
      cbn [map ecp_l]. destruct (str_eqb a (py "UL")).
      * injection Ha0 as <-. reflexivity.
      * rewrite Ha0. reflexivity.
  - rewrite _parse_ecp_line_data in H by exact C. cbv zeta in H.
    rewrite is_data_not_header by exact C.
    do 7 bind_inv H. injection H as <-. simpl.
    rewrite alter_nth_map by reflexivity. symmetry. apply app_nil_r.
Qed.

Lemma for_each_ecp_order (lines : list str) (st st' : ecp_state) :
  for_each _parse_ecp_line lines st = Return st' ->
  map ecp_l (ecp_add st')
  = map ecp_l (ecp_add st) ++ flat_map blocks_of_line lines.
Proof.
  revert st. induction lines as [|line lines IH]; intros st H; simpl in H.
  - injection H as <-. simpl. symmetry. apply app_nil_r.
  - bind_inv H. rewrite (IH _ H), (_parse_ecp_line_order _ _ _ Ha).
    simpl. rewrite app_assoc. reflexivity.
Qed.

(** Only a [NELEC] header binds [nelec]. *)
Lemma _parse_ecp_line_nelec (st : ecp_state) (line : str) (st' : ecp_state) :
  has_key (py "NELEC") line = false ->
  _parse_ecp_line st line = Return st' -> nelec st' = nelec st.
Proof.
  intros Hk H. destruct (line_class line) as [C|[C|C]].
  - rewrite _parse_ecp_line_skipped in H by exact C. injection H as <-. reflexivity.
  - rewrite _parse_ecp_line_header in H by exact C. bind_inv H.
    unfold has_key, header_key in Hk.
    rewrite C, (py_index_nth_error _ 1%nat _ Ha) in Hk. simpl in Hk. rewrite Hk in H.
    bind_inv H. injection H as <-. reflexivity.
  - rewrite _parse_ecp_line_data in H by exact C. cbv zeta in H.
    do 7 bind_inv H. injection H as <-. reflexivity.
Qed.

Lemma for_each_ecp_nelec (lines : list str) (st st' : ecp_state) :
  forallb (fun x => negb (has_key (py "NELEC") x)) lines = true ->
  for_each _parse_ecp_line lines st = Return st' -> nelec st' = nelec st.
Proof.
  revert st. induction lines as [|line lines IH]; intros st Hk H; simpl in *.
  - injection H as <-. reflexivity.
  - apply andb_true_iff in Hk. destruct Hk as [Hk1 Hk2].
    apply negb_true_iff in Hk1. bind_inv H.
    rewrite (IH _ Hk2 H). eapply _parse_ecp_line_nelec; eassumption.
Qed.

Section EcpResults.

Variable _std_symbol : str -> str.

(** C2 as the code has it.  Without a [NELEC] header among the lines that
    [parse_ecp] reads, no error of its own is raised: the result is the
    exception of the line loop if a line is malformed, and [None]
    otherwise. *)
Theorem parse_ecp_without_nelec (string : str) (symb : option str)
    (seg : list str) :
  ecp_segment _std_symbol string symb = Return seg ->
  forallb (fun x => negb (has_key (py "NELEC") x))
          (clean_lines (py "ECP") seg) = true ->
  parse_ecp _std_symbol string symb
  = (_ <- _parse_ecp_loop (clean_lines (py "ECP") seg) ;; Return None).
Proof.
  intros Hseg Hk. unfold parse_ecp, _parse_ecp. rewrite Hseg. simpl.
  destruct (_parse_ecp_loop (clean_lines (py "ECP") seg)) as [st|e] eqn:E;
    simpl; [|reflexivity].
  unfold _parse_ecp_loop in E. rewrite (for_each_ecp_nelec _ _ _ Hk E).
  reflexivity.
Qed.

(** C6.  When [parse_ecp] returns an ECP, its blocks are those that the
    header lines opened, in ascending order of [l] from [-1] (UL) on; none
    is dropped, and the blocks of one [l] keep the order in which their
    headers appear in the text. *)
Theorem parse_ecp_sorted_stable (string : str) (symb : option str)
    (n : Z) (blocks : list ecp_block) :
  parse_ecp _std_symbol string symb = Return (Some (n, blocks)) ->
  exists (seg : list str) (st : ecp_state),
    ecp_segment _std_symbol string symb = Return seg
    /\ _parse_ecp_loop (clean_lines (py "ECP") seg) = Return st
    /\ map ecp_l (ecp_add st)
       = flat_map blocks_of_line (clean_lines (py "ECP") seg)
    /\ Forall (fun b => -1 <= ecp_l b) blocks
    /\ StronglySorted Z.le (map ecp_l blocks)
    /\ Permutation (ecp_add st) blocks
    /\ forall l, filter (has_key_l ecp_l l) blocks
                 = filter (has_key_l ecp_l l) (ecp_add st).
Proof.
  unfold parse_ecp, _parse_ecp. intros H. bind_inv H. bind_inv H.
  destruct (nelec a0) as [n'|] eqn:En; [|discriminate].
  injection H as <- <-.
  exists a, a0. split; [exact Ha|]. split; [exact Ha0|].
  pose proof (_parse_ecp_loop_in_range _ _ Ha0) as Hr.
  assert (Hp : Permutation (ecp_add a0) (bsort_ecp (ecp_add a0)))
    by (apply group_by_range_perm_all; exact Hr).
  split; [|split; [|split; [|split]]].
  - apply (for_each_ecp_order _ _ _ Ha0).
  - apply Forall_forall. intros b Hb.
    apply (Permutation_in _ (Permutation_sym Hp)) in Hb.
    unfold blocks_in_range in Hr. rewrite Forall_forall in Hr.
    apply Hr in Hb. lia.
  - apply group_by_range_sorted.
  - exact Hp.
  - intros l. unfold bsort_ecp. rewrite group_by_range_stable.
    destruct ((-1 <=? l) && (l <? MAXL)) eqn:E; [reflexivity|].
    symmetry. unfold blocks_in_range in Hr. clear Hp Ha0 En.
    induction Hr as [|b ba Hb Hr IH]; simpl; [reflexivity|].
    unfold has_key_l at 1. destruct (Z.eqb_spec (ecp_l b) l) as [El|El].
    + exfalso. apply andb_false_iff in E.
      destruct E as [E|E]; [apply Z.leb_gt in E | apply Z.ltb_ge in E]; lia.
    + exact IH.
Qed.

End EcpResults.

(** C2 as the specification words it fails: this text has no [NELEC] line
    and [parse_ecp] returns [None] without raising. *)
Lemma parse_ecp_without_nelec_returns_none :
  let string := text [py "NA UL"; py "1 0.5 10.0"] in
  forallb (fun x => negb (has_key (py "NELEC") x))
          (clean_lines (py "ECP") (splitlines string)) = true
  /\ parse_ecp std_symbol_model string None = Return None
  /\ ~ raises (parse_ecp std_symbol_model string None).
Proof.
  intros string. split; [reflexivity|]. split; [reflexivity|].
  intros [e He]. vm_compute in He. discriminate He.
Qed.

Lemma parse_ecp_without_nelec_witness :
  let string := text [py "NA UL"; py "1 0.5 10.0"] in
  let seg := [py "NA UL"; py "1 0.5 10.0"] in
  ecp_segment std_symbol_model string None = Return seg
  /\ forallb (fun x => negb (has_key (py "NELEC") x))
             (clean_lines (py "ECP") seg) = true
  /\ parse_ecp std_symbol_model string None
     = (_ <- _parse_ecp_loop (clean_lines (py "ECP") seg) ;; Return None).
Proof.
  intros string seg. split; [reflexivity|]. split; [reflexivity|].
  apply (parse_ecp_without_nelec std_symbol_model string None seg);
    reflexivity.
Defined.

Lemma parse_ecp_sorted_stable_witness :
  let string := text [py "Na nelec 10"; py "Na p"; py "2 1.0 5.0"; py "Na ul";
                      py "1 0.5 10.0"; py "Na s"; py "0 1.0 5.0"; py "Na p";
                      py "2 3.0 5.0"; py "K nelec 18"] in
  let blocks :=
    [EcpBlock (-1) [[]; [[binary64_of_ratio false 1 2; float_of_Z 10]]; []; []];
     EcpBlock 0 [[[float_of_Z 1; float_of_Z 5]]; []; []; []];
     EcpBlock 1 [[]; []; [[float_of_Z 1; float_of_Z 5]]; []];
     EcpBlock 1 [[]; []; [[float_of_Z 3; float_of_Z 5]]; []]] in
  parse_ecp std_symbol_model string (Some (py "Na")) = Return (Some (10, blocks))
  /\ exists (seg : list str) (st : ecp_state),
       ecp_segment std_symbol_model string (Some (py "Na")) = Return seg
       /\ _parse_ecp_loop (clean_lines (py "ECP") seg) = Return st
       /\ map ecp_l (ecp_add st)
          = flat_map blocks_of_line (clean_lines (py "ECP") seg)
       /\ Forall (fun b => -1 <= ecp_l b) blocks
       /\ StronglySorted Z.le (map ecp_l blocks)
       /\ Permutation (ecp_add st) blocks
       /\ forall l, filter (has_key_l ecp_l l) blocks
                    = filter (has_key_l ecp_l l) (ecp_add st).
Proof.
  intros string blocks. split; [reflexivity|].
  apply (parse_ecp_sorted_stable std_symbol_model string (Some (py "Na"))
           10 blocks).
  reflexivity.
Defined.

(** *** A data line before any header *)

Lemma for_each_skipped (lines : list str) (st : parse_state) :
  forallb is_skipped lines = true -> for_each _parse_line lines st = Return st.
Proof.
  induction lines as [|line lines IH]; simpl; intros H; [reflexivity|].
  apply andb_true_iff in H. destruct H as [H1 H2].
  rewrite _parse_line_skipped by exact H1. simpl. apply IH. exact H2.
Qed.

Section DataBeforeHeader.

Variable _std_symbol : str -> str.

(** C3 as the code has it.  When the first line that [_parse] does not
    skip is a data line whose tokens all read as numbers, [key] is still
    unbound where the loop reads it: [parse] raises UnboundLocalError. *)
Theorem parse_data_before_header (string : str) (symb : option str)
    (seg : str) (pre : list str) (line : str) (rest : list str)
    (xs : list float) :
  basis_segment _std_symbol string symb = Return seg ->
  clean_lines (py "BASIS") (splitlines seg) = pre ++ line :: rest ->
  forallb is_skipped pre = true ->
  is_data line = true ->
  data_numbers line = Return xs ->
  parse _std_symbol string symb = Raise UnboundLocalError.
Proof.
  intros Hseg Hl Hpre Hd Hx. unfold parse, _parse, _parse_loop.
  rewrite Hseg. simpl. rewrite Hl, for_each_app, for_each_skipped by exact Hpre.
  simpl. rewrite _parse_line_data by exact Hd. rewrite Hx. reflexivity.
Qed.

End DataBeforeHeader.

(** C3 as the specification words it fails: the data line of this text
    precedes its header, and the error is the unbound variable, not a
    parse error of the line. *)
Lemma parse_data_before_header_unbound :
  parse std_symbol_model (text [py "1.0 2.0"; py "O S"; py "3.0 4.0"]) None
  = Raise UnboundLocalError
  /\ parse std_symbol_model (text [py "1.0 2.0"; py "O S"; py "3.0 4.0"]) None
     <> Raise ValueError.
Proof. split; [reflexivity|]. vm_compute. discriminate. Qed.

Lemma parse_data_before_header_witness :
  let string := text [py "1.0 2.0"; py "O S"; py "3.0 4.0"] in
  basis_segment std_symbol_model string None = Return string
  /\ clean_lines (py "BASIS") (splitlines string)
     = [] ++ py "1.0 2.0" :: [py "O S"; py "3.0 4.0"]
  /\ forallb is_skipped [] = true
  /\ is_data (py "1.0 2.0") = true
  /\ data_numbers (py "1.0 2.0") = Return [float_of_Z 1; float_of_Z 2]
  /\ parse std_symbol_model string None = Raise UnboundLocalError.
Proof.
  intros string. repeat (split; [reflexivity|]).
  apply (parse_data_before_header std_symbol_model string None string []
           (py "1.0 2.0") [py "O S"; py "3.0 4.0"]
           [float_of_Z 1; float_of_Z 2]); reflexivity.
Defined.

(** *** Indices counted from the end *)

Lemma str_eqb_eq (a b : str) : str_eqb a b = true <-> a = b.
Proof.
  revert b. induction a as [|x a IH]; intros [|y b]; simpl; split; intros H;
    try reflexivity; try discriminate.
  - apply andb_true_iff in H. destruct H as [H1 H2].
    apply Ascii.eqb_eq in H1. apply IH in H2. subst. reflexivity.
  - injection H as -> ->. rewrite Ascii.eqb_refl. simpl. apply IH. reflexivity.
Qed.

Lemma str_eqb_refl (a : str) : str_eqb a a = true.
Proof. apply str_eqb_eq. reflexivity. Qed.

Lemma py_norm_index_app (i : Z) (n m : nat) (j : nat) :
  i < 0 -> py_norm_index i m = Some j ->
  py_norm_index i (n + m) = Some (n + j)%nat.
Proof.
  unfold py_norm_index. intros Hi.
  destruct (Z.leb_spec 0 i) as [H0|_]; [lia|]. simpl.
  destruct (Z.ltb_spec i 0) as [_|H0]; [|lia]. simpl.
  destruct (Z.leb_spec 0 (i + Z.of_nat m)) as [H1|H1]; intros H; [|discriminate].
  injection H as <-.
  destruct (Z.leb_spec 0 (i + Z.of_nat (n + m))) as [H2|H2]; [|lia].
  f_equal. lia.
Qed.

Lemma alter_nth_app_r {A : Type} (f : A -> A) (l t : list A) (j : nat) :
  alter_nth f (length l + j) (l ++ t) = l ++ alter_nth f j t.
Proof. induction l as [|x l IH]; simpl; [reflexivity | f_equal; exact IH]. Qed.

Lemma nth_error_app_r {A : Type} (l t : list A) (j : nat) :
  nth_error (l ++ t) (length l + j) = nth_error t j.
Proof. induction l as [|x l IH]; simpl; [reflexivity | exact IH]. Qed.

Lemma py_norm_index_neg_bound (i : Z) (m : nat) :
  i < 0 -> - i <= Z.of_nat m -> exists j, py_norm_index i m = Some j.
Proof.
  intros Hi Hm. unfold py_norm_index.
  destruct (Z.leb_spec 0 i) as [H0|_]; [lia|]. simpl.
  destruct (Z.ltb_spec i 0) as [_|H0]; [|lia]. simpl.
  destruct (Z.leb_spec 0 (i + Z.of_nat m)) as [H1|H1]; [eauto | lia].
Qed.

(** An index counted from the end looks only at the end of the list. *)
Lemma py_alter_app {A : Type} (f : A -> A) (l t : list A) (i : Z) :
  i < 0 -> - i <= Z.of_nat (length t) ->
  py_alter f (l ++ t) i = result_map (app l) (py_alter f t i).
Proof.
  intros Hi Hm. destruct (py_norm_index_neg_bound i _ Hi Hm) as [j Hj].
  unfold py_alter. rewrite length_app, (py_norm_index_app i _ _ j Hi Hj), Hj.
  simpl. rewrite alter_nth_app_r. reflexivity.
Qed.


Lemma py_alter_length {A : Type} (f : A -> A) (l l' : list A) (i : Z) :
  py_alter f l i = Return l' -> length l' = length l.
Proof.
  intros H. apply py_alter_cases in H. destruct H as [n ->].
  apply alter_nth_length.
Qed.

(** *** The shells already closed are out of reach *)





(** *** The compound shell type [SP] *)

Lemma py_alter_last {A : Type} (f : A -> A) (l : list A) (a : A) :
  py_alter f (l ++ [a]) (-1) = Return (l ++ [f a]).
Proof. rewrite py_alter_app by (simpl; lia). reflexivity. Qed.




Lemma py_index_nat {A : Type} (l : list A) (n : nat) (a : A) (i : Z) :
  i = Z.of_nat n -> nth_error l n = Some a -> py_index l i = Return a.
Proof.
  intros -> H. unfold py_index, py_norm_index.
  assert (Hn : (n < length l)%nat) by (apply nth_error_Some; congruence).
  destruct (Z.leb_spec 0 (Z.of_nat n)) as [_|H0]; [|lia].
  destruct (Z.ltb_spec (Z.of_nat n) (Z.of_nat (length l))) as [_|H1]; [|lia].
  simpl. rewrite Nat2Z.id, H. reflexivity.
Qed.




Section CompoundShell.

Variable _std_symbol : str -> str.


End CompoundShell.


(** *** Characters *)

(** Decides a closed fact about one character by running through the 256
    of them. *)
Ltac all_chars c :=
  destruct c as [[] [] [] [] [] [] [] []]; vm_compute;
  try reflexivity; try discriminate; auto.

Lemma isspace_upper_char (c : ascii) : isspace (upper_char c) = isspace c.
Proof. all_chars c. Qed.

Lemma isalpha_upper_char (c : ascii) : isalpha (upper_char c) = isalpha c.
Proof. all_chars c. Qed.

Lemma upper_char_idem (c : ascii) : upper_char (upper_char c) = upper_char c.
Proof. all_chars c. Qed.

Lemma isalpha_not_space (c : ascii) : isalpha c = true -> isspace c = false.
Proof. all_chars c. Qed.

Lemma isdigit_not_space (c : ascii) : isdigit c = true -> isspace c = false.
Proof. all_chars c. Qed.

Lemma isdigit_not_alpha (c : ascii) : isdigit c = true -> isalpha c = false.
Proof. all_chars c. Qed.

Lemma isspace_D_to_e (c : ascii) :
  isspace (if Ascii.eqb c "D" then "e"%char else c) = isspace c.
Proof. all_chars c. Qed.

Lemma is_linebreak_space (c : ascii) : is_linebreak c = true -> isspace c = true.
Proof. all_chars c. Qed.

(** *** Prefixes of blanks *)

Lemma all_space_app (a b : str) :
  all_space a -> all_space b -> all_space (a ++ b).
Proof.
  unfold all_space. intros Ha Hb. rewrite forallb_app, Ha, Hb. reflexivity.
Qed.

Lemma lstrip_spaces (ws s : str) : all_space ws -> lstrip (ws ++ s) = lstrip s.
Proof.
  unfold all_space. induction ws as [|c ws IH]; simpl; intros H; [reflexivity|].
  apply andb_true_iff in H. destruct H as [Hc Hw]. rewrite Hc. apply IH. exact Hw.
Qed.

Lemma lstrip_all_space (ws : str) : all_space ws -> lstrip ws = [].
Proof.
  intros H. rewrite <- (app_nil_r ws). rewrite lstrip_spaces by exact H.
  reflexivity.
Qed.

Lemma lstrip_head (c : ascii) (s : str) :
  isspace c = false -> lstrip (c :: s) = c :: s.
Proof. simpl. intros ->. reflexivity. Qed.

(** [s] is its blanks followed by [lstrip s], which does not start with a
    blank. *)
Lemma lstrip_split (s : str) :
  exists ws, all_space ws /\ s = ws ++ lstrip s
             /\ match lstrip s with
                | c :: _ => isspace c = false
                | [] => True
                end.
Proof.
  induction s as [|c s [ws [Hw [Hs Hh]]]]; simpl.
  - exists []. repeat split.
  - destruct (isspace c) eqn:E.
    + exists (c :: ws). split; [|split].
      * unfold all_space. simpl. rewrite E. exact Hw.
      * simpl. f_equal. exact Hs.
      * exact Hh.
    + exists []. repeat split. exact E.
Qed.

Lemma lstrip_app_last (s : str) (c : ascii) :
  isspace c = false -> exists u, lstrip (s ++ [c]) = u ++ [c] /\ lstrip s = u.
Proof.
  intros Hc. induction s as [|d s [u [Hu Hs]]]; simpl.
  - rewrite Hc. exists []. split; reflexivity.
  - destruct (isspace d).
    + exists u. split; assumption.
    + exists (d :: s). split; reflexivity.
Qed.

(** *** [strip] *)

Lemma rstrip_spaces (s ws : str) : all_space ws -> rstrip (s ++ ws) = rstrip s.
Proof.
  intros H. unfold rstrip. rewrite rev_app_distr, lstrip_spaces; [reflexivity|].
  unfold all_space in *. rewrite forallb_forall in *.
  intros c Hc. apply H. apply in_rev. exact Hc.
Qed.

Lemma rstrip_last (s : str) (c : ascii) :
  isspace c = false -> rstrip (s ++ [c]) = s ++ [c].
Proof.
  intros Hc. unfold rstrip. rewrite rev_app_distr. simpl. rewrite Hc.
  simpl. rewrite rev_involutive. reflexivity.
Qed.

Lemma strip_trimmed (a t b : str) :
  all_space a -> all_space b -> trimmed t -> strip (a ++ t ++ b) = t.
Proof.
  intros Ha Hb [->|[[c [r [E1 Hc]]] [r' [c' [E2 Hc']]]]]; unfold strip.
  - simpl. rewrite lstrip_all_space by (apply all_space_app; assumption).
    reflexivity.
  - rewrite lstrip_spaces by exact Ha. rewrite E1. simpl. rewrite Hc.
    change (c :: r ++ b) with ((c :: r) ++ b). rewrite rstrip_spaces by exact Hb.
    rewrite <- E1, E2. apply rstrip_last. exact Hc'.
Qed.

Lemma strip_fix (t : str) : trimmed t -> strip t = t.
Proof.
  intros H. rewrite <- (strip_trimmed [] t []) at 2; try reflexivity; try exact H.
  simpl. rewrite app_nil_r. reflexivity.
Qed.

Lemma rstrip_split (s : str) :
  exists ws, all_space ws /\ s = rstrip s ++ ws
             /\ (rstrip s = [] \/ exists r c, rstrip s = r ++ [c] /\ isspace c = false).
Proof.
  unfold rstrip. destruct (lstrip_split (rev s)) as [ws [Hw [Hs Hh]]].
  exists (rev ws). split; [|split].
  - unfold all_space in *. rewrite forallb_forall in *.
    intros c Hc. apply Hw. apply in_rev. exact Hc.
  - rewrite <- rev_app_distr, <- Hs, rev_involutive. reflexivity.
  - destruct (lstrip (rev s)) as [|c r]; [left; reflexivity|].
    right. exists (rev r), c. split; [reflexivity | exact Hh].
Qed.

(** [strip s] is trimmed and [s] is [strip s] between blanks. *)
Lemma strip_split (s : str) :
  exists a b, all_space a /\ all_space b /\ s = a ++ strip s ++ b
              /\ trimmed (strip s).
Proof.
  destruct (lstrip_split s) as [a [Ha [Hs Hh]]].
  destruct (rstrip_split (lstrip s)) as [b [Hb [Ht Hl]]].
  exists a, b. unfold strip. split; [exact Ha|]. split; [exact Hb|].
  split; [rewrite <- Ht; exact Hs|].
  destruct Hl as [Hl|[r [c [Hl Hc]]]]; [left; exact Hl|].
  right. split; [|exists r, c; split; assumption].
  rewrite Ht in Hh. rewrite Hl in *.
  destruct r as [|d r]; simpl in *.
  - exists c, []. split; [reflexivity | exact Hc].
  - exists d, (r ++ [c]). split; [reflexivity | exact Hh].
Qed.

Lemma strip_idem (s : str) : strip (strip s) = strip s.
Proof.
  destruct (strip_split s) as [a [b [_ [_ [_ H]]]]]. apply strip_fix. exact H.
Qed.

Lemma no_space_trimmed (s : str) : no_space s -> trimmed s.
Proof.
  unfold no_space. intros H. destruct s as [|c r]; [left; reflexivity|].
  right. split.
  - exists c, r. split; [reflexivity|]. simpl in H.
    apply andb_true_iff in H. destruct H as [H _]. apply negb_true_iff. exact H.
  - destruct (exists_last (l := c :: r)) as [r' [c' E]]; [discriminate|].
    exists r', c'. split; [exact E|]. rewrite E in H.
    rewrite forallb_app in H. apply andb_true_iff in H. destruct H as [_ H].
    simpl in H. rewrite andb_true_r in H. apply negb_true_iff. exact H.
Qed.

(** *** Character maps that keep blanks *)

Section SpaceMaps.

Variable g : ascii -> ascii.
Hypothesis g_space : forall c, isspace (g c) = isspace c.

Lemma lstrip_map (s : str) : lstrip (map g s) = map g (lstrip s).
Proof.
  induction s as [|c s IH]; simpl; [reflexivity|].
  rewrite g_space. destruct (isspace c); [exact IH | reflexivity].
Qed.

Lemma strip_map (s : str) : strip (map g s) = map g (strip s).
Proof.
  unfold strip, rstrip. rewrite lstrip_map, <- map_rev, lstrip_map, map_rev.
  reflexivity.
Qed.

Lemma split_aux_map (s : str) :
  split_aux (map g s)
  = (map g (fst (split_aux s)), map (map g) (snd (split_aux s))).
Proof.
  induction s as [|c s IH]; simpl; [reflexivity|].
  rewrite IH, g_space. destruct (split_aux s) as [t ts]. simpl.
  destruct (isspace c); simpl; [|reflexivity].
  destruct t; reflexivity.
Qed.

Lemma split_map (s : str) : split (map g s) = map (map g) (split s).
Proof.
  unfold split. rewrite split_aux_map. destruct (split_aux s) as [t ts]. simpl.
  destruct t; reflexivity.
Qed.

End SpaceMaps.

Lemma strip_upper (s : str) : strip (upper s) = upper (strip s).
Proof. apply strip_map. exact isspace_upper_char. Qed.

Lemma split_upper (s : str) : split (upper s) = map upper (split s).
Proof. apply split_map. exact isspace_upper_char. Qed.

Lemma strip_D_to_e (s : str) : strip (D_to_e s) = D_to_e (strip s).
Proof. apply (strip_map _ isspace_D_to_e). Qed.

Lemma split_D_to_e (s : str) : split (D_to_e s) = map D_to_e (split s).
Proof. apply (split_map _ isspace_D_to_e). Qed.

(** *** Tokens *)

Lemma split_aux_spaces (ws : str) : all_space ws -> split_aux ws = ([], []).
Proof.
  unfold all_space. induction ws as [|c ws IH]; simpl; intros H; [reflexivity|].
  apply andb_true_iff in H. destruct H as [Hc Hw]. rewrite (IH Hw), Hc.
  reflexivity.
Qed.

Lemma split_aux_app_spaces (s ws : str) :
  all_space ws -> split_aux (s ++ ws) = split_aux s.
Proof.
  intros H. induction s as [|c s IH]; simpl.
  - apply split_aux_spaces. exact H.
  - rewrite IH. reflexivity.
Qed.

Lemma split_space (c : ascii) (s : str) :
  isspace c = true -> split (c :: s) = split s.
Proof.
  intros Hc. unfold split. simpl. destruct (split_aux s) as [t ts].
  rewrite Hc. reflexivity.
Qed.

Lemma split_spaces (ws s : str) : all_space ws -> split (ws ++ s) = split s.
Proof.
  unfold all_space. induction ws as [|c ws IH]; simpl; intros H; [reflexivity|].
  apply andb_true_iff in H. destruct H as [Hc Hw].
  rewrite split_space by exact Hc. apply IH. exact Hw.
Qed.

Lemma split_app_spaces (s ws : str) : all_space ws -> split (s ++ ws) = split s.
Proof.
  intros H. unfold split. rewrite split_aux_app_spaces by exact H. reflexivity.
Qed.

Lemma split_strip (s : str) : split (strip s) = split s.
Proof.
  destruct (strip_split s) as [a [b [Ha [Hb [Hs _]]]]].
  rewrite Hs at 2. rewrite split_spaces by exact Ha.
  rewrite split_app_spaces by exact Hb. reflexivity.
Qed.

Lemma split_aux_word (tok rest : str) :
  no_space tok -> at_word_end rest ->
  split_aux (tok ++ rest) = (tok, split rest).
Proof.
  unfold no_space. intros Ht Hr. induction tok as [|c tok IH]; simpl.
  - destruct rest as [|d rest]; [reflexivity|]. simpl in Hr.
    unfold split. simpl. destruct (split_aux rest) as [t ts]. rewrite Hr.
    reflexivity.
  - simpl in Ht. apply andb_true_iff in Ht. destruct Ht as [Hc Ht].
    rewrite (IH Ht). apply negb_true_iff in Hc. rewrite Hc. reflexivity.
Qed.

Lemma split_word (tok rest : str) :
  tok <> [] -> no_space tok -> at_word_end rest ->
  split (tok ++ rest) = tok :: split rest.
Proof.
  intros Hne Ht Hr. unfold split at 1. rewrite split_aux_word by assumption.
  destruct tok; [contradiction | reflexivity].
Qed.

Lemma span_split (p : ascii -> bool) (s : str) :
  s = fst (span p s) ++ snd (span p s)
  /\ forallb p (fst (span p s)) = true
  /\ match snd (span p s) with
     | c :: _ => p c = false
     | [] => True
     end.
Proof.
  induction s as [|c s [IH1 [IH2 IH3]]]; simpl; [repeat split|].
  destruct (p c) eqn:E.
  - destruct (span p s) as [a b]. simpl in *.
    split; [f_equal; exact IH1|]. split; [rewrite E; exact IH2 | exact IH3].
  - simpl. repeat split. exact E.
Qed.

(** The first token of [split] starts [strip s]. *)
Lemma strip_starts_with_token (s : str) :
  match split s with
  | tok :: _ => tok <> [] /\ no_space tok /\ exists r, strip s = tok ++ r
  | [] => strip s = []
  end.
Proof.
  destruct (strip_split s) as [a [b [Ha [Hb [Hs Ht]]]]].
  rewrite <- (split_strip s).
  destruct Ht as [E|[[c [r [E Hc]]] _]]; [rewrite E; reflexivity|].
  pose proof (span_split (fun c => negb (isspace c)) (strip s)) as [S1 [S2 S3]].
  destruct (span (fun c => negb (isspace c)) (strip s)) as [tok rest] eqn:Esp.
  simpl in S1, S2, S3.
  assert (Hne : tok <> []).
  { intros ->. simpl in S1. rewrite <- S1, E in S3. rewrite Hc in S3.
    discriminate. }
  rewrite S1. rewrite split_word.
  - split; [exact Hne|]. split; [exact S2|]. exists rest. reflexivity.
  - exact Hne.
  - exact S2.
  - unfold at_word_end. destruct rest as [|d rest]; [exact I|].
    apply negb_false_iff. exact S3.
Qed.

(** [split(None, 1)] and [split()] start with the same token. *)
Lemma split_1_head (s : str) : hd_error (split_1 s) = hd_error (split s).
Proof.
  unfold split_1. destruct (lstrip_split s) as [ws [Hw [Hs Hh]]].
  assert (Hsp : split s = split (lstrip s)).
  { rewrite Hs at 1. apply split_spaces. exact Hw. }
  rewrite Hsp. clear Hsp Hs.
  destruct (lstrip s) as [|c r] eqn:E; [reflexivity|].
  pose proof (span_split (fun c => negb (isspace c)) (c :: r)) as [S1 [S2 S3]].
  destruct (span (fun c => negb (isspace c)) (c :: r)) as [tok rest] eqn:Esp.
  simpl in S1, S2, S3.
  assert (Hne : tok <> []).
  { intros ->. simpl in S1. rewrite <- S1 in S3. rewrite Hh in S3. discriminate. }
  rewrite S1. rewrite split_word.
  - destruct (lstrip rest); reflexivity.
  - exact Hne.
  - exact S2.
  - unfold at_word_end. destruct rest as [|d rest]; [exact I|].
    apply negb_false_iff. exact S3.
Qed.

(** *** A blank line inside the segment of an element *)

Lemma hd_error_map {A B : Type} (f : A -> B) (l : list A) :
  hd_error (map f l) = option_map f (hd_error l).
Proof. destruct l; reflexivity. Qed.

(** The line that carries the symbol does not end its own segment. *)
Lemma first_token_not_other (symb line : str) :
  first_token_is symb line = true -> other_symbol_line symb line = false.
Proof.
  unfold first_token_is, other_symbol_line. intros H.
  assert (Hd : hd_error (split_1 (upper (strip line))) = Some (upper symb)).
  { rewrite split_1_head, split_upper, split_strip, hd_error_map,
      <- split_1_head.
    destruct (split_1 line) as [|tok toks]; [discriminate|].
    apply str_eqb_eq in H. subst tok. reflexivity. }
  destruct (upper (strip line)) as [|c r]; [reflexivity|].
  destruct (split_1 (c :: r)) as [|tok toks]; [discriminate|].
  injection Hd as ->. rewrite str_eqb_refl. apply andb_false_r.
Qed.

(** A line that does not end the segment is appended to it, unless it is
    blank. *)
Lemma seg_loop_step (symb line : str) (lines seg : list str) :
  other_symbol_line symb line = false ->
  seg_loop symb (line :: lines) seg
  = match upper (strip line) with
    | [] => Raise IndexError
    | dat => seg_loop symb lines (seg ++ [dat])
    end
  \/ seg_loop symb (line :: lines) seg = Raise IndexError.
Proof.
  unfold other_symbol_line. intros H. simpl.
  destruct (upper (strip line)) as [|c r] eqn:E; [left; reflexivity|].
  rewrite py_index_0. cbn [bind].
  destruct (isalpha c); simpl in H.
  - destruct (split_1 (c :: r)) as [|tok toks]; [right; reflexivity|].
    rewrite py_index_0. cbn [bind]. rewrite H. left. reflexivity.
  - left. reflexivity.
Qed.

Lemma strip_blank_upper (line : str) : strip line = [] -> upper (strip line) = [].
Proof. intros ->. reflexivity. Qed.

Lemma seg_loop_blank (symb : str) (mid : list str) (blank : str)
    (post seg : list str) :
  forallb (fun dat => negb (other_symbol_line symb dat)) mid = true ->
  strip blank = [] ->
  seg_loop symb (mid ++ blank :: post) seg = Raise IndexError.
Proof.
  intros Hmid Hb. revert seg.
  induction mid as [|line mid IH]; intros seg.
  - simpl. rewrite Hb. reflexivity.
  - simpl in Hmid. apply andb_true_iff in Hmid. destruct Hmid as [Hl Hm].
    apply negb_true_iff in Hl.
    change ((line :: mid) ++ blank :: post) with (line :: (mid ++ blank :: post)).
    destruct (seg_loop_step symb line (mid ++ blank :: post) seg Hl) as [E|E];
      rewrite E; [|reflexivity].
    destruct (upper (strip line)); [reflexivity|]. apply IH. exact Hm.
Qed.

Section BlankLines.

Variable _std_symbol : str -> str.

(** C9 as the code has it.  A blank line that follows the first line of
    the element, with no line of another symbol in between to end the
    segment, makes [parse_ecp] raise IndexError: the second loop reads the
    first character of the stripped line before it tests for emptiness. *)
Theorem parse_ecp_blank_line (string symb : str) (pre : list str)
    (first : str) (mid : list str) (blank : str) (post : list str) :
  splitlines string = pre ++ first :: mid ++ blank :: post ->
  forallb (fun dat => negb (first_token_is (_std_symbol symb) dat)) pre = true ->
  first_token_is (_std_symbol symb) first = true ->
  forallb (fun dat => negb (other_symbol_line (_std_symbol symb) dat)) mid
  = true ->
  strip blank = [] ->
  parse_ecp _std_symbol string (Some symb) = Raise IndexError.
Proof.
  intros Hl Hpre Hfirst Hmid Hblank. unfold parse_ecp, ecp_segment.
  rewrite Hl, (find_symb_loop_app _ _ _ _ _ Hpre). simpl find_symb_loop.
  rewrite Hfirst.
  replace (length pre + 1 =? length (pre ++ first :: mid ++ blank :: post))%nat
    with false.
  - replace (skipn (length pre) (pre ++ first :: mid ++ blank :: post))
      with ((first :: mid) ++ blank :: post).
    + rewrite seg_loop_blank; [reflexivity| |exact Hblank].
      simpl. rewrite (first_token_not_other _ _ Hfirst). exact Hmid.
    + rewrite skipn_app, Nat.sub_diag, skipn_all. reflexivity.
  - symmetry. apply Nat.eqb_neq. rewrite length_app. simpl.
    rewrite length_app. simpl. lia.
Qed.

End BlankLines.

(** C9 as the specification words it fails: in this text a blank line
    follows the first line of sodium, but the line of potassium before it
    ends the segment, and [parse_ecp] returns the ECP of sodium. *)
Lemma parse_ecp_blank_line_after_segment :
  let string := text [py "Na nelec 10"; py "Na ul"; py "1 0.5 10.0";
                      py "K nelec 18"; py ""; py "K ul"; py "1 0.25 2.0"] in
  nth_error (splitlines string) 4 = Some []
  /\ parse_ecp std_symbol_model string (Some (py "Na"))
     = Return (Some (10,
         [EcpBlock (-1) [[]; [[binary64_of_ratio false 1 2; float_of_Z 10]];
                         []; []]]))
  /\ parse_ecp std_symbol_model string (Some (py "Na")) <> Raise IndexError.
Proof.
  intros string. split; [reflexivity|]. split; [reflexivity|].
  vm_compute. discriminate.
Qed.

Lemma parse_ecp_blank_line_witness :
  let string := text [py "Na nelec 10"; py "Na ul"; py ""; py "1 0.5 10.0";
                      py "K nelec 18"] in
  parse_ecp std_symbol_model string (Some (py "Na")) = Raise IndexError.
Proof.
  intros string.
  apply (parse_ecp_blank_line std_symbol_model string (py "Na") []
           (py "Na nelec 10") [py "Na ul"] (py "")
           [py "1 0.5 10.0"; py "K nelec 18"]); reflexivity.
Defined.

(** *** The text of a number *)

Lemma isdigit_digit_char (n : Z) : isdigit (digit_char (n mod 10)) = true.
Proof.
  assert (H : 0 <= n mod 10 < 10) by (apply Z.mod_pos_bound; lia).
  assert (E : n mod 10 = 0 \/ n mod 10 = 1 \/ n mod 10 = 2 \/ n mod 10 = 3
              \/ n mod 10 = 4 \/ n mod 10 = 5 \/ n mod 10 = 6 \/ n mod 10 = 7
              \/ n mod 10 = 8 \/ n mod 10 = 9) by lia.
  repeat (destruct E as [E|E]; [rewrite E; reflexivity|]).
  rewrite E. reflexivity.
Qed.

Lemma digits_rec_digits (fuel : nat) (n : Z) (acc : str) :
  forallb isdigit acc = true -> forallb isdigit (digits_rec fuel n acc) = true.
Proof.
  revert n acc. induction fuel as [|fuel IH]; intros n acc H; simpl; [exact H|].
  assert (H' : forallb isdigit (digit_char (n mod 10) :: acc) = true)
    by (simpl; rewrite isdigit_digit_char; exact H).
  destruct (n <? 10); [exact H' | apply IH; exact H'].
Qed.

Lemma digits_rec_nonempty (fuel : nat) (n : Z) (acc : str) :
  acc <> [] -> digits_rec fuel n acc <> [].
Proof.
  revert n acc. induction fuel as [|fuel IH]; intros n acc H; simpl; [exact H|].
  destruct (n <? 10); [discriminate | apply IH; discriminate].
Qed.

Lemma digits_of_digits (n : Z) : forallb isdigit (digits_of n) = true.
Proof. apply digits_rec_digits. reflexivity. Qed.

Lemma digits_of_nonempty (n : Z) : digits_of n <> [].
Proof.
  unfold digits_of. simpl. destruct (n <? 10); [discriminate|].
  apply digits_rec_nonempty. discriminate.
Qed.

Lemma forallb_repeat {A : Type} (p : A -> bool) (a : A) (n : nat) :
  p a = true -> forallb p (repeat a n) = true.
Proof. intros H. induction n as [|n IH]; simpl; [reflexivity | rewrite H; exact IH]. Qed.

Lemma rjust_zero_digits (w : nat) (s : str) :
  forallb isdigit s = true -> forallb isdigit (rjust w "0" s) = true.
Proof.
  intros H. unfold rjust. rewrite forallb_app, H, forallb_repeat; reflexivity.
Qed.

(** The text of a finite number: a sign, digits, a point, digits. *)
Lemma format_9f_finite (neg : bool) (m e : Z) :
  exists ip fp,
    format_9f (F_fin neg m e) = (if neg then py "-" else []) ++ ip ++ py "." ++ fp
    /\ ip <> [] /\ forallb isdigit ip = true /\ forallb isdigit fp = true.
Proof.
  unfold format_9f.
  set (n := nine_decimals m e).
  exists (digits_of (n / 10 ^ 9)), (rjust 9 "0" (digits_of (n mod 10 ^ 9))).
  split; [reflexivity|]. split; [apply digits_of_nonempty|].
  split; [apply digits_of_digits|]. apply rjust_zero_digits, digits_of_digits.
Qed.

(** *** Reading the text of a number *)

Lemma span_all (p : ascii -> bool) (a : str) :
  forallb p a = true -> span p a = (a, []).
Proof.
  induction a as [|c a IH]; simpl; intros H; [reflexivity|].
  apply andb_true_iff in H. destruct H as [Hc Ha]. rewrite Hc, (IH Ha).
  reflexivity.
Qed.

Lemma span_until (p : ascii -> bool) (a : str) (c : ascii) (b : str) :
  forallb p a = true -> p c = false -> span p (a ++ c :: b) = (a, c :: b).
Proof.
  intros Ha Hc. induction a as [|d a IH]; simpl.
  - rewrite Hc. reflexivity.
  - simpl in Ha. apply andb_true_iff in Ha. destruct Ha as [Hd Ha].
    rewrite Hd, (IH Ha). reflexivity.
Qed.

Lemma read_decimal_plain (ip fp : str) :
  ip <> [] -> forallb isdigit ip = true -> forallb isdigit fp = true ->
  read_decimal (ip ++ py "." ++ fp)
  = Some (Z_of_digits (ip ++ fp), - Z.of_nat (length fp)).
Proof.
  intros Hne Hi Hf. unfold read_decimal.
  change (py "." ++ fp) with ("."%char :: fp).
  rewrite (span_until isdigit ip "." fp Hi eq_refl).
  change (Ascii.eqb "." ".") with true. cbv iota.
  rewrite (span_all isdigit fp Hf).
  destruct ip; [contradiction | reflexivity].
Qed.

Lemma drop_underscores_none (prev : ascii) (s : str) :
  Ascii.eqb prev "_" = false ->
  forallb (fun c => negb (Ascii.eqb c "_")) s = true ->
  drop_underscores prev s = Some s.
Proof.
  revert prev. induction s as [|c s IH]; intros prev Hp H; simpl.
  - rewrite Hp. reflexivity.
  - simpl in H. apply andb_true_iff in H. destruct H as [Hc Hs].
    apply negb_true_iff in Hc. rewrite Hc, Hp. simpl.
    rewrite (IH c Hc Hs). reflexivity.
Qed.

Lemma plain_char_facts (c : ascii) :
  plain_char c = true ->
  isspace c = false /\ Ascii.eqb c "_" = false /\ upper_char c = c
  /\ (if Ascii.eqb c "D" then "e"%char else c) = c /\ isalpha c = false
  /\ Ascii.eqb c "#" = false /\ is_linebreak c = false.
Proof. revert c. intros c H. revert H. all_chars c; repeat split. Qed.

Lemma isdigit_plain (c : ascii) : isdigit c = true -> plain_char c = true.
Proof. unfold plain_char. intros ->. reflexivity. Qed.

Lemma forallb_impl {A : Type} (p q : A -> bool) (l : list A) :
  (forall a, p a = true -> q a = true) ->
  forallb p l = true -> forallb q l = true.
Proof.
  intros Hpq. induction l as [|a l IH]; simpl; [reflexivity|].
  intros H. apply andb_true_iff in H. destruct H as [Ha Hl].
  rewrite (Hpq a Ha), (IH Hl). reflexivity.
Qed.

Lemma map_fix {A : Type} (f : A -> A) (p : A -> bool) (l : list A) :
  (forall a, p a = true -> f a = a) -> forallb p l = true -> map f l = l.
Proof.
  intros Hf. induction l as [|a l IH]; simpl; [reflexivity|].
  intros H. apply andb_true_iff in H. destruct H as [Ha Hl].
  rewrite (Hf a Ha), (IH Hl). reflexivity.
Qed.

Lemma digit_head_not_word (d : ascii) (r w : str) :
  isdigit d = true -> forallb isalpha w = true -> w <> [] ->
  str_eqb (lower (d :: r)) w = false.
Proof.
  intros Hd Hw Hne. destruct w as [|c w]; [contradiction|]. simpl.
  simpl in Hw. apply andb_true_iff in Hw. destruct Hw as [Hc _].
  replace (Ascii.eqb (lower_char d) c) with false; [reflexivity|].
  symmetry. apply Ascii.eqb_neq. intros E. subst c.
  revert Hd Hc. all_chars d.
Qed.

Lemma take_sign_digit (d : ascii) (r : str) :
  isdigit d = true -> take_sign (d :: r) = (false, d :: r).
Proof. intros H. simpl. revert H. all_chars d. Qed.

(** [float] reads the digits of such a text. *)
Lemma float_of_str_plain (neg : bool) (ip fp : str) :
  ip <> [] -> forallb isdigit ip = true -> forallb isdigit fp = true ->
  float_of_str ((if neg then py "-" else []) ++ ip ++ py "." ++ fp)
  = Return (binary64_of_decimal neg (Z_of_digits (ip ++ fp))
                                (- Z.of_nat (length fp))).
Proof.
  intros Hne Hi Hf.
  assert (Hplain : forallb plain_char
            ((if neg then py "-" else []) ++ ip ++ py "." ++ fp) = true).
  { rewrite !forallb_app. rewrite (forallb_impl _ _ _ isdigit_plain Hi),
      (forallb_impl _ _ _ isdigit_plain Hf). destruct neg; reflexivity. }
  unfold float_of_str.
  rewrite strip_fix.
  2:{ apply no_space_trimmed. unfold no_space. revert Hplain.
      apply forallb_impl. intros c Hc. apply plain_char_facts in Hc.
      destruct Hc as [Hc _]. rewrite Hc. reflexivity. }
  rewrite drop_underscores_none.
  2:{ reflexivity. }
  2:{ revert Hplain. apply forallb_impl. intros c Hc.
      apply plain_char_facts in Hc. destruct Hc as [_ [Hc _]]. rewrite Hc.
      reflexivity. }
  destruct ip as [|d ip]; [contradiction|].
  simpl in Hi. apply andb_true_iff in Hi. destruct Hi as [Hd Hi].
  assert (Hs : take_sign ((if neg then py "-" else []) ++ (d :: ip) ++ py "." ++ fp)
               = (neg, (d :: ip) ++ py "." ++ fp)).
  { destruct neg; [reflexivity|]. apply take_sign_digit. exact Hd. }
  rewrite Hs.
  change ((d :: ip) ++ py "." ++ fp) with (d :: (ip ++ py "." ++ fp)).
  rewrite !digit_head_not_word by (try exact Hd; try reflexivity; discriminate).
  cbn [orb].
  change (d :: (ip ++ py "." ++ fp)) with ((d :: ip) ++ py "." ++ fp).
  rewrite read_decimal_plain; [reflexivity|discriminate| |exact Hf].
  simpl. rewrite Hd. exact Hi.
Qed.

Lemma strip_spaces_l (ws s : str) : all_space ws -> strip (ws ++ s) = strip s.
Proof. intros H. unfold strip. rewrite lstrip_spaces by exact H. reflexivity. Qed.

Lemma all_space_repeat (n : nat) : all_space (repeat " "%char n).
Proof. apply forallb_repeat. reflexivity. Qed.

Lemma float_of_str_rjust (w : nat) (t : str) :
  float_of_str (rjust w " " t) = float_of_str t.
Proof.
  unfold float_of_str, rjust. rewrite strip_spaces_l by apply all_space_repeat.
  reflexivity.
Qed.

(** Every printed number reads back. *)
Lemma reread_spec (x : float) :
  float_of_str (format_15_9f x) = Return (reread x).
Proof.
  unfold reread. destruct x as [|neg|neg m e].
  - reflexivity.
  - destruct neg; reflexivity.
  - unfold format_15_9f. rewrite float_of_str_rjust.
    destruct (format_9f_finite neg m e) as [ip [fp [E [Hne [Hi Hf]]]]].
    rewrite E, float_of_str_plain by assumption. reflexivity.
Qed.

Lemma format_9f_plain (neg : bool) (m e : Z) :
  forallb plain_char (format_9f (F_fin neg m e)) = true.
Proof.
  destruct (format_9f_finite neg m e) as [ip [fp [E [Hne [Hi Hf]]]]].
  rewrite E, !forallb_app, (forallb_impl _ _ _ isdigit_plain Hi),
    (forallb_impl _ _ _ isdigit_plain Hf). destruct neg; reflexivity.
Qed.

(** The token of a printed number, as the second [parse] sees it (in upper
    case, after the replacement of [D]), reads as the printed text does. *)
Lemma token_reread (x : float) :
  float_of_str (D_to_e (upper (format_9f x))) = Return (reread x).
Proof.
  rewrite <- reread_spec. destruct x as [|neg|neg m e].
  - reflexivity.
  - destruct neg; reflexivity.
  - unfold format_15_9f. rewrite float_of_str_rjust.
    pose proof (format_9f_plain neg m e) as Hp.
    unfold upper, D_to_e, replace_char.
    rewrite (map_fix upper_char plain_char), (map_fix _ plain_char);
      try exact Hp; try reflexivity;
      intros c Hc; apply plain_char_facts in Hc; tauto.
Qed.

Lemma plain_number_char (c : ascii) : plain_char c = true -> number_char c = true.
Proof. unfold number_char. intros ->. reflexivity. Qed.

Lemma format_9f_chars (x : float) : forallb number_char (format_9f x) = true.
Proof.
  destruct x as [|neg|neg m e].
  - reflexivity.
  - destruct neg; reflexivity.
  - apply (forallb_impl _ _ _ plain_number_char), format_9f_plain.
Qed.

Lemma format_9f_nonempty (x : float) : format_9f x <> [].
Proof.
  destruct x as [|neg|neg m e].
  - discriminate.
  - destruct neg; discriminate.
  - destruct (format_9f_finite neg m e) as [ip [fp [E [Hne _]]]]. rewrite E.
    destruct neg; [discriminate|]. destruct ip; [contradiction | discriminate].
Qed.

(** A finite number starts with a digit or a sign. *)
Lemma format_9f_head (x : float) :
  is_finite x = true ->
  exists c r, format_9f x = c :: r /\ plain_char c = true.
Proof.
  destruct x as [|neg|neg m e]; try discriminate. intros _.
  pose proof (format_9f_plain neg m e) as Hp.
  pose proof (format_9f_nonempty (F_fin neg m e)) as Hne.
  destruct (format_9f (F_fin neg m e)) as [|c r]; [contradiction|].
  exists c, r. split; [reflexivity|]. simpl in Hp.
  apply andb_true_iff in Hp. tauto.
Qed.

Lemma number_char_facts (c : ascii) :
  number_char c = true ->
  isspace c = false /\ Ascii.eqb c "#" = false /\ is_linebreak c = false.
Proof. intros H. revert H. all_chars c; repeat split. Qed.

Lemma format_9f_no_space (x : float) : no_space (format_9f x).
Proof.
  unfold no_space. apply (forallb_impl number_char); [|apply format_9f_chars].
  intros c Hc. apply number_char_facts in Hc. destruct Hc as [Hc _].
  rewrite Hc. reflexivity.
Qed.

(** *** Lines of a text *)

Lemma splitlines_line (l rest : str) :
  no_linebreak l -> splitlines (l ++ LF :: rest) = l :: splitlines rest.
Proof.
  unfold no_linebreak. induction l as [|c l IH]; intros H.
  - simpl. destruct rest; reflexivity.
  - simpl in H. apply andb_true_iff in H. destruct H as [Hc Hl].
    apply negb_true_iff in Hc. simpl. rewrite Hc, (IH Hl). reflexivity.
Qed.

Lemma splitlines_single (l : str) : plain_line l -> splitlines l = [l].
Proof.
  unfold plain_line, no_linebreak. intros [Hne H].
  induction l as [|c l IH]; [contradiction|].
  simpl in H. apply andb_true_iff in H. destruct H as [Hc Hl].
  apply negb_true_iff in Hc. simpl. rewrite Hc.
  destruct l as [|d l]; [reflexivity|].
  rewrite IH by (discriminate || exact Hl). reflexivity.
Qed.

Lemma splitlines_join (lines : list str) :
  Forall plain_line lines -> splitlines (join [LF] lines) = lines.
Proof.
  induction 1 as [|l lines Hl Hls IH]; [reflexivity|].
  destruct lines as [|l' lines].
  - simpl. apply splitlines_single. exact Hl.
  - change (join [LF] (l :: l' :: lines)) with (l ++ LF :: join [LF] (l' :: lines)).
    rewrite splitlines_line by apply Hl. rewrite IH. reflexivity.
Qed.

Lemma split_char_absent (sep : ascii) (s : str) :
  forallb (fun c => negb (Ascii.eqb c sep)) s = true -> split_char sep s = [s].
Proof.
  induction s as [|c s IH]; simpl; intros H; [reflexivity|].
  apply andb_true_iff in H. destruct H as [Hc Hs].
  apply negb_true_iff in Hc. rewrite Hc, (IH Hs). reflexivity.
Qed.

Lemma clean_line_no_hash (s : str) : no_hash s -> clean_line s = upper (strip s).
Proof.
  intros H. unfold clean_line. rewrite split_char_absent by exact H. reflexivity.
Qed.

Lemma clean_line_comment (s : str) : clean_line ("#"%char :: s) = [].
Proof. reflexivity. Qed.

Lemma clean_lines_cons (word x : str) (lines : list str) :
  clean_lines word (x :: lines)
  = if keep_line word (clean_line x)
    then clean_line x :: clean_lines word lines
    else clean_lines word lines.
Proof. reflexivity. Qed.

Lemma clean_lines_app (word : str) (l1 l2 : list str) :
  clean_lines word (l1 ++ l2) = clean_lines word l1 ++ clean_lines word l2.
Proof. unfold clean_lines. rewrite map_app, filter_app. reflexivity. Qed.

(** *** Words *)

Lemma startswith_word (u rest p : str) :
  forallb isalpha p = true ->
  startswith (u ++ " "%char :: rest) p = startswith u p.
Proof.
  revert u. induction p as [|q p IH]; intros u Hp.
  - destruct u; reflexivity.
  - simpl in Hp. apply andb_true_iff in Hp. destruct Hp as [Hq Hp].
    destruct u as [|d u]; cbn [app startswith].
    + replace (Ascii.eqb " " q) with false; [reflexivity|].
      symmetry. apply Ascii.eqb_neq. intros <-. discriminate.
    + rewrite (IH u Hp). reflexivity.
Qed.

Lemma forallb_map {A B : Type} (p : B -> bool) (f : A -> B) (l : list A) :
  forallb p (map f l) = forallb (fun a => p (f a)) l.
Proof. induction l as [|a l IH]; simpl; [reflexivity | rewrite IH; reflexivity]. Qed.

Lemma upper_alpha (s : str) : forallb isalpha s = true -> forallb isalpha (upper s) = true.
Proof.
  unfold upper. rewrite forallb_map. apply forallb_impl.
  intros c Hc. rewrite isalpha_upper_char. exact Hc.
Qed.

Lemma alpha_no_space (s : str) : forallb isalpha s = true -> no_space s.
Proof.
  unfold no_space. apply forallb_impl. intros c Hc.
  rewrite (isalpha_not_space c Hc). reflexivity.
Qed.

(** *** The header line of a shell *)

(** The letters of [SPDF] and [MAPSPDF] are inverse to each other. *)
Lemma SPDF_letter (l : Z) :
  0 <= l < MAXL ->
  exists c, py_index SPDF l = Return [c]
            /\ dict_get MAPSPDF [c] = Return l
            /\ str_eqb [c] (py "SP") = false
            /\ isupper c = true.
Proof.
  unfold MAXL. intros H.
  assert (E : l = 0 \/ l = 1 \/ l = 2 \/ l = 3 \/ l = 4 \/ l = 5 \/ l = 6 \/ l = 7)
    by lia.
  repeat (destruct E as [E|E]; [subst l; eexists; repeat split; reflexivity|]).
  subst l. eexists. repeat split; reflexivity.
Qed.

Lemma isupper_facts (c : ascii) :
  isupper c = true ->
  isalpha c = true /\ upper_char c = c /\ isspace c = false
  /\ Ascii.eqb c "#" = false /\ is_linebreak c = false.
Proof. intros H. revert H. all_chars c; repeat split. Qed.

Lemma isalpha_facts (c : ascii) :
  isalpha c = true ->
  isspace c = false /\ Ascii.eqb c "#" = false /\ is_linebreak c = false.
Proof. intros H. revert H. all_chars c; repeat split. Qed.

Lemma upper_app (a b : str) : upper (a ++ b) = upper a ++ upper b.
Proof. apply map_app. Qed.

Lemma upper_spaces (n : nat) : upper (repeat " "%char n) = repeat " "%char n.
Proof. induction n as [|n IH]; simpl; [reflexivity | f_equal; exact IH]. Qed.

Lemma header_text_chars (symb : str) (c : ascii) (p : ascii -> bool) :
  forallb p symb = true -> p " "%char = true -> p c = true ->
  forallb p (header_text symb c) = true.
Proof.
  intros Hs Hsp Hc. unfold header_text, ljust.
  rewrite !forallb_app, Hs, forallb_repeat by exact Hsp. simpl.
  rewrite Hsp, Hc. reflexivity.
Qed.

Lemma header_text_trimmed (symb : str) (c : ascii) :
  element_word symb -> isupper c = true -> trimmed (header_text symb c).
Proof.
  intros [Hne [Ha _]] Hc. right. split.
  - destruct symb as [|d symb]; [contradiction|].
    exists d. eexists. split; [reflexivity|].
    simpl in Ha. apply andb_true_iff in Ha. destruct Ha as [Hd _].
    apply isalpha_facts in Hd. tauto.
  - exists (ljust 2 " " symb ++ py "    "), c. split.
    + unfold header_text. rewrite <- app_assoc. reflexivity.
    + apply isupper_facts in Hc. tauto.
Qed.

Lemma header_text_clean (symb : str) (c : ascii) :
  element_word symb -> isupper c = true ->
  clean_line (header_text symb c) = header_clean symb c.
Proof.
  intros Hw Hc. rewrite clean_line_no_hash.
  - rewrite strip_fix by (apply header_text_trimmed; assumption).
    unfold header_text, header_clean, ljust.
    rewrite !upper_app, upper_spaces. apply isupper_facts in Hc.
    simpl. destruct Hc as [_ [-> _]]. rewrite <- app_assoc. reflexivity.
  - unfold no_hash. destruct Hw as [_ [Ha _]]. apply header_text_chars.
    + revert Ha. apply forallb_impl. intros d Hd. apply isalpha_facts in Hd.
      destruct Hd as [_ [-> _]]. reflexivity.
    + reflexivity.
    + apply isupper_facts in Hc. destruct Hc as [_ [_ [_ [-> _]]]]. reflexivity.
Qed.

Lemma header_clean_split (symb : str) (c : ascii) :
  element_word symb -> isupper c = true ->
  exists ws, all_space ws
             /\ header_clean symb c = upper symb ++ " "%char :: ws ++ [c].
Proof.
  intros _ _. unfold header_clean. destruct (2 - length symb)%nat as [|n].
  - exists (py "   "). split; reflexivity.
  - exists (repeat " "%char n ++ py "    "). split.
    + apply all_space_app; [apply all_space_repeat | reflexivity].
    + simpl. rewrite <- app_assoc. reflexivity.
Qed.

Lemma header_clean_keep (symb : str) (c : ascii) :
  element_word symb -> isupper c = true ->
  keep_line (py "BASIS") (header_clean symb c) = true.
Proof.
  intros Hw Hc. destruct (header_clean_split symb c Hw Hc) as [ws [_ E]].
  destruct Hw as [Hne [Ha [He Hb]]]. unfold keep_line. rewrite E.
  rewrite !startswith_word by reflexivity. rewrite He, Hb.
  destruct symb; [contradiction | reflexivity].
Qed.

Lemma header_clean_trimmed (symb : str) (c : ascii) :
  element_word symb -> isupper c = true -> trimmed (header_clean symb c).
Proof.
  intros Hw Hc. destruct (header_clean_split symb c Hw Hc) as [ws [_ E]].
  destruct Hw as [Hne [Ha _]]. right. split.
  - destruct symb as [|d symb]; [contradiction|].
    exists (upper_char d). eexists. split; [rewrite E; reflexivity|].
    simpl in Ha. apply andb_true_iff in Ha. destruct Ha as [Hd _].
    rewrite isspace_upper_char. apply isalpha_facts in Hd. tauto.
  - exists (upper symb ++ " "%char :: ws), c. split.
    + rewrite E, <- app_assoc. reflexivity.
    + apply isupper_facts in Hc. tauto.
Qed.

Lemma header_clean_tokens (symb : str) (c : ascii) :
  element_word symb -> isupper c = true ->
  split (header_clean symb c) = [upper symb; [c]].
Proof.
  intros Hw Hc. destruct (header_clean_split symb c Hw Hc) as [ws [Hws E]].
  destruct Hw as [Hne [Ha _]]. rewrite E.
  rewrite split_word.
  - f_equal. rewrite split_space by reflexivity.
    rewrite split_spaces by exact Hws.
    rewrite <- (app_nil_r [c]). rewrite split_word; try reflexivity.
    + discriminate.
    + unfold no_space. simpl. apply isupper_facts in Hc.
      destruct Hc as [_ [_ [-> _]]]. reflexivity.
  - destruct symb; [contradiction | discriminate].
  - apply alpha_no_space, upper_alpha. exact Ha.
  - reflexivity.
Qed.

Lemma header_clean_is_header (symb : str) (c : ascii) :
  element_word symb -> isupper c = true ->
  is_header (header_clean symb c) = true.
Proof.
  intros Hw Hc. unfold is_header, is_skipped, starts_with_letter.
  rewrite strip_fix by (apply header_clean_trimmed; assumption).
  destruct (header_clean_split symb c Hw Hc) as [ws [_ E]]. rewrite E.
  destruct Hw as [Hne [Ha _]]. destruct symb as [|d symb]; [contradiction|].
  simpl in Ha. apply andb_true_iff in Ha. destruct Ha as [Hd _].
  cbn [upper map app is_empty orb]. rewrite isalpha_upper_char, Hd.
  replace (startswith (upper_char d :: map upper_char symb ++ " "%char :: ws ++ [c])
             (py "#")) with false; [reflexivity|].
  symmetry. change (py "#") with ["#"%char]. cbn [startswith].
  replace (Ascii.eqb (upper_char d) "#") with false; [reflexivity|].
  symmetry. rewrite <- isalpha_upper_char in Hd. apply isalpha_facts in Hd. tauto.
Qed.

(** The second [parse] opens the shell of the header line. *)
Lemma _parse_line_header_clean (st : parse_state) (symb : str) (l : Z)
    (c : ascii) :
  element_word symb -> isupper c = true ->
  dict_get MAPSPDF [c] = Return l -> str_eqb [c] (py "SP") = false ->
  _parse_line st (header_clean symb c)
  = Return (ParseState (basis_add st ++ [Shell l []]) (Some [c])).
Proof.
  intros Hw Hc Hl Hsp.
  rewrite _parse_line_header by (apply header_clean_is_header; assumption).
  rewrite strip_fix by (apply header_clean_trimmed; assumption).
  rewrite header_clean_tokens by assumption.
  rewrite (py_index_nat [upper symb; [c]] 1%nat [c] 1 eq_refl eq_refl).
  cbn [bind]. rewrite Hsp, Hl. reflexivity.
Qed.

(** *** The line of a row *)

Lemma format_15_9f_pad (x : float) :
  exists n, format_15_9f x = repeat " "%char n ++ format_9f x.
Proof. unfold format_15_9f, rjust. eauto. Qed.

Lemma row_line_cons (x : float) (row : list float) :
  row_line (x :: row)
  = match row with
    | [] => format_15_9f x
    | _ => format_15_9f x ++ " "%char :: row_line row
    end.
Proof. destruct row; reflexivity. Qed.

Lemma row_line_tokens (row : list float) :
  split (row_line row) = map format_9f row.
Proof.
  induction row as [|x row IH]; [reflexivity|].
  rewrite row_line_cons. destruct (format_15_9f_pad x) as [n E]. rewrite E.
  destruct row as [|y row].
  - rewrite split_spaces by apply all_space_repeat.
    rewrite <- (app_nil_r (format_9f x)) at 1.
    rewrite split_word; [reflexivity|apply format_9f_nonempty|
                         apply format_9f_no_space|exact I].
  - rewrite <- app_assoc. rewrite split_spaces by apply all_space_repeat.
    rewrite split_word; [|apply format_9f_nonempty|apply format_9f_no_space|
                         reflexivity].
    rewrite split_space by reflexivity. rewrite IH. reflexivity.
Qed.

Lemma row_line_chars (p : ascii -> bool) (row : list float) :
  p " "%char = true -> (forall c, number_char c = true -> p c = true) ->
  forallb p (row_line row) = true.
Proof.
  intros Hsp Hp. induction row as [|x row IH]; [reflexivity|].
  assert (Hx : forallb p (format_15_9f x) = true).
  { destruct (format_15_9f_pad x) as [n E]. rewrite E, forallb_app.
    rewrite forallb_repeat by exact Hsp.
    apply (forallb_impl _ _ _ Hp), format_9f_chars. }
  rewrite row_line_cons. destruct row as [|y row]; [exact Hx|].
  rewrite forallb_app, Hx. simpl forallb at 1. cbn [andb].
  change (forallb p (" "%char :: row_line (y :: row)))
    with (p " "%char && forallb p (row_line (y :: row))).
  rewrite Hsp, IH. reflexivity.
Qed.

Lemma row_line_no_hash (row : list float) : no_hash (row_line row).
Proof.
  apply row_line_chars; [reflexivity|]. intros c Hc.
  apply number_char_facts in Hc. destruct Hc as [_ [-> _]]. reflexivity.
Qed.

Lemma row_line_plain (row : list float) : row <> [] -> plain_line (row_line row).
Proof.
  intros Hne. split.
  - intros E. pose proof (row_line_tokens row) as T. rewrite E in T.
    destruct row; [contradiction | discriminate].
  - apply row_line_chars; [reflexivity|]. intros c Hc.
    apply number_char_facts in Hc. destruct Hc as [_ [_ ->]]. reflexivity.
Qed.

Lemma row_clean_fix (row : list float) : strip (row_clean row) = row_clean row.
Proof. unfold row_clean. rewrite strip_upper, strip_idem. reflexivity. Qed.

Lemma row_clean_head (x : float) (row : list float) :
  is_finite x = true ->
  exists c r, row_clean (x :: row) = c :: r /\ plain_char c = true.
Proof.
  intros Hx. unfold row_clean.
  pose proof (strip_starts_with_token (row_line (x :: row))) as H.
  rewrite row_line_tokens in H. cbn [map] in H.
  destruct H as [_ [_ [r E]]]. rewrite E.
  destruct (format_9f_head x Hx) as [c [r' [E' Hc]]]. rewrite E'.
  exists c. eexists. split; [|exact Hc].
  cbn [app upper map]. apply plain_char_facts in Hc.
  destruct Hc as [_ [_ [-> _]]]. reflexivity.
Qed.

Lemma row_clean_keep (x : float) (row : list float) :
  is_finite x = true -> keep_line (py "BASIS") (row_clean (x :: row)) = true.
Proof.
  intros Hx. destruct (row_clean_head x row Hx) as [c [r [E Hc]]]. rewrite E.
  unfold keep_line. cbn [is_empty negb andb]. change (py "END") with ("E"%char :: py "ND").
  change (py "BASIS") with ("B"%char :: py "ASIS"). cbn [startswith].
  revert Hc. clear. all_chars c.
Qed.

Lemma row_clean_is_data (x : float) (row : list float) :
  is_finite x = true -> is_data (row_clean (x :: row)) = true.
Proof.
  intros Hx. unfold is_data, is_skipped, starts_with_letter.
  rewrite row_clean_fix.
  destruct (row_clean_head x row Hx) as [c [r [E Hc]]]. rewrite E.
  change (py "#") with ["#"%char]. cbn [is_empty startswith orb].
  apply plain_char_facts in Hc. destruct Hc as [_ [_ [_ [_ [-> [-> _]]]]]].
  reflexivity.
Qed.

Lemma map_result_map {A B C : Type} (f : B -> result C) (g : A -> B)
    (h : A -> C) (l : list A) :
  (forall a, f (g a) = Return (h a)) ->
  map_result f (map g l) = Return (map h l).
Proof.
  intros H. induction l as [|a l IH]; simpl; [reflexivity|].
  rewrite H, IH. reflexivity.
Qed.

Lemma row_clean_numbers (row : list float) :
  data_numbers (row_clean row) = Return (map reread row).
Proof.
  unfold data_numbers. rewrite row_clean_fix. unfold row_clean.
  rewrite split_D_to_e, split_upper, split_strip, row_line_tokens, !map_map.
  apply map_result_map. exact token_reread.
Qed.

(** The second [parse] appends the numbers of the row, as they read back,
    to the shell that is open. *)
Lemma _parse_line_row_clean (ba : list shell) (b : shell) (k : str)
    (x : float) (row : list float) :
  is_finite x = true -> str_eqb k (py "SP") = false ->
  _parse_line (ParseState (ba ++ [b]) (Some k)) (row_clean (x :: row))
  = Return (ParseState (ba ++ [add_row (map reread (x :: row)) b]) (Some k)).
Proof.
  intros Hx Hk. rewrite _parse_line_data by (apply row_clean_is_data; exact Hx).
  rewrite row_clean_numbers. cbn [bind key read_key basis_add]. rewrite Hk.
  rewrite py_alter_last. reflexivity.
Qed.

(** *** The value that reads back *)

Lemma Z_of_digits_from (ds : str) (acc : Z) :
  fold_left (fun a c => 10 * a + digit_val c) ds acc
  = acc * 10 ^ Z.of_nat (length ds) + Z_of_digits ds.
Proof.
  unfold Z_of_digits. revert acc. induction ds as [|c ds IH]; intros acc.
  - simpl. lia.
  - cbn [fold_left length]. rewrite IH, (IH (10 * 0 + digit_val c)).
    rewrite Nat2Z.inj_succ, Z.pow_succ_r by lia. lia.
Qed.

Lemma Z_of_digits_app (a b : str) :
  Z_of_digits (a ++ b)
  = Z_of_digits a * 10 ^ Z.of_nat (length b) + Z_of_digits b.
Proof.
  unfold Z_of_digits at 1. rewrite fold_left_app.
  fold (Z_of_digits a). apply Z_of_digits_from.
Qed.

Lemma digit_val_digit_char (d : Z) :
  0 <= d < 10 -> digit_val (digit_char d) = d.
Proof.
  intros H.
  assert (E : d = 0 \/ d = 1 \/ d = 2 \/ d = 3 \/ d = 4 \/ d = 5 \/ d = 6
              \/ d = 7 \/ d = 8 \/ d = 9) by lia.
  repeat (destruct E as [E|E]; [subst d; reflexivity|]). subst d. reflexivity.
Qed.

Lemma Z_of_digits_cons (d : Z) (acc : str) :
  0 <= d < 10 ->
  Z_of_digits (digit_char d :: acc)
  = d * 10 ^ Z.of_nat (length acc) + Z_of_digits acc.
Proof.
  intros H. change (digit_char d :: acc) with ([digit_char d] ++ acc).
  rewrite Z_of_digits_app. unfold Z_of_digits at 1. cbn [fold_left].
  rewrite digit_val_digit_char by exact H. lia.
Qed.

Lemma digits_rec_value (fuel : nat) (n : Z) (acc : str) :
  0 <= n < 10 ^ Z.of_nat fuel ->
  Z_of_digits (digits_rec fuel n acc)
  = n * 10 ^ Z.of_nat (length acc) + Z_of_digits acc.
Proof.
  revert n acc. induction fuel as [|fuel IH]; intros n acc H.
  - simpl in *. assert (n = 0) by lia. subst n. lia.
  - cbn [digits_rec]. rewrite Nat2Z.inj_succ, Z.pow_succ_r in H by lia.
    assert (Hd : 0 <= n mod 10 < 10) by (apply Z.mod_pos_bound; lia).
    destruct (Z.ltb_spec n 10) as [Hn|Hn].
    + rewrite Z_of_digits_cons by exact Hd. rewrite Z.mod_small by lia.
      reflexivity.
    + rewrite IH.
      * rewrite Z_of_digits_cons by exact Hd. cbn [length].
        rewrite Nat2Z.inj_succ, Z.pow_succ_r by lia.
        pose proof (Z.div_mod n 10). nia.
      * split; [apply Z.div_pos; lia|]. apply Z.div_lt_upper_bound; lia.
Qed.

Lemma digits_of_value (n : Z) : 0 <= n -> Z_of_digits (digits_of n) = n.
Proof.
  intros H. unfold digits_of. rewrite digits_rec_value.
  - simpl. unfold Z_of_digits. simpl. lia.
  - split; [exact H|]. rewrite Nat2Z.inj_succ, Z2Nat.id by apply Z.log2_nonneg.
    destruct (Z.eq_dec n 0) as [->|Hn]; [reflexivity|].
    apply Z.lt_le_trans with (2 ^ Z.succ (Z.log2 n)).
    + apply Z.log2_spec. lia.
    + apply Z.pow_le_mono_l. lia.
Qed.

Lemma digits_rec_length (fuel : nat) (n : Z) (acc : str) (k : nat) :
  (1 <= k)%nat -> 0 <= n < 10 ^ Z.of_nat k ->
  (length (digits_rec fuel n acc) <= k + length acc)%nat.
Proof.
  revert n acc k. induction fuel as [|fuel IH]; intros n acc k Hk H.
  - simpl. lia.
  - cbn [digits_rec]. destruct (Z.ltb_spec n 10) as [Hn|Hn].
    + simpl. lia.
    + destruct k as [|[|k]]; [lia| simpl in H; lia|].
      specialize (IH (n / 10) (digit_char (n mod 10) :: acc) (S k)).
      cbn [length] in IH. etransitivity; [apply IH|]; try lia.
      rewrite Nat2Z.inj_succ, Z.pow_succ_r in H by lia.
      split; [apply Z.div_pos; lia|]. apply Z.div_lt_upper_bound; lia.
Qed.

Lemma Z_of_digits_zeros (j : nat) (s : str) :
  Z_of_digits (repeat "0"%char j ++ s) = Z_of_digits s.
Proof.
  induction j as [|j IH]; [reflexivity|].
  change (repeat "0"%char (S j) ++ s) with (digit_char 0 :: (repeat "0"%char j ++ s)).
  rewrite Z_of_digits_cons by lia. rewrite IH. lia.
Qed.

(** The digits that [%f] prints spell the number rounded to nine
    decimals. *)
Lemma printed_digits_value (n : Z) :
  0 <= n ->
  Z_of_digits (digits_of (n / 10 ^ 9) ++ rjust 9 "0" (digits_of (n mod 10 ^ 9)))
  = n
  /\ length (rjust 9 "0" (digits_of (n mod 10 ^ 9))) = 9%nat.
Proof.
  intros H.
  assert (Hm : 0 <= n mod 10 ^ 9 < 10 ^ 9) by (apply Z.mod_pos_bound; lia).
  assert (Hl : (length (digits_of (n mod 10 ^ 9)) <= 9)%nat).
  { unfold digits_of.
    pose proof (digits_rec_length (S (Z.to_nat (Z.log2 (n mod 10 ^ 9))))
                  (n mod 10 ^ 9) [] 9) as L.
    simpl length in L. rewrite Nat.add_0_r in L. apply L; [lia|exact Hm]. }
  assert (Hlen : length (rjust 9 "0" (digits_of (n mod 10 ^ 9))) = 9%nat).
  { unfold rjust. rewrite length_app, repeat_length. lia. }
  split; [|exact Hlen].
  rewrite Z_of_digits_app, Hlen. unfold rjust at 1. rewrite Z_of_digits_zeros.
  rewrite !digits_of_value by (try apply Z.div_pos; lia).
  change (Z.of_nat 9) with 9.
  rewrite Z.mul_comm. symmetry. apply Z.div_mod. discriminate.
Qed.

Lemma round_half_even_nonneg (p q : Z) :
  0 <= p -> 0 < q -> 0 <= round_half_even p q.
Proof.
  intros Hp Hq. unfold round_half_even.
  assert (0 <= p / q) by (apply Z.div_pos; lia).
  destruct (2 * (p mod q) <? q); [lia|].
  destruct (q <? 2 * (p mod q)); [lia|].
  destruct (Z.even (p / q)); lia.
Qed.

Lemma nine_decimals_nonneg (m e : Z) : 0 <= m -> 0 <= nine_decimals m e.
Proof.
  intros H. unfold nine_decimals. destruct (Z.leb_spec 0 e) as [He|He].
  - assert (0 <= 2 ^ e) by (apply Z.pow_nonneg; lia). nia.
  - apply round_half_even_nonneg; [lia|]. apply Z.pow_pos_nonneg; lia.
Qed.

(** The number that reads back from the text of a finite number is the
    binary64 number nearest to its value rounded to nine decimals. *)
Lemma reread_finite (neg : bool) (m e : Z) :
  0 <= m ->
  reread (F_fin neg m e)
  = binary64_of_decimal neg (nine_decimals m e) (-9).
Proof.
  intros H. pose proof (nine_decimals_nonneg m e H) as Hn.
  destruct (printed_digits_value _ Hn) as [Ev El].
  unfold reread, format_15_9f. rewrite float_of_str_rjust.
  unfold format_9f. cbv zeta.
  rewrite float_of_str_plain.
  - rewrite Ev, El. reflexivity.
  - apply digits_of_nonempty.
  - apply digits_of_digits.
  - apply rjust_zero_digits, digits_of_digits.
Qed.

Lemma reread_not_finite (x : float) : is_finite x = false -> reread x = x.
Proof. destruct x as [|[]|neg m e]; try discriminate; reflexivity. Qed.

(** *** The lines of a shell, written and read again *)

Lemma spdf_char_spec (l : Z) :
  0 <= l < MAXL ->
  py_index SPDF l = Return [spdf_char l]
  /\ dict_get MAPSPDF [spdf_char l] = Return l
  /\ str_eqb [spdf_char l] (py "SP") = false
  /\ isupper (spdf_char l) = true.
Proof.
  intros H. destruct (SPDF_letter l H) as [c [E1 [E2 [E3 E4]]]].
  unfold spdf_char. rewrite E1. repeat split; assumption.
Qed.

Lemma shell_lines_text (symb : str) (b : shell) :
  0 <= shell_l b < MAXL -> shell_lines symb b = Return (shell_text symb b).
Proof.
  intros H. destruct (spdf_char_spec _ H) as [E _].
  unfold shell_lines, shell_text, header_text. rewrite E. reflexivity.
Qed.

Lemma clean_rows (rows : list (list float)) :
  Forall starts_finite rows ->
  clean_lines (py "BASIS") (map row_line rows) = map row_clean rows.
Proof.
  induction 1 as [|row rows Hrow _ IH]; [reflexivity|].
  cbn [map]. rewrite clean_lines_cons, IH.
  rewrite clean_line_no_hash by apply row_line_no_hash.
  fold (row_clean row). destruct row as [|x row]; [contradiction|].
  rewrite row_clean_keep by exact Hrow. reflexivity.
Qed.

Lemma clean_shell (symb : str) (b : shell) :
  element_word symb -> 0 <= shell_l b < MAXL -> writable b ->
  clean_lines (py "BASIS") (shell_text symb b) = shell_clean symb b.
Proof.
  intros Hw Hl [_ Hrows]. destruct (spdf_char_spec _ Hl) as [_ [_ [_ Hc]]].
  unfold shell_text, shell_clean. rewrite clean_lines_cons.
  rewrite header_text_clean, header_clean_keep by assumption.
  rewrite clean_rows by exact Hrows. reflexivity.
Qed.

Lemma for_each_rows (ba : list shell) (l : Z) (k : str)
    (rows : list (list float)) :
  str_eqb k (py "SP") = false -> Forall starts_finite rows ->
  forall r0 : list (list float),
  for_each _parse_line (map row_clean rows)
           (ParseState (ba ++ [Shell l r0]) (Some k))
  = Return (ParseState (ba ++ [Shell l (r0 ++ map (map reread) rows)])
                       (Some k)).
Proof.
  intros Hk. induction 1 as [|row rows Hrow _ IH]; intros r0.
  - simpl. rewrite app_nil_r. reflexivity.
  - destruct row as [|x row]; [contradiction|].
    cbn [map for_each]. rewrite _parse_line_row_clean by assumption.
    cbn [bind]. unfold add_row. cbn [shell_l shell_rows]. rewrite IH.
    rewrite <- app_assoc. reflexivity.
Qed.

Lemma for_each_shell (symb : str) (b : shell) (st : parse_state) :
  element_word symb -> 0 <= shell_l b < MAXL -> writable b ->
  for_each _parse_line (shell_clean symb b) st
  = Return (ParseState (basis_add st ++ [reread_shell b])
                       (Some [spdf_char (shell_l b)])).
Proof.
  intros Hw Hl [_ Hrows]. destruct (spdf_char_spec _ Hl) as [_ [E2 [E3 E4]]].
  unfold shell_clean. cbn [for_each].
  rewrite (_parse_line_header_clean st symb (shell_l b)) by assumption.
  cbn [bind]. rewrite for_each_rows by assumption. reflexivity.
Qed.

Lemma for_each_shells (symb : str) (basis : Basis) :
  element_word symb ->
  Forall (fun b => 0 <= shell_l b < MAXL) basis -> Forall writable basis ->
  forall st : parse_state,
  exists k, for_each _parse_line (concat (map (shell_clean symb) basis)) st
            = Return (ParseState (basis_add st ++ map reread_shell basis) k).
Proof.
  intros Hw Hl Hr. revert Hr.
  induction Hl as [|b basis Hb _ IH]; intros Hr st.
  - exists (key st). simpl. rewrite app_nil_r. destruct st; reflexivity.
  - inversion Hr as [|b' basis' Hwb Hr']; subst.
    cbn [map concat]. rewrite for_each_app, for_each_shell by assumption.
    cbn [bind]. destruct (IH Hr' (ParseState (basis_add st ++ [reread_shell b])
                                    (Some [spdf_char (shell_l b)]))) as [k E].
    exists k. rewrite E. cbn [basis_add map]. rewrite <- app_assoc. reflexivity.
Qed.

Lemma clean_shells (symb : str) (basis : Basis) :
  element_word symb ->
  Forall (fun b => 0 <= shell_l b < MAXL) basis -> Forall writable basis ->
  clean_lines (py "BASIS") (concat (map (shell_text symb) basis))
  = concat (map (shell_clean symb) basis).
Proof.
  intros Hw Hl Hr. revert Hr.
  induction Hl as [|b basis Hb _ IH]; intros Hr; [reflexivity|].
  inversion Hr as [|b' basis' Hwb Hr']; subst.
  cbn [map concat]. rewrite clean_lines_app, clean_shell, IH by assumption.
  reflexivity.
Qed.

Lemma header_text_plain (symb : str) (c : ascii) :
  element_word symb -> isupper c = true -> plain_line (header_text symb c).
Proof.
  intros [Hne [Ha _]] Hc. split.
  - unfold header_text, ljust. destruct symb; [contradiction | discriminate].
  - apply header_text_chars.
    + revert Ha. apply forallb_impl. intros d Hd. apply isalpha_facts in Hd.
      destruct Hd as [_ [_ ->]]. reflexivity.
    + reflexivity.
    + apply isupper_facts in Hc. destruct Hc as [_ [_ [_ [_ ->]]]]. reflexivity.
Qed.

Lemma starts_finite_nonempty (row : list float) : starts_finite row -> row <> [].
Proof. destruct row; [contradiction | discriminate]. Qed.

Lemma shell_text_plain (symb : str) (b : shell) :
  element_word symb -> 0 <= shell_l b < MAXL -> writable b ->
  Forall plain_line (shell_text symb b).
Proof.
  intros Hw Hl [_ Hrows]. destruct (spdf_char_spec _ Hl) as [_ [_ [_ Hc]]].
  unfold shell_text. constructor; [apply header_text_plain; assumption|].
  apply Forall_map. revert Hrows. apply Forall_impl. intros row Hrow.
  apply row_line_plain, starts_finite_nonempty, Hrow.
Qed.

Lemma shells_text_plain (symb : str) (basis : Basis) :
  element_word symb ->
  Forall (fun b => 0 <= shell_l b < MAXL) basis -> Forall writable basis ->
  Forall plain_line (concat (map (shell_text symb) basis)).
Proof.
  intros Hw Hl Hr. revert Hr.
  induction Hl as [|b basis Hb _ IH]; intros Hr; [constructor|].
  inversion Hr as [|b' basis' Hwb Hr']; subst.
  cbn [map concat]. apply Forall_app. split; [|apply IH; exact Hr'].
  apply shell_text_plain; assumption.
Qed.

Lemma map_result_ext {A B : Type} (f : A -> result B) (g : A -> B)
    (P : A -> Prop) (l : list A) :
  (forall a, P a -> f a = Return (g a)) -> Forall P l ->
  map_result f l = Return (map g l).
Proof.
  intros H. induction 1 as [|a l Ha _ IH]; simpl; [reflexivity|].
  rewrite (H a Ha), IH. reflexivity.
Qed.

(** *** The summary line *)

Lemma no_linebreak_app (a b : str) :
  no_linebreak a -> no_linebreak b -> no_linebreak (a ++ b).
Proof.
  unfold no_linebreak. intros Ha Hb. rewrite forallb_app, Ha, Hb. reflexivity.
Qed.

Lemma no_linebreak_join (sep : str) (l : list str) :
  no_linebreak sep -> Forall no_linebreak l -> no_linebreak (join sep l).
Proof.
  intros Hs. induction 1 as [|a l Ha Hl IH]; [reflexivity|].
  destruct l as [|a' l]; [exact Ha|].
  change (join sep (a :: a' :: l)) with (a ++ sep ++ join sep (a' :: l)).
  repeat apply no_linebreak_app; assumption.
Qed.

Lemma digits_no_linebreak (s : str) : forallb isdigit s = true -> no_linebreak s.
Proof.
  unfold no_linebreak. apply forallb_impl. intros c Hc.
  apply isdigit_plain, plain_char_facts in Hc.
  destruct Hc as [_ [_ [_ [_ [_ [_ ->]]]]]]. reflexivity.
Qed.

Lemma str_of_Z_no_linebreak (n : Z) : no_linebreak (str_of_Z n).
Proof.
  unfold str_of_Z. destruct (n <? 0).
  - apply (no_linebreak_app ["-"%char]); [reflexivity|].
    apply digits_no_linebreak, digits_of_digits.
  - apply digits_no_linebreak, digits_of_digits.
Qed.

Lemma lower_upper_no_linebreak (c : ascii) :
  isupper c = true -> no_linebreak (lower [c]).
Proof. intros H. unfold no_linebreak. simpl. revert H. all_chars c. Qed.

Lemma counts_get_set (d : counts) (l l' : Z) (v : Z * Z) :
  counts_get (counts_set d l v) l'
  = if l =? l' then Some v else counts_get d l'.
Proof.
  induction d as [|[k w] d IH]; simpl.
  - destruct (l =? l'); reflexivity.
  - destruct (Z.eqb_spec k l) as [->|Hkl]; simpl.
    + destruct (l =? l'); reflexivity.
    + rewrite IH. destruct (Z.eqb_spec k l') as [->|Hkl'];
        destruct (Z.eqb_spec l l') as [E|E]; try reflexivity. lia.
Qed.

Lemma add_counts_has (d : counts) (x : Z * (Z * Z)) (l : Z) :
  fst x = l \/ has_counts d l -> has_counts (add_counts d x) l.
Proof.
  destruct x as [k [p c]]. unfold has_counts, add_counts. simpl. intros H.
  destruct (counts_get d k) as [[p0 c0]|]; rewrite counts_get_set;
    destruct (Z.eqb_spec k l) as [E|E]; eauto;
    destruct H as [H|H]; try contradiction; exact H.
Qed.

Lemma fold_add_counts_has (cs : list (Z * (Z * Z))) (d : counts) (l : Z) :
  In l (map fst cs) \/ has_counts d l ->
  has_counts (fold_left add_counts cs d) l.
Proof.
  revert d. induction cs as [|x cs IH]; intros d H; simpl.
  - destruct H as [[]|H]. exact H.
  - apply IH. simpl in H. destruct H as [[H|H]|H].
    + right. apply add_counts_has. left. exact H.
    + left. exact H.
    + right. apply add_counts_has. right. exact H.
Qed.

Lemma set_add_In (x y : Z) (s : list Z) : In y (set_add x s) -> y = x \/ In y s.
Proof.
  induction s as [|z s IH]; simpl.
  - intros [H|[]]. left. symmetry. exact H.
  - destruct (x <? z).
    + simpl. intros [H|H]; [left; symmetry; exact H | right; exact H].
    + destruct (x =? z).
      * simpl. intros H. right. exact H.
      * simpl. intros [H|H]; [right; left; exact H|].
        destruct (IH H) as [E|E]; [left; exact E | right; right; exact E].
Qed.

Lemma set_of_In (ls : list Z) (y : Z) : In y (set_of ls) -> In y ls.
Proof.
  unfold set_of.
  assert (G : forall acc, In y (fold_left (fun s x => set_add x s) ls acc) ->
                          In y ls \/ In y acc).
  { induction ls as [|x ls IH]; intros acc H; simpl in *; [right; exact H|].
    destruct (IH _ H) as [E|E]; [left; right; exact E|].
    apply set_add_In in E. destruct E as [E|E]; [left; left; symmetry; exact E|].
    right. exact E. }
  intros H. destruct (G [] H) as [E|[]]. exact E.
Qed.

Lemma shell_counts_writable (b : shell) :
  writable b -> exists v, shell_counts b = Return (shell_l b, v).
Proof.
  intros [Hne _]. unfold shell_counts.
  destruct (shell_rows b) as [|row rows]; [contradiction|].
  rewrite py_index_0. cbn [bind]. eauto.
Qed.

Lemma map_result_shell_counts (basis : Basis) :
  Forall writable basis ->
  exists cs, map_result shell_counts basis = Return cs
             /\ map fst cs = map shell_l basis.
Proof.
  induction 1 as [|b basis Hb _ [cs [E1 E2]]]; simpl.
  - exists []. split; reflexivity.
  - destruct (shell_counts_writable b Hb) as [v Ev]. rewrite Ev, E1.
    exists ((shell_l b, v) :: cs). split; [reflexivity|]. simpl. rewrite E2.
    reflexivity.
Qed.

Lemma summary_item_ok (d : counts) (pick : Z * Z -> Z) (l : Z) :
  has_counts d l -> 0 <= l < MAXL ->
  exists s, summary_item d pick l = Return s /\ no_linebreak s.
Proof.
  intros [v Hv] Hl. destruct (spdf_char_spec l Hl) as [E [_ [_ Hc]]].
  unfold summary_item. rewrite Hv, E. cbn [bind]. eexists. split; [reflexivity|].
  apply no_linebreak_app; [apply str_of_Z_no_linebreak|].
  apply lower_upper_no_linebreak. exact Hc.
Qed.

Lemma map_result_all {A B : Type} (f : A -> result B) (P : B -> Prop)
    (l : list A) :
  (forall a, In a l -> exists b, f a = Return b /\ P b) ->
  exists bs, map_result f l = Return bs /\ Forall P bs.
Proof.
  induction l as [|a l IH]; intros H; simpl.
  - exists []. split; [reflexivity | constructor].
  - destruct (H a (or_introl eq_refl)) as [b [Eb Pb]].
    destruct IH as [bs [Ebs Pbs]]; [intros a' Ha'; apply H; right; exact Ha'|].
    rewrite Eb, Ebs. exists (b :: bs). split; [reflexivity|].
    constructor; assumption.
Qed.

(** The summary line is a comment on one line. *)
Lemma summary_line_ok (basis : Basis) :
  Forall (fun b => 0 <= shell_l b < MAXL) basis -> Forall writable basis ->
  exists rest, summary_line basis = Return ("#"%char :: rest)
               /\ no_linebreak ("#"%char :: rest).
Proof.
  intros Hl Hw. unfold summary_line.
  destruct (map_result_shell_counts basis Hw) as [cs [E1 E2]]. rewrite E1.
  cbn [bind].
  assert (Hitem : forall pick l, In l (set_of (map shell_l basis)) ->
            exists s, summary_item (fold_left add_counts cs []) pick l = Return s
                      /\ no_linebreak s).
  { intros pick l Hin. apply set_of_In in Hin. apply summary_item_ok.
    - apply fold_add_counts_has. left. rewrite E2. exact Hin.
    - apply in_map_iff in Hin. destruct Hin as [b [<- Hb]].
      rewrite Forall_forall in Hl. apply Hl. exact Hb. }
  destruct (map_result_all _ no_linebreak _ (Hitem fst)) as [ps [Ep Hp]].
  destruct (map_result_all _ no_linebreak _ (Hitem snd)) as [qs [Eq Hq]].
  rewrite Ep, Eq. cbn [bind]. eexists. split; [reflexivity|].
  change ("#"%char :: _) with
    (py "#BASIS SET: (" ++ join (py ",") ps ++ py ") -> ["
       ++ join (py ",") qs ++ py "]").
  repeat apply no_linebreak_app; try reflexivity;
    apply no_linebreak_join; try reflexivity; assumption.
Qed.

(** *** A sorted list is its own grouping *)

Lemma sorted_head_min (ks : list Z) (k : Z) :
  StronglySorted Z.le (k :: ks) -> Forall (fun y => k <= y) ks.
Proof. intros H. inversion H; assumption. Qed.

Section Sorted.

Variable A : Type.
Variable k : A -> Z.

Lemma has_key_l_refl (x : A) : has_key_l k (k x) x = true.
Proof. unfold has_key_l. apply Z.eqb_refl. Qed.

Lemma key_lower_bound (zs : list A) (z : A) (m : Z) :
  Forall (fun v => m <= v) (map k zs) -> In z zs -> m <= k z.
Proof.
  intros Hm Hz. rewrite Forall_forall in Hm. apply Hm. apply in_map. exact Hz.
Qed.

(** The head of a sorted list is the first element of its key in any
    list with the same groups. *)
Lemma sorted_head_le (x : A) (xs : list A) (y : A) (ys : list A) :
  Forall (fun v => k y <= v) (map k ys) ->
  filter (has_key_l k (k x)) (x :: xs) = filter (has_key_l k (k x)) (y :: ys) ->
  k y <= k x.
Proof.
  intros My Hk. cbn [filter] in Hk. rewrite has_key_l_refl in Hk.
  assert (Hi : In x (filter (has_key_l k (k x)) (y :: ys)))
    by (cbn [filter]; rewrite <- Hk; left; reflexivity).
  apply filter_In in Hi. destruct Hi as [[->|Hi] _]; [lia|].
  apply (key_lower_bound ys x (k y) My Hi).
Qed.

(** Two lists in ascending order of key, with the same elements of each
    key in the same order, are equal. *)
Lemma sorted_groups_eq (xs ys : list A) :
  StronglySorted Z.le (map k xs) -> StronglySorted Z.le (map k ys) ->
  (forall l, filter (has_key_l k l) xs = filter (has_key_l k l) ys) ->
  xs = ys.
Proof.
  revert ys. induction xs as [|x xs IH]; intros ys Hx Hy H.
  - destruct ys as [|y ys]; [reflexivity|].
    specialize (H (k y)). cbn [filter] in H. rewrite has_key_l_refl in H.
    discriminate.
  - destruct ys as [|y ys].
    + specialize (H (k x)). cbn [filter] in H. rewrite has_key_l_refl in H.
      discriminate.
    + cbn [map] in Hx, Hy.
      pose proof (sorted_head_min _ _ Hx) as Mx.
      pose proof (sorted_head_min _ _ Hy) as My.
      assert (Exy : k x = k y).
      { pose proof (sorted_head_le x xs y ys My (H (k x))).
        pose proof (sorted_head_le y ys x xs Mx (eq_sym (H (k y)))). lia. }
      assert (E : x = y).
      { pose proof (H (k x)) as Hk. cbn [filter] in Hk.
        rewrite has_key_l_refl in Hk. rewrite Exy in Hk at 2.
        rewrite has_key_l_refl in Hk. injection Hk as Hk _. exact Hk. }
      subst y. f_equal. apply IH.
      * inversion Hx; assumption.
      * inversion Hy; assumption.
      * intros l. specialize (H l). cbn [filter] in H.
        destruct (has_key_l k l x); [injection H as H|]; exact H.
Qed.

Lemma group_by_range_sorted_id (a b : Z) (xs : list A) :
  StronglySorted Z.le (map k xs) -> Forall (fun x => a <= k x < b) xs ->
  group_by_range k a b xs = xs.
Proof.
  intros Hs Hr. apply sorted_groups_eq.
  - apply group_by_range_sorted.
  - exact Hs.
  - intros l. rewrite group_by_range_stable.
    destruct ((a <=? l) && (l <? b)) eqn:E; [reflexivity|]. symmetry.
    induction Hr as [|x xs Hx Hr IH]; simpl; [reflexivity|].
    unfold has_key_l at 1. destruct (Z.eqb_spec (k x) l) as [El|El].
    + exfalso. apply andb_false_iff in E.
      destruct E as [E|E]; [apply Z.leb_gt in E | apply Z.ltb_ge in E]; lia.
    + apply IH. inversion Hs; assumption.
Qed.

End Sorted.

(** *** Writing a parsed basis and reading it again *)

Lemma Forall2_map_r {A B : Type} (R : A -> B -> Prop) (f : A -> B)
    (l : list A) :
  (forall a, R a (f a)) -> Forall2 R l (map f l).
Proof. intros H. induction l as [|a l IH]; simpl; constructor; auto. Qed.

Lemma reread_shell_same (b : shell) : same_up_to_format b (reread_shell b).
Proof.
  split; [reflexivity|]. cbn [reread_shell shell_rows].
  apply Forall2_map_r. intros row. apply Forall2_map_r. exact reread_spec.
Qed.

Lemma reread_shell_l (basis : Basis) :
  map shell_l (map reread_shell basis) = map shell_l basis.
Proof. rewrite map_map. reflexivity. Qed.

(** What [_parse] returns is in ascending order of [l], within the table. *)
Lemma _parse_sorted (lines : list str) (basis : Basis) :
  _parse lines = Return basis ->
  StronglySorted Z.le (map shell_l basis)
  /\ Forall (fun b => 0 <= shell_l b < MAXL) basis.
Proof.
  unfold _parse. intros H. bind_inv H. injection H as <-.
  split; [apply group_by_range_sorted|].
  apply Forall_forall. intros b Hb. apply group_by_range_In in Hb. tauto.
Qed.

Section RoundTrip.

Variable _std_symbol : str -> str.

(** The text that [convert_basis_to_nwchem] writes for a sorted basis of
    writable shells, and what [parse] reads from it. *)
Lemma convert_then_parse (symb : str) (basis : Basis) :
  element_word (_std_symbol symb) ->
  StronglySorted Z.le (map shell_l basis) ->
  Forall (fun b => 0 <= shell_l b < MAXL) basis ->
  Forall writable basis ->
  exists s, convert_basis_to_nwchem _std_symbol symb basis = Return s
            /\ parse _std_symbol s None = Return (map reread_shell basis).
Proof.
  intros Hw Hs Hl Hr.
  destruct (summary_line_ok basis Hl Hr) as [rest [E1 N1]].
  unfold convert_basis_to_nwchem. rewrite E1. cbn [bind].
  rewrite (map_result_ext _ (shell_text (_std_symbol symb)) _ basis
             (shell_lines_text (_std_symbol symb)) Hl).
  cbn [bind]. eexists. split; [reflexivity|].
  unfold parse, basis_segment. cbn [bind].
  rewrite splitlines_join.
  2:{ constructor; [split; [discriminate | exact N1]|].
      apply shells_text_plain; assumption. }
  rewrite clean_lines_cons, clean_line_comment. cbn [keep_line is_empty negb andb].
  rewrite clean_shells by assumption.
  unfold _parse, _parse_loop.
  destruct (for_each_shells (_std_symbol symb) basis Hw Hl Hr (ParseState [] None))
    as [k E].
  rewrite E. cbn [bind basis_add app]. f_equal.
  apply group_by_range_sorted_id.
  - rewrite reread_shell_l. exact Hs.
  - apply Forall_map. exact Hl.
Qed.

(** C1 as the code has it.  When [parse] returns a basis for the symbol,
    the canonical symbol is a word of letters, every shell has a row and
    every row starts with a finite number, then
    [convert_basis_to_nwchem] writes a text that [parse] reads as the same
    shells in the same ascending order, with every number replaced by the
    one that reads back from its nine-decimal text. *)
Theorem basis_round_trip (string symb : str) (basis : Basis) :
  parse _std_symbol string (Some symb) = Return basis ->
  element_word (_std_symbol symb) ->
  Forall writable basis ->
  exists (s : str) (basis' : Basis),
    convert_basis_to_nwchem _std_symbol symb basis = Return s
    /\ parse _std_symbol s None = Return basis'
    /\ Forall2 same_up_to_format basis basis'
    /\ StronglySorted Z.le (map shell_l basis').
Proof.
  intros Hp Hw Hr. unfold parse in Hp. bind_inv Hp.
  destruct (_parse_sorted _ _ Hp) as [Hs Hl].
  destruct (convert_then_parse symb basis Hw Hs Hl Hr) as [s [E1 E2]].
  exists s, (map reread_shell basis). split; [exact E1|]. split; [exact E2|].
  split.
  - apply Forall2_map_r. exact reread_shell_same.
  - rewrite reread_shell_l. exact Hs.
Qed.

End RoundTrip.

(** C1 as the specification words it fails twice.  A header without data
    lines parses to a shell without rows, which
    [convert_basis_to_nwchem] cannot write; and an infinite exponent is
    written as [inf], which the second [parse] takes for a header. *)
Lemma basis_round_trip_fails :
  (parse std_symbol_model (text [py "# BASIS SET"; py "Na S"]) (Some (py "Na"))
   = Return [Shell 0 []]
   /\ convert_basis_to_nwchem std_symbol_model (py "Na") [Shell 0 []]
      = Raise IndexError)
  /\ (parse std_symbol_model (text [py "# BASIS SET"; py "Na S"; py "+inf 1"])
            (Some (py "Na"))
      = Return [Shell 0 [[F_inf false; float_of_Z 1]]]
      /\ (s <- convert_basis_to_nwchem std_symbol_model (py "Na")
                 [Shell 0 [[F_inf false; float_of_Z 1]]] ;;
          parse std_symbol_model s None)
         = Raise (KeyError (py "1.000000000"))).
Proof. repeat split; reflexivity. Qed.

Lemma basis_round_trip_witness :
  let string := text [py "# BASIS SET"; py "Na P"; py "2.5 -0.25";
                      py "Na S"; py "130.70 0.15433"; py "23.81 0.53533"] in
  let basis :=
    [Shell 0 [[binary64_of_decimal false 13070 (-2);
               binary64_of_decimal false 15433 (-5)];
              [binary64_of_decimal false 2381 (-2);
               binary64_of_decimal false 53533 (-5)]];
     Shell 1 [[binary64_of_ratio false 5 2; binary64_of_ratio true 1 4]]] in
  parse std_symbol_model string (Some (py "Na")) = Return basis
  /\ element_word (std_symbol_model (py "Na"))
  /\ Forall writable basis
  /\ exists (s : str) (basis' : Basis),
       convert_basis_to_nwchem std_symbol_model (py "Na") basis = Return s
       /\ parse std_symbol_model s None = Return basis'
       /\ Forall2 same_up_to_format basis basis'
       /\ StronglySorted Z.le (map shell_l basis').
Proof.
  intros string basis.
  assert (Hp : parse std_symbol_model string (Some (py "Na")) = Return basis)
    by reflexivity.
  assert (Hw : element_word (std_symbol_model (py "Na")))
    by (repeat split; discriminate).
  assert (Hr : Forall writable basis).
  { repeat constructor; discriminate. }
  split; [exact Hp|]. split; [exact Hw|]. split; [exact Hr|].
  exact (basis_round_trip std_symbol_model string (py "Na") basis Hp Hw Hr).
Defined.

(** *** Errors of the header and data lines of a basis *)

Lemma py_index_raise {A : Type} (l : list A) (i : Z) (e : exn) :
  py_index l i = Raise e -> e = IndexError.
Proof.
  unfold py_index. destruct (py_norm_index i (length l)) as [n|].
  - destruct (nth_error l n); intros H; [discriminate | injection H as <-; reflexivity].
  - intros H. injection H as <-. reflexivity.
Qed.

Lemma py_alter_raise {A : Type} (f : A -> A) (l : list A) (i : Z) (e : exn) :
  py_alter f l i = Raise e -> e = IndexError.
Proof.
  unfold py_alter. destruct (py_norm_index i (length l)); intros H;
    [discriminate | injection H as <-; reflexivity].
Qed.

Lemma py_index_beyond {A : Type} (l : list A) (n : nat) :
  nth_error l n = None -> py_index l (Z.of_nat n) = Raise IndexError.
Proof.
  intros H. apply nth_error_None in H. unfold py_index, py_norm_index.
  destruct (Z.ltb_spec (Z.of_nat n) (Z.of_nat (length l))) as [Hlt|_]; [lia|].
  rewrite andb_false_r.
  destruct (Z.ltb_spec (Z.of_nat n) 0) as [Hlt|_]; [lia|]. reflexivity.
Qed.

Lemma dict_get_missing {V : Type} (d : list (str * V)) (k : str) :
  forallb (fun kv => negb (str_eqb (fst kv) k)) d = true ->
  dict_get d k = Raise (KeyError k).
Proof.
  induction d as [|[k' v] d IH]; simpl; intros H; [reflexivity|].
  apply andb_true_iff in H. destruct H as [Hk Hd].
  apply negb_true_iff in Hk. rewrite Hk. apply IH. exact Hd.
Qed.

(** The result of [_parse] on lines of which the first ones are read
    without error. *)
Lemma _parse_after (pre : list str) (line : str) (rest : list str)
    (st : parse_state) :
  _parse_loop pre = Return st ->
  _parse (pre ++ line :: rest)
  = (st' <- (st1 <- _parse_line st line ;; for_each _parse_line rest st1) ;;
     Return (bsort_shells (basis_add st'))).
Proof.
  intros H. unfold _parse, _parse_loop in *. rewrite for_each_app, H.
  reflexivity.
Qed.

Section BasisErrors.

Variable _std_symbol : str -> str.

(** A header line whose shell type is neither [SP] nor a key of
    [MAPSPDF] makes [parse] raise the KeyError of that type. *)
Theorem parse_unknown_shell_type (string : str) (symb : option str)
    (seg : str) (pre : list str) (hdr : str) (rest : list str)
    (st : parse_state) (k : str) :
  basis_segment _std_symbol string symb = Return seg ->
  clean_lines (py "BASIS") (splitlines seg) = pre ++ hdr :: rest ->
  _parse_loop pre = Return st ->
  is_header hdr = true ->
  header_key hdr = Some k ->
  str_eqb k (py "SP") = false ->
  forallb (fun kv => negb (str_eqb (fst kv) k)) MAPSPDF = true ->
  parse _std_symbol string symb = Raise (KeyError k).
Proof.
  intros Hseg Hl Hpre Hh Hk Hsp Hm. unfold parse. rewrite Hseg. cbn [bind].
  rewrite Hl, (_parse_after _ _ _ _ Hpre), _parse_line_header by exact Hh.
  unfold header_key in Hk.
  rewrite (py_index_nat _ 1%nat k 1 eq_refl Hk). cbn [bind].
  rewrite Hsp, (dict_get_missing _ _ Hm). reflexivity.
Qed.

(** A header line of one token, without shell type, makes [parse] raise
    IndexError. *)
Theorem parse_header_without_type (string : str) (symb : option str)
    (seg : str) (pre : list str) (hdr : str) (rest : list str)
    (st : parse_state) :
  basis_segment _std_symbol string symb = Return seg ->
  clean_lines (py "BASIS") (splitlines seg) = pre ++ hdr :: rest ->
  _parse_loop pre = Return st ->
  is_header hdr = true ->
  header_key hdr = None ->
  parse _std_symbol string symb = Raise IndexError.
Proof.
  intros Hseg Hl Hpre Hh Hk. unfold parse. rewrite Hseg. cbn [bind].
  rewrite Hl, (_parse_after _ _ _ _ Hpre), _parse_line_header by exact Hh.
  unfold header_key in Hk.
  change 1 with (Z.of_nat 1). rewrite (py_index_beyond _ _ Hk). reflexivity.
Qed.

(** Under an [SP] header, a data line of fewer than three numbers makes
    [parse] raise IndexError. *)
Theorem parse_SP_short_line (string : str) (symb : option str)
    (seg : str) (pre : list str) (line : str) (rest : list str)
    (st : parse_state) (xs : list float) :
  basis_segment _std_symbol string symb = Return seg ->
  clean_lines (py "BASIS") (splitlines seg) = pre ++ line :: rest ->
  _parse_loop pre = Return st ->
  key st = Some (py "SP") ->
  is_data line = true ->
  data_numbers line = Return xs ->
  (length xs < 3)%nat ->
  parse _std_symbol string symb = Raise IndexError.
Proof.
  intros Hseg Hl Hpre Hkey Hd Hx Hlen. unfold parse. rewrite Hseg. cbn [bind].
  rewrite Hl, (_parse_after _ _ _ _ Hpre), _parse_line_data by exact Hd.
  rewrite Hx, Hkey. cbn [bind read_key]. rewrite str_eqb_refl.
  assert (H2 : py_index xs 2 = Raise IndexError).
  { change 2 with (Z.of_nat 2). apply py_index_beyond.
    apply nth_error_None. lia. }
  repeat match goal with
         | |- context [bind (py_index ?l ?i) _] =>
             lazymatch i with
             | 2 => rewrite H2; reflexivity
             | _ => let E := fresh "E" in
                    destruct (py_index l i) as [?|?] eqn:E;
                    [cbn [bind] | apply py_index_raise in E; subst; reflexivity]
             end
         | |- context [bind (py_alter ?f ?l ?i) _] =>
             let E := fresh "E" in
             destruct (py_alter f l i) as [?|?] eqn:E;
             [cbn [bind] | apply py_alter_raise in E; subst; reflexivity]
         end.
Qed.

End BasisErrors.

Lemma parse_unknown_shell_type_witness :
  let string := text [py "O S"; py "1.0 2.0"; py "O X"; py "3.0 4.0"] in
  parse std_symbol_model string None = Raise (KeyError (py "X")).
Proof.
  intros string.
  apply (parse_unknown_shell_type std_symbol_model string None string
           [py "O S"; py "1.0 2.0"] (py "O X") [py "3.0 4.0"]
           (ParseState [Shell 0 [[float_of_Z 1; float_of_Z 2]]] (Some (py "S")))
           (py "X")); reflexivity.
Defined.

Lemma parse_header_without_type_witness :
  let string := text [py "O S"; py "1.0 2.0"; py "O"; py "3.0 4.0"] in
  parse std_symbol_model string None = Raise IndexError.
Proof.
  intros string.
  apply (parse_header_without_type std_symbol_model string None string
           [py "O S"; py "1.0 2.0"] (py "O") [py "3.0 4.0"]
           (ParseState [Shell 0 [[float_of_Z 1; float_of_Z 2]]] (Some (py "S"))));
    reflexivity.
Defined.

Lemma parse_SP_short_line_witness :
  let string := text [py "O SP"; py "1.0 2.0 3.0"; py "4.0 5.0"] in
  parse std_symbol_model string None = Raise IndexError.
Proof.
  intros string.
  apply (parse_SP_short_line std_symbol_model string None string
           [py "O SP"; py "1.0 2.0 3.0"] (py "4.0 5.0") []
           (ParseState [Shell 0 [[float_of_Z 1; float_of_Z 2]];
                        Shell 1 [[float_of_Z 1; float_of_Z 3]]] (Some (py "SP")))
           [float_of_Z 4; float_of_Z 5]); try reflexivity.
  simpl. lia.
Defined.

(** *** Rows are never empty *)

Lemma is_data_tokens (line : str) :
  is_data line = true -> split (D_to_e (strip line)) <> [].
Proof.
  unfold is_data, is_skipped. intros H. apply andb_true_iff in H.
  destruct H as [H _]. apply negb_true_iff in H. apply orb_false_iff in H.
  destruct H as [H _]. rewrite split_D_to_e, split_strip.
  pose proof (strip_starts_with_token line) as T.
  destruct (split line) as [|tok toks]; [|discriminate].
  rewrite T in H. discriminate.
Qed.

Lemma map_result_length {A B : Type} (f : A -> result B) (l : list A)
    (bs : list B) :
  map_result f l = Return bs -> length bs = length l.
Proof.
  revert bs. induction l as [|a l IH]; intros bs H; simpl in H.
  - injection H as <-. reflexivity.
  - do 2 bind_inv H. injection H as <-. simpl. f_equal. apply IH. exact Ha0.
Qed.

Lemma data_numbers_nonempty (line : str) (xs : list float) :
  is_data line = true -> data_numbers line = Return xs -> xs <> [].
Proof.
  intros Hd Hx. apply is_data_tokens in Hd. unfold data_numbers in Hx.
  apply map_result_length in Hx. intros ->.
  destruct (split (D_to_e (strip line))); [contradiction | discriminate].
Qed.

Lemma add_row_nonempty (row : list float) (b : shell) :
  row <> [] -> rows_nonempty b -> rows_nonempty (add_row row b).
Proof.
  unfold rows_nonempty, add_row. cbn [shell_rows]. intros Hr Hb.
  apply Forall_app. split; [exact Hb|]. constructor; [exact Hr | constructor].
Qed.

Lemma _parse_line_rows (st : parse_state) (line : str) (st' : parse_state) :
  Forall rows_nonempty (basis_add st) -> _parse_line st line = Return st' ->
  Forall rows_nonempty (basis_add st').
Proof.
  intros Hst H. destruct (line_class line) as [C|[C|C]].
  - rewrite _parse_line_skipped in H by exact C. injection H as <-. exact Hst.
  - rewrite _parse_line_header in H by exact C. bind_inv H.
    destruct (str_eqb a (py "SP")).
    + injection H as <-. cbn [basis_add]. apply Forall_app. split; [exact Hst|].
      repeat constructor.
    + bind_inv H. injection H as <-. cbn [basis_add]. apply Forall_app.
      split; [exact Hst|]. repeat constructor.
  - rewrite _parse_line_data in H by exact C. bind_inv H.
    pose proof (data_numbers_nonempty _ _ C Ha) as Hne. bind_inv H.
    destruct (str_eqb a0 (py "SP")).
    + do 8 bind_inv H. injection H as <-. cbn [basis_add]. alter_inv.
      apply alter_nth_Forall; [intros b; apply add_row_nonempty; discriminate|].
      apply alter_nth_Forall; [intros b; apply add_row_nonempty; discriminate|].
      exact Hst.
    + bind_inv H. injection H as <-. cbn [basis_add]. alter_inv.
      apply alter_nth_Forall; [intros b; apply add_row_nonempty; exact Hne|].
      exact Hst.
Qed.

Section BasisRows.

Variable _std_symbol : str -> str.

(** Every row of every shell that [parse] returns holds at least one
    number. *)
Theorem parse_rows_nonempty (string : str) (symb : option str) (bs : Basis) :
  parse _std_symbol string symb = Return bs ->
  Forall (fun b => Forall (fun row => row <> []) (shell_rows b)) bs.
Proof.
  unfold parse, _parse, _parse_loop. intros H. do 2 bind_inv H.
  injection H as <-.
  assert (Hst : Forall rows_nonempty (basis_add a0)).
  { revert Ha0. apply for_each_invariant
      with (P := fun st => Forall rows_nonempty (basis_add st)).
    - intros s l s'. apply _parse_line_rows.
    - constructor. }
  apply Forall_forall. intros b Hb. apply group_by_range_In in Hb.
  rewrite Forall_forall in Hst. apply Hst. tauto.
Qed.

End BasisRows.

Lemma parse_rows_nonempty_witness :
  let string := text [py "O SP"; py "1.0 2.0 3.0"; py "O S"; py "4.0"] in
  let bs := [Shell 0 [[float_of_Z 1; float_of_Z 2]]; Shell 0 [[float_of_Z 4]];
             Shell 1 [[float_of_Z 1; float_of_Z 3]]] in
  parse std_symbol_model string None = Return bs
  /\ Forall (fun b => Forall (fun row => row <> []) (shell_rows b)) bs.
Proof.
  intros string bs. split; [reflexivity|].
  apply (parse_rows_nonempty std_symbol_model string None bs). reflexivity.
Defined.

(** *** The reference [by_ang] and the four power slots *)

Lemma alter_nth_last {A : Type} (f : A -> A) (l : list A) (a : A) :
  alter_nth f (length l) (l ++ [a]) = l ++ [f a].
Proof.
  rewrite <- (Nat.add_0_r (length l)). rewrite alter_nth_app_r. reflexivity.
Qed.

Lemma nth_error_last {A : Type} (l : list A) (a : A) :
  nth_error (l ++ [a]) (length l) = Some a.
Proof.
  rewrite <- (Nat.add_0_r (length l)). rewrite nth_error_app_r. reflexivity.
Qed.

Lemma _parse_ecp_line_wf (st : ecp_state) (line : str) (st' : ecp_state) :
  ecp_wf st -> _parse_ecp_line st line = Return st' -> ecp_wf st'.
Proof.
  intros [H4 Hr] H. destruct (line_class line) as [C|[C|C]].
  - rewrite _parse_ecp_line_skipped in H by exact C. injection H as <-.
    split; assumption.
  - rewrite _parse_ecp_line_header in H by exact C. bind_inv H.
    destruct (str_eqb a (py "NELEC")).
    + do 2 bind_inv H. injection H as <-. split; assumption.
    + bind_inv H. injection H as <-. cbn [ecp_add by_ang]. split.
      * apply Forall_app. split; [exact H4|].
        constructor; [reflexivity | constructor].
      * right. exists (ecp_add st). eexists. split; reflexivity.
  - rewrite _parse_ecp_line_data in H by exact C. cbv zeta in H.
    do 7 bind_inv H. injection H as <-. cbn [ecp_add by_ang].
    destruct Hr as [[E1 E2]|[ba [b [E1 E2]]]].
    + rewrite E2 in Ha1. discriminate.
    + rewrite E2 in Ha1. injection Ha1 as <-. rewrite E1 in *.
      unfold deref_by_ang in Ha2. rewrite nth_error_last in Ha2.
      injection Ha2 as <-. rewrite alter_nth_last. split.
      * apply Forall_app in H4. destruct H4 as [H4 Hb].
        apply Forall_app. split; [exact H4|]. constructor; [|constructor].
        cbn [set_by_ang ecp_by_ang]. apply py_alter_length in Ha5.
        inversion Hb; subst. congruence.
      * right. exists ba. eexists. split; [reflexivity | exact E2].
Qed.

Lemma _parse_ecp_loop_wf (lines : list str) (st : ecp_state) :
  _parse_ecp_loop lines = Return st -> ecp_wf st.
Proof.
  unfold _parse_ecp_loop. apply for_each_invariant with (P := ecp_wf).
  - intros s a s'. apply _parse_ecp_line_wf.
  - split; [constructor|]. left. split; reflexivity.
Qed.

(** The result of [_parse_ecp] on lines of which the first ones are read
    without error, when the next one raises. *)
Lemma _parse_ecp_raises_after (pre : list str) (line : str) (rest : list str)
    (st : ecp_state) (e : exn) :
  _parse_ecp_loop pre = Return st -> _parse_ecp_line st line = Raise e ->
  _parse_ecp (pre ++ line :: rest) = Raise e.
Proof.
  intros H He. unfold _parse_ecp, _parse_ecp_loop in *.
  rewrite for_each_app, H. cbn [bind for_each]. rewrite He. reflexivity.
Qed.

Section EcpLines.

Variable _std_symbol : str -> str.

(** Every block that [parse_ecp] returns has exactly four power slots. *)
Theorem parse_ecp_four_slots (string : str) (symb : option str) (n : Z)
    (blocks : list ecp_block) :
  parse_ecp _std_symbol string symb = Return (Some (n, blocks)) ->
  Forall (fun b => length (ecp_by_ang b) = 4%nat) blocks.
Proof.
  unfold parse_ecp, _parse_ecp. intros H. do 2 bind_inv H.
  destruct (nelec a0); [|discriminate]. injection H as <- <-.
  destruct (_parse_ecp_loop_wf _ _ Ha0) as [H4 _].
  apply Forall_forall. intros b Hb. apply group_by_range_In in Hb.
  rewrite Forall_forall in H4. apply H4. tauto.
Qed.

(** A data line read while no block is open, with an integer as first
    token, makes [parse_ecp] raise UnboundLocalError: [by_ang] is not
    bound yet. *)
Theorem parse_ecp_data_before_block (string : str) (symb : option str)
    (seg pre : list str) (line : str) (rest : list str) (st : ecp_state)
    (tok : str) (toks : list str) (p : Z) :
  ecp_segment _std_symbol string symb = Return seg ->
  clean_lines (py "ECP") seg = pre ++ line :: rest ->
  _parse_ecp_loop pre = Return st ->
  ecp_add st = [] ->
  is_data line = true ->
  split (D_to_e (strip line)) = tok :: toks ->
  int_of_str tok = Return p ->
  parse_ecp _std_symbol string symb = Raise UnboundLocalError.
Proof.
  intros Hseg Hl Hpre Hnil Hd Ht Hp. unfold parse_ecp. rewrite Hseg. cbn [bind].
  rewrite Hl. apply (_parse_ecp_raises_after _ _ _ _ _ Hpre).
  rewrite _parse_ecp_line_data by exact Hd. cbv zeta. rewrite Ht, py_index_0.
  cbn [bind]. rewrite Hp. cbn [bind].
  destruct (_parse_ecp_loop_wf _ _ Hpre) as [_ [[_ E]|[ba [b [E _]]]]].
  - rewrite E. reflexivity.
  - rewrite Hnil in E. destruct ba; discriminate.
Qed.

(** A data line whose power is below -4 or above 3 makes [parse_ecp]
    raise IndexError when a block is open, whatever follows the power on
    the line. *)
Theorem parse_ecp_power_out_of_range (string : str) (symb : option str)
    (seg pre : list str) (line : str) (rest : list str) (st : ecp_state)
    (tok : str) (toks : list str) (p : Z) :
  ecp_segment _std_symbol string symb = Return seg ->
  clean_lines (py "ECP") seg = pre ++ line :: rest ->
  _parse_ecp_loop pre = Return st ->
  ecp_add st <> [] ->
  is_data line = true ->
  split (D_to_e (strip line)) = tok :: toks ->
  int_of_str tok = Return p ->
  p < -4 \/ 4 <= p ->
  parse_ecp _std_symbol string symb = Raise IndexError.
Proof.
  intros Hseg Hl Hpre Hne Hd Ht Hp Hrange. unfold parse_ecp. rewrite Hseg.
  cbn [bind]. rewrite Hl. apply (_parse_ecp_raises_after _ _ _ _ _ Hpre).
  rewrite _parse_ecp_line_data by exact Hd. cbv zeta. rewrite Ht, py_index_0.
  cbn [bind]. rewrite Hp. cbn [bind].
  destruct (_parse_ecp_loop_wf _ _ Hpre) as [H4 [[E _]|[ba [b [E1 E2]]]]];
    [contradiction|].
  rewrite E2. cbn [read_by_ang bind]. unfold deref_by_ang.
  rewrite E1, nth_error_last. cbn [bind].
  rewrite E1 in H4. apply Forall_app in H4. destruct H4 as [_ Hb].
  inversion Hb as [|b' l' Hb4 _]; subst.
  unfold py_index, py_norm_index. rewrite Hb4.
  destruct (Z.leb_spec 0 p), (Z.ltb_spec p (Z.of_nat 4)), (Z.ltb_spec p 0),
    (Z.leb_spec 0 (p + Z.of_nat 4)); simpl; try reflexivity; lia.
Qed.

(** A data line appends its numbers to the slot of its power in the block
    opened last; a negative power counts the slots from the last one. *)
Theorem parse_ecp_power_slot (pre : list str) (line : str) (st : ecp_state)
    (ba : list ecp_block) (b : ecp_block) (tok : str) (toks : list str)
    (p : Z) (row : list float) :
  _parse_ecp_loop pre = Return st ->
  ecp_add st = ba ++ [b] ->
  is_data line = true ->
  split (D_to_e (strip line)) = tok :: toks ->
  int_of_str tok = Return p ->
  -4 <= p < 4 ->
  map_result float_of_str toks = Return row ->
  _parse_ecp_loop (pre ++ [line])
  = Return (EcpState
              (ba ++ [EcpBlock (ecp_l b)
                               (alter_nth (fun slot => slot ++ [row])
                                          (Z.to_nat (p mod 4)) (ecp_by_ang b))])
              (nelec st) (by_ang st)).
Proof.
  intros Hpre Hea Hd Ht Hp Hrange Hrow. unfold _parse_ecp_loop in *.
  rewrite for_each_app, Hpre. cbn [bind for_each].
  rewrite _parse_ecp_line_data by exact Hd. cbv zeta. rewrite Ht, py_index_0.
  cbn [bind skipn]. rewrite Hp. cbn [bind].
  destruct (_parse_ecp_loop_wf _ _ Hpre) as [H4 [[E _]|[ba' [b' [E1 E2]]]]].
  - rewrite Hea in E. destruct ba; discriminate.
  - rewrite Hea in E1. apply app_inj_tail in E1. destruct E1 as [<- <-].
    rewrite E2. cbn [read_by_ang bind]. unfold deref_by_ang.
    rewrite Hea, nth_error_last. cbn [bind].
    rewrite Hea in H4. apply Forall_app in H4. destruct H4 as [_ Hb].
    inversion Hb as [|b' l' Hb4 _]; subst.
    assert (Hn : py_norm_index p (length (ecp_by_ang b))
                 = Some (Z.to_nat (p mod 4))).
    { unfold py_norm_index. rewrite Hb4. change (Z.of_nat 4) with 4.
      destruct (Z.leb_spec 0 p) as [H0|H0].
      - replace (p <? 4) with true by (symmetry; apply Z.ltb_lt; lia).
        cbn [andb]. rewrite Z.mod_small by lia. reflexivity.
      - cbn [andb].
        replace (p <? 0) with true by (symmetry; apply Z.ltb_lt; lia).
        replace (0 <=? p + 4) with true by (symmetry; apply Z.leb_le; lia).
        cbn [andb]. f_equal. f_equal. symmetry.
        rewrite <- (Z_mod_plus_full p 1 4). apply Z.mod_small. lia. }
    assert (Hi : exists slot, py_index (ecp_by_ang b) p = Return slot).
    { unfold py_index. rewrite Hn.
      destruct (nth_error (ecp_by_ang b) (Z.to_nat (p mod 4))) eqn:En; [eauto|].
      apply nth_error_None in En. rewrite Hb4 in En.
      assert (0 <= p mod 4 < 4) by (apply Z.mod_pos_bound; lia). lia. }
    destruct Hi as [slot Hi]. rewrite Hi. cbn [bind]. rewrite Hrow. cbn [bind].
    unfold py_alter. rewrite Hn. cbn [bind]. rewrite alter_nth_last.
    reflexivity.
Qed.

End EcpLines.

Lemma parse_ecp_four_slots_witness :
  let string := text [py "NA NELEC 10"; py "NA UL"; py "1 0.5 10.0"; py "NA S"] in
  let blocks :=
    [EcpBlock (-1) [[]; [[binary64_of_ratio false 1 2; float_of_Z 10]]; []; []];
     EcpBlock 0 [[]; []; []; []]] in
  parse_ecp std_symbol_model string None = Return (Some (10, blocks))
  /\ Forall (fun b => length (ecp_by_ang b) = 4%nat) blocks.
Proof.
  intros string blocks. split; [reflexivity|].
  apply (parse_ecp_four_slots std_symbol_model string None 10 blocks).
  reflexivity.
Defined.

Lemma parse_ecp_data_before_block_witness :
  let string := text [py "NA NELEC 10"; py "1 0.5 10.0"; py "NA UL"] in
  parse_ecp std_symbol_model string None = Raise UnboundLocalError.
Proof.
  intros string.
  apply (parse_ecp_data_before_block std_symbol_model string None
           [py "NA NELEC 10"; py "1 0.5 10.0"; py "NA UL"]
           [py "NA NELEC 10"] (py "1 0.5 10.0") [py "NA UL"]
           (EcpState [] (Some 10) None) (py "1") [py "0.5"; py "10.0"] 1);
    reflexivity.
Defined.

Lemma parse_ecp_power_out_of_range_witness :
  let string := text [py "NA NELEC 10"; py "NA UL"; py "4 0.5 10.0"] in
  parse_ecp std_symbol_model string None = Raise IndexError.
Proof.
  intros string.
  apply (parse_ecp_power_out_of_range std_symbol_model string None
           [py "NA NELEC 10"; py "NA UL"; py "4 0.5 10.0"]
           [py "NA NELEC 10"; py "NA UL"] (py "4 0.5 10.0") []
           (EcpState [EcpBlock (-1) empty_by_ang] (Some 10) (Some 0%nat))
           (py "4") [py "0.5"; py "10.0"] 4); try reflexivity.
  - discriminate.
  - right. lia.
Defined.

Lemma parse_ecp_power_slot_witness :
  _parse_ecp_loop ([py "NA NELEC 10"; py "NA UL"] ++ [py "-1 0.5 10.0"])
  = Return (EcpState
              ([] ++ [EcpBlock (-1)
                        [[]; []; [];
                         [[binary64_of_ratio false 1 2; float_of_Z 10]]]])
              (Some 10) (Some 0%nat)).
Proof.
  apply (parse_ecp_power_slot [py "NA NELEC 10"; py "NA UL"] (py "-1 0.5 10.0")
           (EcpState [EcpBlock (-1) empty_by_ang] (Some 10) (Some 0%nat))
           [] (EcpBlock (-1) empty_by_ang) (py "-1") [py "0.5"; py "10.0"] (-1)
           [binary64_of_ratio false 1 2; float_of_Z 10]); try reflexivity.
  lia.
Defined.

(** *** The line of the electron count *)

(** Decomposes two results that start with the same step. *)
Ltac same_step :=
  match goal with
  | |- result_map _ (bind ?m _) = result_map _ (bind ?m _) =>
      destruct m; cbn [bind]; [|reflexivity]
  end.

Lemma _parse_ecp_line_blocks (st1 st2 : ecp_state) (line : str) :
  blocks_part st1 = blocks_part st2 ->
  result_map blocks_part (_parse_ecp_line st1 line)
  = result_map blocks_part (_parse_ecp_line st2 line).
Proof.
  destruct st1 as [ea n1 r], st2 as [ea2 n2 r2]. unfold blocks_part at 1 2.
  cbn [ecp_add by_ang]. intros H. injection H as <- <-.
  destruct (line_class line) as [C|[C|C]].
  - rewrite !_parse_ecp_line_skipped by exact C. reflexivity.
  - rewrite !_parse_ecp_line_header by exact C. cbn [ecp_add nelec by_ang].
    same_step. destruct (str_eqb a (py "NELEC")).
    + do 2 same_step. reflexivity.
    + same_step. reflexivity.
  - rewrite !_parse_ecp_line_data by exact C. cbv zeta.
    cbn [ecp_add nelec by_ang]. do 7 same_step. reflexivity.
Qed.

Lemma for_each_ecp_blocks (lines : list str) (st1 st2 : ecp_state) :
  blocks_part st1 = blocks_part st2 ->
  result_map blocks_part (for_each _parse_ecp_line lines st1)
  = result_map blocks_part (for_each _parse_ecp_line lines st2).
Proof.
  revert st1 st2. induction lines as [|line lines IH]; intros st1 st2 H.
  - simpl. rewrite H. reflexivity.
  - cbn [for_each]. pose proof (_parse_ecp_line_blocks st1 st2 line H) as S.
    destruct (_parse_ecp_line st1 line) as [s1|e1],
             (_parse_ecp_line st2 line) as [s2|e2]; cbn [bind result_map] in *;
      try discriminate.
    + apply IH. congruence.
    + congruence.
Qed.

Lemma result_map_blocks_add (r1 r2 : result ecp_state) :
  result_map blocks_part r1 = result_map blocks_part r2 ->
  result_map ecp_add r1 = result_map ecp_add r2.
Proof.
  destruct r1 as [s1|e1], r2 as [s2|e2]; cbn [result_map bind]; intros H;
    try discriminate.
  - unfold blocks_part in H. congruence.
  - congruence.
Qed.

(** A [NELEC] line sets the electron count and nothing else: the blocks
    are the same as without the line, wherever it stands (the block open
    before it stays open), and the count is that of the last such line. *)
Theorem nelec_line_anywhere (pre : list str) (line : str) (post : list str)
    (tok : str) (n : Z) :
  has_key (py "NELEC") line = true ->
  nth_error (split (strip line)) 2 = Some tok ->
  int_of_str tok = Return n ->
  result_map ecp_add (_parse_ecp_loop (pre ++ line :: post))
  = result_map ecp_add (_parse_ecp_loop (pre ++ post))
  /\ (forallb (fun x => negb (has_key (py "NELEC") x)) post = true ->
      forall st, _parse_ecp_loop (pre ++ line :: post) = Return st ->
                 nelec st = Some n).
Proof.
  intros Hk Ht Hn.
  assert (Hstep : forall st, _parse_ecp_line st line
                  = Return (EcpState (ecp_add st) (Some n) (by_ang st))).
  { intros st. unfold has_key, header_key in Hk. apply andb_true_iff in Hk.
    destruct Hk as [Hh Hk]. rewrite _parse_ecp_line_header by exact Hh.
    destruct (nth_error (split (strip line)) 1) as [k|] eqn:E; [|discriminate].
    rewrite (py_index_nat _ 1%nat k 1 eq_refl E). cbn [bind]. rewrite Hk.
    rewrite (py_index_nat _ 2%nat tok 2 eq_refl Ht). cbn [bind]. rewrite Hn.
    reflexivity. }
  unfold _parse_ecp_loop. split.
  - apply result_map_blocks_add. rewrite !for_each_app.
    destruct (for_each _parse_ecp_line pre (EcpState [] None None)) as [st|e];
      [|reflexivity].
    cbn [bind for_each]. rewrite Hstep. cbn [bind].
    apply for_each_ecp_blocks. reflexivity.
  - intros Hpost st H. rewrite for_each_app in H. bind_inv H.
    cbn [for_each] in H. rewrite Hstep in H. cbn [bind] in H.
    rewrite (for_each_ecp_nelec _ _ _ Hpost H). reflexivity.
Qed.

Lemma nelec_line_anywhere_witness :
  let pre := [py "NA UL"; py "1 0.5 10.0"] in
  let post := [py "2 1.5 3.0"; py "NA S"] in
  result_map ecp_add (_parse_ecp_loop (pre ++ py "NA NELEC 10" :: post))
  = result_map ecp_add (_parse_ecp_loop (pre ++ post))
  /\ (forallb (fun x => negb (has_key (py "NELEC") x)) post = true ->
      forall st, _parse_ecp_loop (pre ++ py "NA NELEC 10" :: post) = Return st ->
                 nelec st = Some 10).
Proof.
  intros pre post.
  apply (nelec_line_anywhere pre (py "NA NELEC 10") post (py "10") 10);
    reflexivity.
Defined.

(** *** An element that the ECP text does not hold *)

Section EcpAbsent.

Variable _std_symbol : str -> str.

(** When the text has lines and none of them starts with the symbol,
    [parse_ecp] raises the KeyError "ECP not found". *)
Theorem parse_ecp_symbol_absent (string symb : str) :
  splitlines string <> [] ->
  forallb (fun dat => negb (first_token_is (_std_symbol symb) dat))
          (splitlines string) = true ->
  parse_ecp _std_symbol string (Some symb)
  = Raise (KeyError (py "ECP not found for " ++ _std_symbol symb)).
Proof.
  intros Hne Hall. unfold parse_ecp, ecp_segment.
  pose proof (find_symb_loop_app (_std_symbol symb) (splitlines string) []
                0 None Hall) as F.
  rewrite app_nil_r in F. rewrite F. cbn [find_symb_loop].
  destruct (splitlines string) as [|l ls]; [contradiction|].
  replace (0 + length (l :: ls) - 1 + 1 =? length (l :: ls))%nat with true;
    [reflexivity|].
  symmetry. apply Nat.eqb_eq. simpl. lia.
Qed.

End EcpAbsent.

Lemma parse_ecp_symbol_absent_witness :
  parse_ecp std_symbol_model
            (text [py "K nelec 18"; py "K ul"; py "1 0.25 2.0"]) (Some (py "Na"))
  = Raise (KeyError (py "ECP not found for Na")).
Proof.
  apply (parse_ecp_symbol_absent std_symbol_model
           (text [py "K nelec 18"; py "K ul"; py "1 0.25 2.0"]) (py "Na")).
  - discriminate.
  - reflexivity.
Defined.

(** *** Letter case *)

Section LineMaps.

Variable g : ascii -> ascii.
Hypothesis g_linebreak : forall c, is_linebreak (g c) = is_linebreak c.
Hypothesis g_CR : forall c, Ascii.eqb (g c) CR = Ascii.eqb c CR.
Hypothesis g_LF : forall c, Ascii.eqb (g c) LF = Ascii.eqb c LF.

Lemma splitlines_map_bounded (n : nat) (s : str) :
  (length s <= n)%nat -> splitlines (map g s) = map (map g) (splitlines s).
Proof.
  revert s. induction n as [|n IH]; intros s Hn.
  - destruct s; [reflexivity | simpl in Hn; lia].
  - destruct s as [|c s]; [reflexivity|]. simpl in Hn.
    cbn [map splitlines]. rewrite g_linebreak.
    destruct (is_linebreak c).
    + destruct s as [|d s]; [reflexivity|]. cbn [map]. rewrite g_CR, g_LF.
      simpl in Hn. destruct (Ascii.eqb c CR && Ascii.eqb d LF).
      * rewrite IH by lia. reflexivity.
      * rewrite <- (IH (d :: s)) by (simpl; lia). reflexivity.
    + rewrite IH by lia. destruct (splitlines s); reflexivity.
Qed.

Lemma splitlines_map (s : str) :
  splitlines (map g s) = map (map g) (splitlines s).
Proof. apply (splitlines_map_bounded (length s)). lia. Qed.

End LineMaps.

Lemma upper_char_facts (c : ascii) :
  is_linebreak (upper_char c) = is_linebreak c
  /\ Ascii.eqb (upper_char c) CR = Ascii.eqb c CR
  /\ Ascii.eqb (upper_char c) LF = Ascii.eqb c LF
  /\ Ascii.eqb (upper_char c) "#" = Ascii.eqb c "#".
Proof. all_chars c. Qed.

Lemma splitlines_upper (s : str) :
  splitlines (upper s) = map upper (splitlines s).
Proof. apply splitlines_map; intros c; apply upper_char_facts. Qed.

Lemma split_char_map (g : ascii -> ascii) (sep : ascii) (s : str) :
  (forall c, Ascii.eqb (g c) sep = Ascii.eqb c sep) ->
  split_char sep (map g s) = map (map g) (split_char sep s).
Proof.
  intros Hg. induction s as [|c s IH]; [reflexivity|].
  cbn [map split_char]. rewrite Hg, IH.
  destruct (Ascii.eqb c sep); [reflexivity|].
  destruct (split_char sep s); reflexivity.
Qed.

Lemma upper_idem (s : str) : upper (upper s) = upper s.
Proof.
  unfold upper. rewrite map_map. apply map_ext. exact upper_char_idem.
Qed.

Lemma clean_line_upper (s : str) : clean_line (upper s) = clean_line s.
Proof.
  unfold clean_line, upper at 1.
  rewrite split_char_map by (intros c; apply upper_char_facts).
  destruct (split_char "#" s) as [|x xs]; [reflexivity|].
  cbn [map]. fold (upper x). rewrite strip_upper. apply upper_idem.
Qed.

Lemma clean_lines_upper (word : str) (lines : list str) :
  clean_lines word (map upper lines) = clean_lines word lines.
Proof.
  unfold clean_lines. rewrite map_map. f_equal. apply map_ext.
  exact clean_line_upper.
Qed.

Section LetterCase.

Variable _std_symbol : str -> str.

(** Without an element symbol, [parse] and [parse_ecp] read a text as
    they read its upper-case form: letter case does not matter. *)
Theorem parse_ignores_case (string : str) :
  parse _std_symbol (upper string) None = parse _std_symbol string None
  /\ parse_ecp _std_symbol (upper string) None
     = parse_ecp _std_symbol string None.
Proof.
  unfold parse, parse_ecp, basis_segment, ecp_segment. cbn [bind].
  rewrite splitlines_upper, !clean_lines_upper. split; reflexivity.
Qed.

End LetterCase.

(** *** Fortran exponents *)

Lemma e_lower_facts (c : ascii) :
  isspace (e_lower c) = isspace c
  /\ isdigit (e_lower c) = isdigit c
  /\ Ascii.eqb (e_lower c) "_" = Ascii.eqb c "_"
  /\ Ascii.eqb (e_lower c) "-" = Ascii.eqb c "-"
  /\ Ascii.eqb (e_lower c) "+" = Ascii.eqb c "+"
  /\ Ascii.eqb (e_lower c) "." = Ascii.eqb c "."
  /\ lower_char (e_lower c) = lower_char c
  /\ (Ascii.eqb (e_lower c) "e" || Ascii.eqb (e_lower c) "E")
     = (Ascii.eqb c "e" || Ascii.eqb c "E")
  /\ (isdigit c = true -> e_lower c = c).
Proof. all_chars c; repeat split; auto; discriminate. Qed.

Lemma drop_underscores_e (prev : ascii) (s : str) :
  drop_underscores (e_lower prev) (map e_lower s)
  = option_map (map e_lower) (drop_underscores prev s).
Proof.
  revert prev. induction s as [|c s IH]; intros prev; cbn [map drop_underscores].
  - destruct (e_lower_facts prev) as [_ [_ [-> _]]].
    destruct (Ascii.eqb prev "_"); reflexivity.
  - destruct (e_lower_facts c) as [_ [Hd [Hu _]]].
    destruct (e_lower_facts prev) as [_ [Hdp [Hup _]]].
    rewrite Hu, Hd, Hdp, Hup, IH.
    destruct (Ascii.eqb c "_"); [destruct (isdigit prev); reflexivity|].
    destruct (Ascii.eqb prev "_" && negb (isdigit c)); [reflexivity|].
    destruct (drop_underscores c s); reflexivity.
Qed.

Lemma take_sign_e (s : str) :
  take_sign (map e_lower s)
  = (fst (take_sign s), map e_lower (snd (take_sign s))).
Proof.
  destruct s as [|c s]; [reflexivity|]. cbn [map take_sign].
  destruct (e_lower_facts c) as [_ [_ [_ [-> [-> _]]]]].
  destruct (Ascii.eqb c "-"); [reflexivity|].
  destruct (Ascii.eqb c "+"); reflexivity.
Qed.

Lemma span_digits_e (s : str) :
  span isdigit (map e_lower s)
  = (fst (span isdigit s), map e_lower (snd (span isdigit s))).
Proof.
  induction s as [|c s IH]; [reflexivity|]. cbn [map span].
  destruct (e_lower_facts c) as [_ [Hd [_ [_ [_ [_ [_ [_ Hfix]]]]]]]].
  rewrite Hd. destruct (isdigit c) eqn:E; [|reflexivity].
  rewrite IH, (Hfix eq_refl). destruct (span isdigit s). reflexivity.
Qed.

Lemma digits_e (s : str) : forallb isdigit s = true -> map e_lower s = s.
Proof.
  apply map_fix. intros c Hc. apply e_lower_facts. exact Hc.
Qed.

Lemma forallb_digits_e (s : str) :
  forallb isdigit (map e_lower s) = forallb isdigit s.
Proof.
  rewrite forallb_map. induction s as [|c s IH]; [reflexivity|]. simpl.
  destruct (e_lower_facts c) as [_ [-> _]]. rewrite IH. reflexivity.
Qed.

Lemma is_empty_map (g : ascii -> ascii) (s : str) :
  is_empty (map g s) = is_empty s.
Proof. destruct s; reflexivity. Qed.

Lemma read_exponent_e (n k : Z) (r : str) :
  (let (eneg, r4) := take_sign (map e_lower r) in
   if negb (is_empty r4) && forallb isdigit r4
   then Some (n, (if eneg then - Z_of_digits r4 else Z_of_digits r4) + k)
   else None)
  = (let (eneg, r4) := take_sign r in
     if negb (is_empty r4) && forallb isdigit r4
     then Some (n, (if eneg then - Z_of_digits r4 else Z_of_digits r4) + k)
     else None).
Proof.
  rewrite take_sign_e. destruct (take_sign r) as [eneg r4]. cbn [fst snd].
  rewrite (is_empty_map e_lower), forallb_digits_e.
  destruct (forallb isdigit r4) eqn:E.
  - rewrite (digits_e _ E). reflexivity.
  - rewrite andb_false_r. reflexivity.
Qed.

Lemma read_decimal_e (s : str) : read_decimal (map e_lower s) = read_decimal s.
Proof.
  unfold read_decimal. rewrite span_digits_e.
  pose proof (span_split isdigit s) as [_ [Hip _]].
  destruct (span isdigit s) as [ip r1]. cbn [fst snd] in *. cbv beta iota.
  destruct r1 as [|c r]; cbn [map].
  - destruct (is_empty ip && is_empty []); reflexivity.
  - destruct (e_lower_facts c) as [_ [_ [_ [_ [_ [Hdot [_ [Hexp _]]]]]]]].
    rewrite Hdot. destruct (Ascii.eqb c ".").
    + rewrite span_digits_e.
      pose proof (span_split isdigit r) as [_ [Hfp _]].
      destruct (span isdigit r) as [fp r2]. cbn [fst snd] in *. cbv beta iota.
      destruct (is_empty ip && is_empty fp); [reflexivity|].
      destruct r2 as [|d r3]; [reflexivity|]. cbn [map].
      destruct (e_lower_facts d) as [_ [_ [_ [_ [_ [_ [_ [-> _]]]]]]]].
      destruct (Ascii.eqb d "e" || Ascii.eqb d "E"); [|reflexivity].
      apply read_exponent_e.
    + destruct (is_empty ip && is_empty []); [reflexivity|].
      rewrite Hexp.
      destruct (Ascii.eqb c "e" || Ascii.eqb c "E"); [|reflexivity].
      apply read_exponent_e.
Qed.

Lemma lower_e (s : str) : lower (map e_lower s) = lower s.
Proof.
  unfold lower. rewrite map_map. apply map_ext. intros c. apply e_lower_facts.
Qed.

(** [float] reads [E] as it reads [e]. *)
Lemma float_of_str_e (s : str) :
  float_of_str (map e_lower s) = float_of_str s.
Proof.
  unfold float_of_str.
  rewrite (strip_map e_lower) by (intros c; apply e_lower_facts).
  change zero with (e_lower zero) at 1. rewrite drop_underscores_e.
  destruct (drop_underscores zero (strip s)) as [t|]; [|reflexivity].
  cbn [option_map]. rewrite take_sign_e.
  destruct (take_sign t) as [neg body]. cbn [fst snd].
  rewrite lower_e, read_decimal_e. reflexivity.
Qed.

Lemma D_to_E_facts (c : ascii) :
  isspace (if Ascii.eqb c "D" then "E"%char else c) = isspace c
  /\ isalpha (if Ascii.eqb c "D" then "E"%char else c) = isalpha c
  /\ Ascii.eqb (if Ascii.eqb c "D" then "E"%char else c) "#" = Ascii.eqb c "#"
  /\ e_lower (if Ascii.eqb (if Ascii.eqb c "D" then "E"%char else c) "D"
              then "e"%char
              else (if Ascii.eqb c "D" then "E"%char else c))
     = e_lower (if Ascii.eqb c "D" then "e"%char else c).
Proof. all_chars c. Qed.

Lemma float_of_token_D_to_E (tok : str) :
  float_of_str (D_to_e (D_to_E tok)) = float_of_str (D_to_e tok).
Proof.
  rewrite <- (float_of_str_e (D_to_e (D_to_E tok))),
          <- (float_of_str_e (D_to_e tok)).
  f_equal. unfold D_to_e, D_to_E, replace_char. rewrite !map_map.
  apply map_ext. intros c. apply D_to_E_facts.
Qed.

Lemma map_result_ext_eq {A B : Type} (f g : A -> result B) (l : list A) :
  (forall a, f a = g a) -> map_result f l = map_result g l.
Proof.
  intros H. induction l as [|a l IH]; simpl; [reflexivity|].
  rewrite H, IH. reflexivity.
Qed.

Lemma map_result_map_arg {A B C : Type} (f : B -> result C) (g : A -> B)
    (l : list A) :
  map_result f (map g l) = map_result (fun a => f (g a)) l.
Proof.
  induction l as [|a l IH]; simpl; [reflexivity|]. rewrite IH. reflexivity.
Qed.

Lemma data_numbers_D_to_E (line : str) :
  data_numbers (D_to_E line) = data_numbers line.
Proof.
  unfold data_numbers, D_to_E at 1, replace_char.
  rewrite (strip_map _ (fun c => proj1 (D_to_E_facts c))).
  fold (replace_char "D" "E" (strip line)). fold (D_to_E (strip line)).
  rewrite !split_D_to_e.
  unfold D_to_E, replace_char.
  rewrite (split_map _ (fun c => proj1 (D_to_E_facts c))).
  rewrite !map_result_map_arg. apply map_result_ext_eq. intros tok.
  apply float_of_token_D_to_E.
Qed.

Lemma startswith_nil (s : str) : startswith s [] = true.
Proof. destruct s; reflexivity. Qed.

Lemma line_class_D_to_E (line : str) :
  is_skipped (D_to_E line) = is_skipped line
  /\ starts_with_letter (D_to_E line) = starts_with_letter line.
Proof.
  unfold is_skipped, starts_with_letter, D_to_E, replace_char.
  rewrite (strip_map _ (fun c => proj1 (D_to_E_facts c))).
  destruct (strip line) as [|c r]; [split; reflexivity|].
  cbn [map is_empty orb]. change (py "#") with ["#"%char]. cbn [startswith].
  rewrite !startswith_nil.
  destruct (D_to_E_facts c) as [_ [-> [-> _]]]. split; reflexivity.
Qed.

Lemma int_of_str_e (s : str) : int_of_str (map e_lower s) = int_of_str s.
Proof.
  unfold int_of_str.
  rewrite (strip_map e_lower) by (intros c; apply e_lower_facts).
  change zero with (e_lower zero) at 1. rewrite drop_underscores_e.
  destruct (drop_underscores zero (strip s)) as [t|]; [|reflexivity].
  cbn [option_map]. rewrite take_sign_e.
  destruct (take_sign t) as [neg ds]. cbn [fst snd].
  rewrite is_empty_map, forallb_digits_e.
  destruct (forallb isdigit ds) eqn:E.
  - rewrite (digits_e _ E). reflexivity.
  - rewrite andb_false_r. reflexivity.
Qed.

Lemma int_of_token_D_to_E (tok : str) :
  int_of_str (D_to_e (D_to_E tok)) = int_of_str (D_to_e tok).
Proof.
  rewrite <- (int_of_str_e (D_to_e (D_to_E tok))),
          <- (int_of_str_e (D_to_e tok)).
  f_equal. unfold D_to_e, D_to_E, replace_char. rewrite !map_map.
  apply map_ext. intros c. apply D_to_E_facts.
Qed.

Lemma tokens_D_to_E (line : str) :
  split (D_to_e (strip (D_to_E line)))
  = map (fun tok => D_to_e (D_to_E tok)) (split (strip line))
  /\ split (D_to_e (strip line)) = map D_to_e (split (strip line)).
Proof.
  split; [|apply split_D_to_e].
  unfold D_to_E at 1, replace_char.
  rewrite (strip_map _ (fun c => proj1 (D_to_E_facts c))).
  rewrite split_D_to_e.
  rewrite (split_map _ (fun c => proj1 (D_to_E_facts c))), map_map.
  reflexivity.
Qed.

(** A data line reads the same whether its exponents are marked by [D]
    or by [E], in a basis and in an ECP. *)
Theorem data_line_fortran_exponent (line : str) :
  is_data line = true ->
  (forall st, _parse_line st (D_to_E line) = _parse_line st line)
  /\ (forall st, _parse_ecp_line st (D_to_E line) = _parse_ecp_line st line).
Proof.
  intros Hd.
  assert (Hd' : is_data (D_to_E line) = true).
  { unfold is_data in *. destruct (line_class_D_to_E line) as [-> ->]. exact Hd. }
  split; intros st.
  - rewrite !_parse_line_data by assumption. rewrite data_numbers_D_to_E.
    reflexivity.
  - rewrite !_parse_ecp_line_data by assumption. cbv zeta.
    destruct (tokens_D_to_E line) as [-> ->].
    destruct (split (strip line)) as [|tok toks]; [reflexivity|].
    cbn [map skipn]. rewrite !py_index_0. cbn [bind].
    rewrite int_of_token_D_to_E.
    rewrite !map_result_map_arg.
    rewrite (map_result_ext_eq _ _ toks float_of_token_D_to_E).
    reflexivity.
Qed.

Lemma data_line_fortran_exponent_witness :
  (forall st, _parse_line st (D_to_E (py "1.5D+02 2.0D-01"))
              = _parse_line st (py "1.5D+02 2.0D-01"))
  /\ (forall st, _parse_ecp_line st (D_to_E (py "1.5D+02 2.0D-01"))
                 = _parse_ecp_line st (py "1.5D+02 2.0D-01")).
Proof.
  apply (data_line_fortran_exponent (py "1.5D+02 2.0D-01")). reflexivity.
Defined.

(** *** When [convert_basis_to_nwchem] returns *)

Lemma map_result_Return {A B : Type} (f : A -> result B) (l : list A) :
  (exists bs, map_result f l = Return bs)
  <-> Forall (fun a => exists b, f a = Return b) l.
Proof.
  induction l as [|a l IH]; simpl.
  - split; [constructor | intros _; exists []; reflexivity].
  - split.
    + intros [bs H]. do 2 bind_inv H. constructor; [eauto|].
      apply IH. eauto.
    + intros H. inversion H as [|a' l' [b Hb] Hl]; subst.
      apply IH in Hl. destruct Hl as [bs Hbs]. rewrite Hb, Hbs.
      exists (b :: bs). reflexivity.
Qed.

Lemma map_result_Raise {A B : Type} (f : A -> result B) (l : list A) (e e0 : exn) :
  (forall a e', f a = Raise e' -> e' = e0) ->
  map_result f l = Raise e -> e = e0.
Proof.
  intros Hf. induction l as [|a l IH]; simpl; [discriminate|].
  destruct (f a) as [b|e'] eqn:E; cbn [bind].
  - destruct (map_result f l) as [bs|e'']; cbn [bind]; [discriminate|].
    intros H. injection H as <-. apply IH. reflexivity.
  - intros H. injection H as <-. eapply Hf. exact E.
Qed.

Lemma SPDF_index (l : Z) :
  (exists letter, py_index SPDF l = Return letter) <-> -8 <= l < 8.
Proof.
  unfold py_index, py_norm_index. change (Z.of_nat (length SPDF)) with 8.
  split.
  - destruct (Z.leb_spec 0 l), (Z.ltb_spec l 8), (Z.ltb_spec l 0),
      (Z.leb_spec 0 (l + 8)); simpl; intros [letter Hx]; try discriminate; lia.
  - intros H.
    assert (E : l = -8 \/ l = -7 \/ l = -6 \/ l = -5 \/ l = -4 \/ l = -3
                \/ l = -2 \/ l = -1 \/ l = 0 \/ l = 1 \/ l = 2 \/ l = 3
                \/ l = 4 \/ l = 5 \/ l = 6 \/ l = 7) by lia.
    repeat (destruct E as [E|E]; [subst l; eexists; reflexivity|]).
    subst l. eexists. reflexivity.
Qed.

Lemma shell_counts_Return (b : shell) :
  (exists v, shell_counts b = Return v) <-> shell_rows b <> [].
Proof.
  unfold shell_counts. destruct (shell_rows b) as [|row rows].
  - split; [intros [v H]; discriminate | intros H; contradiction].
  - rewrite py_index_0. cbn [bind]. split; [discriminate | eauto].
Qed.

Lemma shell_counts_key (b : shell) (v : Z * (Z * Z)) :
  shell_counts b = Return v -> fst v = shell_l b.
Proof.
  unfold shell_counts. intros H. bind_inv H. injection H as <-. reflexivity.
Qed.

Lemma map_result_shell_counts_keys (basis : Basis) (cs : list (Z * (Z * Z))) :
  map_result shell_counts basis = Return cs ->
  map fst cs = map shell_l basis.
Proof.
  revert cs. induction basis as [|b basis IH]; intros cs H; simpl in H.
  - injection H as <-. reflexivity.
  - do 2 bind_inv H. injection H as <-. simpl.
    rewrite (shell_counts_key _ _ Ha), (IH _ Ha0). reflexivity.
Qed.

Lemma shell_lines_Return (symb : str) (b : shell) :
  (exists ls, shell_lines symb b = Return ls) <-> -8 <= shell_l b < 8.
Proof.
  rewrite <- SPDF_index. unfold shell_lines.
  destruct (py_index SPDF (shell_l b)) as [letter|e]; cbn [bind].
  - split; eauto.
  - split; intros [x H]; discriminate.
Qed.

Lemma summary_item_Return (d : counts) (pick : Z * Z -> Z) (l : Z) :
  has_counts d l -> -8 <= l < 8 -> exists s, summary_item d pick l = Return s.
Proof.
  intros [v Hv] Hl. apply SPDF_index in Hl. destruct Hl as [letter E].
  unfold summary_item. rewrite Hv, E. cbn [bind]. eauto.
Qed.

Lemma summary_line_Return (basis : Basis) :
  Forall printable basis -> exists s, summary_line basis = Return s.
Proof.
  intros Hp. unfold summary_line.
  assert (Hc : exists cs, map_result shell_counts basis = Return cs).
  { apply map_result_Return. revert Hp. apply Forall_impl.
    intros b [Hb _]. apply shell_counts_Return. exact Hb. }
  destruct Hc as [cs Hc]. rewrite Hc. cbn [bind].
  pose proof (map_result_shell_counts_keys _ _ Hc) as Hk.
  assert (Hitem : forall pick,
            exists items, map_result (summary_item (fold_left add_counts cs [])
                                                   pick)
                                     (set_of (map shell_l basis)) = Return items).
  { intros pick. apply map_result_Return. apply Forall_forall. intros l Hin.
    apply set_of_In in Hin. apply summary_item_Return.
    - apply fold_add_counts_has. left. rewrite Hk. exact Hin.
    - apply in_map_iff in Hin. destruct Hin as [b [<- Hb]].
      rewrite Forall_forall in Hp. apply Hp. exact Hb. }
  destruct (Hitem fst) as [ps Ep]. destruct (Hitem snd) as [qs Eq].
  rewrite Ep, Eq. cbn [bind]. eauto.
Qed.

Lemma summary_item_Raise (d : counts) (pick : Z * Z -> Z) (l : Z) (e : exn) :
  has_counts d l -> summary_item d pick l = Raise e -> e = IndexError.
Proof.
  intros [v Hv]. unfold summary_item. rewrite Hv.
  destruct (py_index SPDF l) as [letter|e'] eqn:E; cbn [bind]; [discriminate|].
  intros H. injection H as <-. apply py_index_raise in E. exact E.
Qed.

Lemma shell_counts_Raise (b : shell) (e : exn) :
  shell_counts b = Raise e -> e = IndexError.
Proof.
  unfold shell_counts.
  destruct (py_index (shell_rows b) 0) as [row|e'] eqn:E; cbn [bind];
    [discriminate|].
  intros H. injection H as <-. apply py_index_raise in E. exact E.
Qed.

Lemma shell_lines_Raise (symb : str) (b : shell) (e : exn) :
  shell_lines symb b = Raise e -> e = IndexError.
Proof.
  unfold shell_lines.
  destruct (py_index SPDF (shell_l b)) as [letter|e'] eqn:E; cbn [bind];
    [discriminate|].
  intros H. injection H as <-. apply py_index_raise in E. exact E.
Qed.

Lemma map_result_Raise_In {A B : Type} (f : A -> result B) (l : list A)
    (e e0 : exn) :
  (forall a e', In a l -> f a = Raise e' -> e' = e0) ->
  map_result f l = Raise e -> e = e0.
Proof.
  induction l as [|a l IH]; intros Hf; simpl; [discriminate|].
  destruct (f a) as [b|e'] eqn:E; cbn [bind].
  - destruct (map_result f l) as [bs|e''] eqn:El; cbn [bind]; [discriminate|].
    intros H. injection H as <-. apply IH; [|reflexivity].
    intros a' e' Ha'. apply Hf. right. exact Ha'.
  - intros H. injection H as <-. apply (Hf a); [left; reflexivity | exact E].
Qed.

Lemma summary_line_Raise (basis : Basis) (e : exn) :
  summary_line basis = Raise e -> e = IndexError.
Proof.
  unfold summary_line.
  destruct (map_result shell_counts basis) as [cs|e'] eqn:Hc; cbn [bind].
  - pose proof (map_result_shell_counts_keys _ _ Hc) as Hk.
    assert (Hitem : forall pick e',
              map_result (summary_item (fold_left add_counts cs []) pick)
                         (set_of (map shell_l basis)) = Raise e' ->
              e' = IndexError).
    { intros pick e'. apply map_result_Raise_In. intros l e'' Hin.
      apply summary_item_Raise. apply fold_add_counts_has. left.
      rewrite Hk. apply set_of_In. exact Hin. }
    destruct (map_result (summary_item _ fst) _) as [ps|e1] eqn:E1; cbn [bind].
    + destruct (map_result (summary_item _ snd) _) as [qs|e2] eqn:E2; cbn [bind];
        [discriminate|].
      intros H. injection H as <-. eapply Hitem. exact E2.
    + intros H. injection H as <-. eapply Hitem. exact E1.
  - intros H. injection H as <-.
    apply (map_result_Raise _ _ _ _ shell_counts_Raise Hc).
Qed.

Section ConvertBasis.

Variable _std_symbol : str -> str.

(** [convert_basis_to_nwchem] returns a text exactly when every shell has
    at least one row and an [l] from -8 to 7; otherwise it raises
    IndexError. *)
Theorem convert_basis_returns_iff (symb : str) (basis : Basis) :
  ((exists s, convert_basis_to_nwchem _std_symbol symb basis = Return s)
   <-> Forall printable basis)
  /\ (forall e, convert_basis_to_nwchem _std_symbol symb basis = Raise e ->
                e = IndexError).
Proof.
  unfold convert_basis_to_nwchem. split; [split|].
  - intros [s H]. do 2 bind_inv H.
    assert (H1 : Forall (fun b => shell_rows b <> []) basis).
    { unfold summary_line in Ha. bind_inv Ha.
      assert (Hc : exists cs, map_result shell_counts basis = Return cs) by eauto.
      apply map_result_Return in Hc. revert Hc. apply Forall_impl.
      intros b. apply shell_counts_Return. }
    assert (H2 : Forall (fun b => -8 <= shell_l b < 8) basis).
    { assert (Hl : exists ls, map_result (shell_lines (_std_symbol symb)) basis
                              = Return ls) by eauto.
      apply map_result_Return in Hl. revert Hl. apply Forall_impl.
      intros b. apply shell_lines_Return. }
    rewrite Forall_forall in *. intros b Hb. split; [apply H1 | apply H2]; exact Hb.
  - intros Hp. destruct (summary_line_Return basis Hp) as [line1 E1].
    rewrite E1. cbn [bind].
    assert (Hl : exists ls, map_result (shell_lines (_std_symbol symb)) basis
                            = Return ls).
    { apply map_result_Return. revert Hp. apply Forall_impl.
      intros b [_ Hb]. apply shell_lines_Return. exact Hb. }
    destruct Hl as [ls El]. rewrite El. cbn [bind]. eauto.
  - intros e. destruct (summary_line basis) as [line1|e1] eqn:E1; cbn [bind].
    + destruct (map_result (shell_lines (_std_symbol symb)) basis)
        as [ls|e2] eqn:E2; cbn [bind]; [discriminate|].
      intros H. injection H as <-.
      apply (map_result_Raise _ _ _ _ (shell_lines_Raise (_std_symbol symb)) E2).
    + intros H. injection H as <-. apply summary_line_Raise in E1. exact E1.
Qed.

End ConvertBasis.

(** *** Reading a basis file *)

Lemma _search_seg_loop_absent (chunks : list str) (symb : str) :
  forallb (fun dat => negb (first_token_is symb dat)) chunks = true ->
  _search_seg_loop chunks symb = None.
Proof.
  induction chunks as [|dat chunks IH]; simpl; intros H; [reflexivity|].
  apply andb_true_iff in H. destruct H as [Hd Hc].
  apply negb_true_iff in Hd. unfold first_token_is in Hd.
  destruct (split_1 dat) as [|dat0 rest]; [apply IH; exact Hc|].
  rewrite Hd. apply IH. exact Hc.
Qed.

Lemma _parse_line_strip (st : parse_state) (line : str) :
  _parse_line st (strip line) = _parse_line st line.
Proof. unfold _parse_line. rewrite strip_idem. reflexivity. Qed.

Lemma load_lines_parse_lines (lines : list str) (st : parse_state) :
  Forall tidy_line lines ->
  for_each _parse_line
    (map upper
       (filter (fun x => negb (is_empty x) && negb (contains (py "END") x))
               lines)) st
  = for_each _parse_line (clean_lines (py "BASIS") lines) st.
Proof.
  intros H. revert st. induction H as [|x lines [Hh [He [Hs Hb]]] _ IH]; intros st.
  - reflexivity.
  - rewrite clean_lines_cons, clean_line_no_hash by exact Hh.
    cbn [filter]. rewrite He. unfold keep_line. rewrite Hs, Hb.
    cbn [negb andb]. rewrite !andb_true_r.
    destruct x as [|c x].
    + cbn [is_empty negb map strip]. apply IH.
    + cbn [is_empty negb]. cbn [map for_each].
      change (upper_char c :: map upper_char x) with (upper (c :: x)).
      rewrite <- _parse_line_strip, strip_upper.
      destruct (upper (strip (c :: x))) as [|d r] eqn:E.
      * cbn [is_empty negb]. rewrite _parse_line_skipped by reflexivity.
        cbn [bind]. apply IH.
      * cbn [is_empty negb for_each].
        destruct (_parse_line st (d :: r)); [cbn [bind]; apply IH | reflexivity].
Qed.

Section BasisFile.

Variable _std_symbol : str -> str.

(** For a symbol that no chunk after the first delimiter starts with,
    [load] returns the empty basis where [parse] raises a KeyError. *)
Theorem load_symbol_absent (content symb : str) :
  forallb (fun dat => negb (first_token_is (_std_symbol symb) dat))
          (skipn 1 (re_split BASIS_SET_DELIMITER content)) = true ->
  load _std_symbol content symb = Return []
  /\ parse _std_symbol content (Some symb)
     = Raise (KeyError (py "Basis not found for " ++ _std_symbol symb)).
Proof.
  intros H. unfold load, search_seg, parse, basis_segment, _search_seg.
  rewrite (_search_seg_loop_absent _ _ H). split; reflexivity.
Qed.

(** On a chunk of tidy lines, [load] returns what [parse] returns for the
    text of the file. *)
Theorem load_agrees_with_parse (content symb seg : str) :
  _search_seg (re_split BASIS_SET_DELIMITER content) (_std_symbol symb)
  = Some seg ->
  Forall tidy_line (splitlines seg) ->
  load _std_symbol content symb = parse _std_symbol content (Some symb).
Proof.
  intros Hseg Ht. unfold load, search_seg, parse, basis_segment.
  rewrite Hseg. cbn [bind]. unfold _parse, _parse_loop.
  rewrite load_lines_parse_lines by exact Ht. reflexivity.
Qed.

End BasisFile.

Lemma load_symbol_absent_witness :
  let content := text [py "# BASIS SET: (1s)"; py "Na S"; py "1.0 1.0"; py "END"] in
  load std_symbol_model content (py "K") = Return []
  /\ parse std_symbol_model content (Some (py "K"))
     = Raise (KeyError (py "Basis not found for K")).
Proof.
  intros content. apply (load_symbol_absent std_symbol_model content (py "K")).
  reflexivity.
Defined.

Lemma load_agrees_with_parse_witness :
  let content := text [py "# BASIS SET: (1s)"; py "K S"; py "  "; py "1.0 1.0";
                       py "# BASIS SET: (1s)"; py "Na S"; py "2.0 1.0"] in
  load std_symbol_model content (py "Na")
  = parse std_symbol_model content (Some (py "Na")).
Proof.
  intros content.
  apply (load_agrees_with_parse std_symbol_model content (py "Na")
           (text [py "Na S"; py "2.0 1.0"])).
  - reflexivity.
  - repeat constructor.
Defined.

(** *** Reading an ECP file *)

(** The first token of a text and what follows it. *)
Lemma first_token_ends (s : str) :
  strip s <> [] ->
  exists tok rest,
    strip s = tok ++ rest /\ tok <> [] /\ no_space tok /\ at_word_end rest
    /\ hd_error (split_1 s) = Some tok.
Proof.
  intros Hne. destruct (strip_split s) as [a [b [Ha [Hb [Hs Ht]]]]].
  destruct Ht as [E|[[c [r [E Hc]]] _]]; [contradiction|].
  pose proof (span_split (fun c => negb (isspace c)) (strip s)) as [S1 [S2 S3]].
  destruct (span (fun c => negb (isspace c)) (strip s)) as [tok rest] eqn:Esp.
  simpl in S1, S2, S3.
  assert (Htok : tok <> []).
  { intros ->. simpl in S1. rewrite <- S1, E in S3. rewrite Hc in S3.
    discriminate. }
  assert (Hr : at_word_end rest).
  { unfold at_word_end. destruct rest as [|d rest]; [exact I|].
    apply negb_false_iff. exact S3. }
  exists tok, rest. split; [exact S1|]. split; [exact Htok|].
  split; [exact S2|]. split; [exact Hr|].
  rewrite split_1_head, <- split_strip, S1, split_word by assumption.
  reflexivity.
Qed.

Lemma startswith_token (u rest p : str) :
  forallb isalpha p = true -> at_word_end rest ->
  startswith (u ++ rest) p = startswith u p.
Proof.
  revert u. induction p as [|q p IH]; intros u Hp Hr.
  - destruct u; destruct rest; reflexivity.
  - simpl in Hp. apply andb_true_iff in Hp. destruct Hp as [Hq Hp].
    destruct u as [|d u]; cbn [app].
    + destruct rest as [|c rest]; [reflexivity|]. cbn [startswith].
      replace (Ascii.eqb c q) with false; [reflexivity|].
      symmetry. apply Ascii.eqb_neq. intros <-. simpl in Hr.
      rewrite (isalpha_not_space _ Hq) in Hr. discriminate.
    + cbn [startswith]. rewrite (IH u Hp Hr). reflexivity.
Qed.

Lemma upper_strip_fix (x : str) :
  strip (upper (strip x)) = upper (strip x).
Proof. rewrite strip_upper, strip_idem. reflexivity. Qed.

(** Up to a line of another symbol, the second loop of [search_ecp] is
    the second loop of [parse_ecp]. *)
Lemma search_ecp_loop_seg_loop (symb : str) (lines seg : list str) :
  existsb (other_symbol_line symb) lines = true ->
  search_ecp_loop symb lines seg = seg_loop symb lines seg.
Proof.
  revert seg. induction lines as [|x lines IH]; intros seg H; [discriminate|].
  cbn [existsb] in H. cbn [search_ecp_loop seg_loop].
  unfold other_symbol_line in H.
  destruct (upper (strip x)) as [|c r] eqn:E; [reflexivity|].
  rewrite py_index_0. cbn [bind].
  destruct (isalpha c).
  - destruct (split_1 (c :: r)) as [|tok toks]; [reflexivity|].
    rewrite py_index_0. cbn [bind].
    destruct (negb (str_eqb tok (upper symb))); [reflexivity|].
    cbn [andb orb] in H. cbn [is_empty negb]. apply IH. exact H.
  - cbn [andb orb] in H. cbn [bind is_empty negb]. apply IH. exact H.
Qed.

(** Without a line of another symbol, the second loop of [search_ecp]
    reaches the end of the lines, unless a blank line stops it. *)
Lemma search_ecp_loop_open (symb : str) (lines seg : list str) :
  forallb (fun x => negb (other_symbol_line symb x)) lines = true ->
  search_ecp_loop symb lines seg
  = if existsb (fun x => is_empty (strip x)) lines then Raise IndexError
    else Return [].
Proof.
  revert seg. induction lines as [|x lines IH]; intros seg H; [reflexivity|].
  cbn [forallb] in H. apply andb_true_iff in H. destruct H as [Hx Hl].
  apply negb_true_iff in Hx. cbn [existsb search_ecp_loop].
  unfold other_symbol_line in Hx.
  destruct (strip x) as [|c0 r0] eqn:Es; [reflexivity|].
  assert (Hne : strip (upper (strip x)) <> []).
  { rewrite upper_strip_fix, Es. discriminate. }
  destruct (first_token_ends _ Hne) as [tok [rest [_ [_ [_ [_ Hd]]]]]].
  rewrite Es in Hd.
  cbn [is_empty orb].
  change (upper (c0 :: r0)) with (upper_char c0 :: upper r0) in *.
  cbv beta iota zeta in Hx.
  rewrite py_index_0. cbn [bind].
  destruct (isalpha (upper_char c0)).
  - destruct (split_1 (upper_char c0 :: upper r0)) as [|tok' toks];
      [discriminate|].
    rewrite py_index_0. cbn [bind]. cbn [andb] in Hx. rewrite Hx.
    cbn [is_empty negb]. apply IH. exact Hl.
  - cbn [bind is_empty negb]. apply IH. exact Hl.
Qed.

Lemma seg_loop_Forall (P : str -> Prop) (symb : str) (lines seg seg' : list str) :
  seg_loop symb lines seg = Return seg' ->
  Forall P seg ->
  Forall (fun x => other_symbol_line symb x = false ->
                   upper (strip x) <> [] -> P (upper (strip x))) lines ->
  Forall P seg'.
Proof.
  revert seg. induction lines as [|x lines IH]; intros seg H Hseg Hl.
  - injection H as <-. exact Hseg.
  - inversion Hl as [|? ? Hx Hl']; subst. cbn [seg_loop] in H.
    unfold other_symbol_line in Hx.
    destruct (upper (strip x)) as [|c r] eqn:E; [discriminate|].
    rewrite py_index_0 in H. cbn [bind] in H.
    destruct (isalpha c).
    + destruct (split_1 (c :: r)) as [|tok toks]; [discriminate|].
      rewrite py_index_0 in H. cbn [bind] in H.
      destruct (negb (str_eqb tok (upper symb))).
      * injection H as <-. exact Hseg.
      * cbn [is_empty negb] in H. apply (IH _ H); [|exact Hl'].
        apply Forall_app. split; [exact Hseg|].
        constructor; [|constructor]. apply Hx; [reflexivity | discriminate].
    + cbn [bind is_empty negb] in H. apply (IH _ H); [|exact Hl'].
      apply Forall_app. split; [exact Hseg|].
      constructor; [|constructor]. apply Hx; [reflexivity | discriminate].
Qed.

Lemma for_each_clean_ecp (seg : list str) (st : ecp_state) :
  Forall kept_or_skipped seg ->
  for_each _parse_ecp_line (clean_lines (py "ECP") seg) st
  = for_each _parse_ecp_line seg st.
Proof.
  intros H. revert st. induction H as [|z seg Hz _ IH]; intros st; [reflexivity|].
  rewrite clean_lines_cons. destruct Hz as [[Hc Hk]|[Hc Hs]].
  - rewrite Hc, Hk. cbn [for_each].
    destruct (_parse_ecp_line st z); [cbn [bind]; apply IH | reflexivity].
  - rewrite Hc. cbn [for_each]. rewrite (_parse_ecp_line_skipped _ _ Hs).
    cbn [bind]. apply IH.
Qed.

Lemma no_hash_strip (x : str) : no_hash x -> no_hash (strip x).
Proof.
  unfold no_hash. intros H.
  destruct (strip_split x) as [a [b [_ [_ [Hs _]]]]].
  rewrite Hs in H. rewrite !forallb_app in H.
  apply andb_true_iff in H. destruct H as [_ H].
  apply andb_true_iff in H. destruct H as [H _]. exact H.
Qed.

(** A line that does not end the segment starts with no word that the
    symbol does not start with. *)
Lemma not_other_prefix (symb x p : str) :
  other_symbol_line symb x = false ->
  p <> [] -> forallb isalpha p = true ->
  startswith (upper symb) p = false ->
  startswith (upper (strip x)) p = false.
Proof.
  intros Ho Hp Ha Hs. unfold other_symbol_line in Ho.
  destruct (upper (strip x)) as [|c r] eqn:E.
  - destruct p; [contradiction | reflexivity].
  - destruct (isalpha c) eqn:Ec.
    + assert (Hne : strip (upper (strip x)) <> []).
      { rewrite upper_strip_fix, E. discriminate. }
      destruct (first_token_ends _ Hne) as [tok [rest [Hz [_ [_ [Hr Hd]]]]]].
      rewrite upper_strip_fix, E in Hz. rewrite E in Hd.
      destruct (split_1 (c :: r)) as [|tok' toks]; [discriminate|].
      injection Hd as ->. cbn [andb] in Ho.
      apply negb_false_iff, str_eqb_eq in Ho. subst tok.
      rewrite Hz, startswith_token by assumption. exact Hs.
    + destruct p as [|q p]; [contradiction|]. cbn [startswith].
      cbn [forallb] in Ha. apply andb_true_iff in Ha. destruct Ha as [Hq _].
      replace (Ascii.eqb c q) with false; [reflexivity|].
      symmetry. apply Ascii.eqb_neq. intros <-. rewrite Hq in Ec. discriminate.
Qed.

Lemma keep_line_not_other (symb x : str) :
  startswith (upper symb) (py "END") = false ->
  startswith (upper symb) (py "ECP") = false ->
  other_symbol_line symb x = false ->
  upper (strip x) <> [] ->
  keep_line (py "ECP") (upper (strip x)) = true.
Proof.
  intros Hend Hecp Ho Hne. unfold keep_line.
  rewrite (not_other_prefix symb x (py "END") Ho),
    (not_other_prefix symb x (py "ECP") Ho);
    try reflexivity; try discriminate; try assumption.
  destruct (upper (strip x)); [contradiction | reflexivity].
Qed.

Lemma line_kept_or_skipped (symb x : str) :
  startswith (upper symb) (py "END") = false ->
  startswith (upper symb) (py "ECP") = false ->
  plain_or_comment x ->
  other_symbol_line symb x = false ->
  upper (strip x) <> [] ->
  kept_or_skipped (upper (strip x)).
Proof.
  intros Hend Hecp [Hh|Hc] Ho Hne.
  - left. split.
    + rewrite clean_line_upper, clean_line_no_hash by (apply no_hash_strip; exact Hh).
      rewrite strip_idem. reflexivity.
    + apply (keep_line_not_other symb); assumption.
  - right. pose proof (upper_strip_fix x) as Hz.
    destruct (strip x) as [|c r] eqn:E; [discriminate|].
    change (py "#") with ["#"%char] in Hc. cbn [startswith] in Hc.
    apply andb_true_iff in Hc. destruct Hc as [Hc _].
    apply Ascii.eqb_eq in Hc. subst c. split.
    + reflexivity.
    + unfold is_skipped. rewrite Hz.
      change (upper ("#"%char :: r)) with ("#"%char :: upper r).
      change (py "#") with ["#"%char]. cbn [is_empty orb startswith].
      rewrite startswith_nil. reflexivity.
Qed.

Section EcpFile.

Variable _std_symbol : str -> str.

(** A file without a line [ECP] between two line feeds has no ECP
    section: [load_ecp] raises IndexError. *)
Theorem load_ecp_without_section (content symb : str) :
  contains_match ECP_DELIMITER content = false ->
  load_ecp _std_symbol content symb = Raise IndexError.
Proof.
  intros H. unfold load_ecp, search_ecp.
  rewrite (re_split_no_match _ _ H). reflexivity.
Qed.

(** A section with lines, none of which starts with the symbol: the
    second loop of [search_ecp] reads the last line only. *)
Lemma load_ecp_absent_last (content symb chunk : str) (pre : list str)
    (last : str) :
  py_index (re_split ECP_DELIMITER content) 1 = Return chunk ->
  splitlines chunk = pre ++ [last] ->
  forallb (fun dat => negb (first_token_is (_std_symbol symb) dat))
          (pre ++ [last]) = true ->
  load_ecp _std_symbol content symb
  = if is_empty (strip last) then Raise IndexError else Return None.
Proof.
  intros Hc Hl Habs. unfold load_ecp, search_ecp. rewrite Hc. cbn [bind].
  rewrite Hl.
  pose proof (find_symb_loop_app (_std_symbol symb) (pre ++ [last]) [] 0 None
                Habs) as F.
  rewrite app_nil_r in F. rewrite F. cbn [find_symb_loop].
  rewrite length_app. cbn [length].
  replace (0 + (length pre + 1) - 1)%nat with (length pre) by lia.
  replace (match pre ++ [last] with [] => None | _ :: _ => Some (length pre) end)
    with (Some (length pre)) by (destruct pre; reflexivity).
  rewrite skipn_app, Nat.sub_diag, skipn_all. cbn [skipn app].
  destruct (other_symbol_line (_std_symbol symb) last) eqn:Eo.
  - assert (Hne : is_empty (strip last) = false).
    { unfold other_symbol_line in Eo. destruct (strip last); [discriminate|].
      reflexivity. }
    rewrite Hne. cbn [search_ecp_loop]. unfold other_symbol_line in Eo.
    destruct (upper (strip last)) as [|c r]; [discriminate|].
    rewrite py_index_0. cbn [bind].
    destruct (isalpha c); [|discriminate].
    destruct (split_1 (c :: r)) as [|tok toks]; [discriminate|].
    rewrite py_index_0. cbn [bind]. cbn [andb] in Eo. rewrite Eo.
    reflexivity.
  - rewrite search_ecp_loop_open by (cbn [forallb]; rewrite Eo; reflexivity).
    cbn [existsb]. rewrite orb_false_r.
    destruct (is_empty (strip last)); reflexivity.
Qed.

(** When no line of the ECP section starts with the symbol, [load_ecp]
    raises UnboundLocalError if the section has no line ([i] is not
    bound), raises IndexError if the last line of the section is blank,
    and returns [None] otherwise; it never raises the KeyError of
    [parse_ecp]. *)
Theorem load_ecp_symbol_absent (content symb chunk : str) :
  py_index (re_split ECP_DELIMITER content) 1 = Return chunk ->
  forallb (fun dat => negb (first_token_is (_std_symbol symb) dat))
          (splitlines chunk) = true ->
  load_ecp _std_symbol content symb
  = match rev (splitlines chunk) with
    | [] => Raise UnboundLocalError
    | last :: _ =>
        if is_empty (strip last) then Raise IndexError else Return None
    end.
Proof.
  intros Hc Habs.
  pose proof (rev_involutive (splitlines chunk)) as Hr.
  destruct (rev (splitlines chunk)) as [|last r].
  - cbn [rev] in Hr. unfold load_ecp, search_ecp. rewrite Hc. cbn [bind].
    rewrite <- Hr. reflexivity.
  - cbn [rev] in Hr. symmetry in Hr. rewrite Hr in Habs.
    apply (load_ecp_absent_last content symb chunk (rev r) last Hc Hr Habs).
Qed.

(** When no line of another symbol follows the first line of the
    element to the end of the ECP section, [load_ecp] finds no segment:
    it returns [None], or raises IndexError if one of the lines is
    blank. *)
Theorem load_ecp_unterminated (content symb chunk : str) (pre : list str)
    (first : str) (rest : list str) :
  py_index (re_split ECP_DELIMITER content) 1 = Return chunk ->
  splitlines chunk = pre ++ first :: rest ->
  forallb (fun dat => negb (first_token_is (_std_symbol symb) dat)) pre = true ->
  first_token_is (_std_symbol symb) first = true ->
  forallb (fun dat => negb (other_symbol_line (_std_symbol symb) dat)) rest
  = true ->
  load_ecp _std_symbol content symb
  = if existsb (fun x => is_empty (strip x)) rest then Raise IndexError
    else Return None.
Proof.
  intros Hc Hl Hpre Hfirst Hrest. unfold load_ecp, search_ecp.
  rewrite Hc. cbn [bind]. rewrite Hl, (find_symb_loop_app _ _ _ _ _ Hpre).
  cbn [find_symb_loop]. rewrite Hfirst.
  rewrite skipn_app, Nat.add_0_l, Nat.sub_diag, skipn_all. cbn [skipn app].
  pose proof (first_token_not_other _ _ Hfirst) as Hno.
  rewrite search_ecp_loop_open by (cbn [forallb]; rewrite Hno; exact Hrest).
  cbn [existsb].
  replace (is_empty (strip first)) with false.
  - cbn [orb]. destruct (existsb _ rest); reflexivity.
  - unfold first_token_is in Hfirst.
    destruct (strip first) as [|c r] eqn:E; [|reflexivity].
    pose proof (strip_starts_with_token first) as T.
    pose proof (split_1_head first) as Hh.
    destruct (split_1 first) as [|tok toks]; [discriminate|].
    destruct (split first) as [|tok' toks']; [discriminate|].
    destruct T as [Hne [_ [r' Hr]]]. rewrite E in Hr.
    destruct tok'; [contradiction | discriminate].
Qed.

(** When a line of another symbol ends the segment of the element, the
    lines before it hold no comment after data, and the symbol starts
    neither with [END] nor with [ECP], [load_ecp] returns for the file
    what [parse_ecp] returns for its ECP section. *)
Theorem load_ecp_agrees_with_parse_ecp (content symb chunk : str)
    (pre : list str) (first : str) (rest : list str) :
  py_index (re_split ECP_DELIMITER content) 1 = Return chunk ->
  splitlines chunk = pre ++ first :: rest ->
  forallb (fun dat => negb (first_token_is (_std_symbol symb) dat)) pre = true ->
  first_token_is (_std_symbol symb) first = true ->
  existsb (other_symbol_line (_std_symbol symb)) rest = true ->
  Forall plain_or_comment (first :: rest) ->
  startswith (upper (_std_symbol symb)) (py "END") = false ->
  startswith (upper (_std_symbol symb)) (py "ECP") = false ->
  load_ecp _std_symbol content symb = parse_ecp _std_symbol chunk (Some symb).
Proof.
  intros Hc Hl Hpre Hfirst Hstop Hlines Hend Hecp.
  unfold load_ecp, search_ecp, parse_ecp, ecp_segment.
  rewrite Hc. cbn [bind]. rewrite Hl, (find_symb_loop_app _ _ _ _ _ Hpre).
  cbn [find_symb_loop]. rewrite Hfirst.
  replace (0 + length pre + 1 =? length (pre ++ first :: rest))%nat with false.
  2:{ symmetry. apply Nat.eqb_neq. rewrite length_app. cbn [length].
      destruct rest; [discriminate | cbn [length]; lia]. }
  rewrite skipn_app, Nat.add_0_l, Nat.sub_diag, skipn_all. cbn [skipn app].
  rewrite search_ecp_loop_seg_loop
    by (cbn [existsb]; rewrite Hstop; apply orb_true_r).
  destruct (seg_loop (_std_symbol symb) (first :: rest) []) as [seg|e] eqn:Es;
    [|reflexivity].
  cbn [bind]. unfold _parse_ecp, _parse_ecp_loop.
  rewrite for_each_clean_ecp; [reflexivity|].
  apply (seg_loop_Forall kept_or_skipped _ _ _ _ Es); [constructor|].
  revert Hlines. apply Forall_impl. intros x Hx Ho Hne.
  apply (line_kept_or_skipped (_std_symbol symb)); assumption.
Qed.

End EcpFile.

Lemma load_ecp_without_section_witness :
  load_ecp std_symbol_model
           (text [py "Na nelec 10"; py "Na ul"; py "1 0.5 10.0"; py "END"])
           (py "Na")
  = Raise IndexError.
Proof.
  apply (load_ecp_without_section std_symbol_model). reflexivity.
Defined.

Lemma load_ecp_symbol_absent_witness :
  let content := text [py "BASIS"; py "ECP"; py "K nelec 18"; py "K ul";
                       py "1 0.25 2.0"; py "END"] in
  let empty := text [py "BASIS"; py "ECP"; py ""] in
  load_ecp std_symbol_model content (py "Na") = Return None
  /\ load_ecp std_symbol_model empty (py "Na") = Raise UnboundLocalError.
Proof.
  intros content empty. split.
  - apply (load_ecp_symbol_absent std_symbol_model content (py "Na")
             (text [py "K nelec 18"; py "K ul"; py "1 0.25 2.0"; py "END"]));
      reflexivity.
  - apply (load_ecp_symbol_absent std_symbol_model empty (py "Na") []);
      reflexivity.
Defined.

Lemma load_ecp_unterminated_witness :
  let content := text [py "BASIS"; py "ECP"; py "Na nelec 10"; py "Na ul";
                       py "1 0.5 10.0"] in
  load_ecp std_symbol_model content (py "Na") = Return None.
Proof.
  intros content.
  apply (load_ecp_unterminated std_symbol_model content (py "Na")
           (text [py "Na nelec 10"; py "Na ul"; py "1 0.5 10.0"])
           [] (py "Na nelec 10") [py "Na ul"; py "1 0.5 10.0"]);
    reflexivity.
Defined.

Lemma load_ecp_agrees_with_parse_ecp_witness :
  let content := text [py "BASIS"; py "ECP"; py "Na nelec 10"; py "# local";
                       py "Na ul"; py "1 0.5 10.0"; py "END"] in
  let chunk := text [py "Na nelec 10"; py "# local"; py "Na ul";
                     py "1 0.5 10.0"; py "END"] in
  load_ecp std_symbol_model content (py "Na")
  = parse_ecp std_symbol_model chunk (Some (py "Na")).
Proof.
  intros content chunk.
  apply (load_ecp_agrees_with_parse_ecp std_symbol_model content (py "Na")
           chunk [] (py "Na nelec 10")
           [py "# local"; py "Na ul"; py "1 0.5 10.0"; py "END"]);
    try reflexivity.
  constructor; [left; reflexivity|].
  constructor; [right; reflexivity|].
  constructor; [left; reflexivity|].
  constructor; [left; reflexivity|].
  constructor; [left; reflexivity|].
  constructor.
Defined.

(** *** An ECP written and read again *)

Lemma py_alter_nat {A : Type} (f : A -> A) (l : list A) (n : nat) :
  (n < length l)%nat -> py_alter f l (Z.of_nat n) = Return (alter_nth f n l).
Proof.
  intros Hn. unfold py_alter, py_norm_index.
  destruct (Z.leb_spec 0 (Z.of_nat n)) as [_|H0]; [|lia].
  destruct (Z.ltb_spec (Z.of_nat n) (Z.of_nat (length l))) as [_|H1]; [|lia].
  cbn [andb]. rewrite Nat2Z.id. reflexivity.
Qed.

Lemma str_of_Z_plain (n : Z) : forallb plain_char (str_of_Z n) = true.
Proof.
  unfold str_of_Z. destruct (n <? 0); cbn [forallb];
    rewrite ?(forallb_impl _ _ _ isdigit_plain (digits_of_digits _)); reflexivity.
Qed.

Lemma str_of_Z_nonempty (n : Z) : str_of_Z n <> [].
Proof.
  unfold str_of_Z. destruct (n <? 0); [discriminate | apply digits_of_nonempty].
Qed.

Lemma plain_no_space (t : str) : forallb plain_char t = true -> no_space t.
Proof.
  unfold no_space. apply forallb_impl. intros c Hc.
  apply plain_char_facts in Hc. destruct Hc as [Hc _]. rewrite Hc. reflexivity.
Qed.

Lemma plain_fix (t : str) :
  forallb plain_char t = true -> upper t = t /\ D_to_e t = t.
Proof.
  induction t as [|c t IH]; [split; reflexivity|]. cbn [forallb]. intros H.
  apply andb_true_iff in H. destruct H as [Hc Ht].
  destruct (IH Ht) as [E1 E2]. apply plain_char_facts in Hc.
  destruct Hc as [_ [_ [Hu [Hd _]]]]. split.
  - change (upper (c :: t)) with (upper_char c :: upper t). rewrite Hu, E1.
    reflexivity.
  - change (D_to_e (c :: t))
      with ((if Ascii.eqb c "D" then "e"%char else c) :: D_to_e t).
    rewrite Hd, E2. reflexivity.
Qed.

(** [int] reads back the text of an integer. *)
Lemma int_of_str_str_of_Z (n : Z) : int_of_str (str_of_Z n) = Return n.
Proof.
  pose proof (str_of_Z_plain n) as Hp. unfold int_of_str.
  rewrite strip_fix by (apply no_space_trimmed, plain_no_space; exact Hp).
  rewrite drop_underscores_none.
  2:{ reflexivity. }
  2:{ revert Hp. apply forallb_impl. intros c Hc.
      apply plain_char_facts in Hc. destruct Hc as [_ [Hc _]]. rewrite Hc.
      reflexivity. }
  unfold str_of_Z. destruct (Z.ltb_spec n 0) as [Hn|Hn].
  - cbn [take_sign]. change (Ascii.eqb "-" "-") with true. cbv iota.
    rewrite digits_of_digits, digits_of_value by lia.
    pose proof (digits_of_nonempty (- n)) as Hne.
    destruct (digits_of (- n)); [contradiction|]. cbn [is_empty negb andb].
    f_equal. lia.
  - pose proof (digits_of_nonempty n) as Hne.
    pose proof (digits_of_digits n) as Hd.
    pose proof (digits_of_value n Hn) as Hv.
    destruct (digits_of n) as [|d r]; [contradiction|].
    rewrite take_sign_digit
      by (cbn [forallb] in Hd; apply andb_true_iff in Hd; apply Hd).
    rewrite Hd, Hv. reflexivity.
Qed.

(** A word, blanks, and the rest of a line. *)
Lemma split_word_spaces (tok ws rest : str) :
  tok <> [] -> no_space tok -> ws <> [] -> all_space ws ->
  split (tok ++ ws ++ rest) = tok :: split rest.
Proof.
  intros Hne Ht Hw Hs. rewrite split_word; try assumption.
  - rewrite split_spaces by exact Hs. reflexivity.
  - destruct ws as [|c ws]; [contradiction|]. cbn [app at_word_end].
    unfold all_space in Hs. cbn [forallb] in Hs.
    apply andb_true_iff in Hs. apply Hs.
Qed.

Lemma split_one (tok : str) : tok <> [] -> no_space tok -> split tok = [tok].
Proof.
  intros Hne Ht. rewrite <- (app_nil_r tok) at 1.
  rewrite split_word; [reflexivity | assumption | assumption | exact I].
Qed.

Lemma ljust_pad (symb : str) : exists k, ljust 2 " " symb = symb ++ repeat " "%char k.
Proof. unfold ljust. eauto. Qed.

Lemma nelec_text_tokens (symb : str) (n : Z) :
  ecp_word symb ->
  split (nelec_text symb n) = [symb; py "nelec"; str_of_Z n].
Proof.
  intros [Hne [Ha _]]. unfold nelec_text.
  destruct (ljust_pad symb) as [k ->].
  change (py " nelec ") with ([" "%char] ++ py "nelec" ++ [" "%char]).
  replace ((symb ++ repeat " "%char k) ++ ([" "%char] ++ py "nelec" ++ [" "%char])
             ++ str_of_Z n)
    with (symb ++ (repeat " "%char k ++ [" "%char])
               ++ (py "nelec" ++ [" "%char] ++ str_of_Z n))
    by (rewrite <- !app_assoc; reflexivity).
  rewrite split_word_spaces.
  - f_equal. rewrite split_word_spaces; try reflexivity; try discriminate.
    f_equal. apply split_one; [apply str_of_Z_nonempty|].
    apply plain_no_space, str_of_Z_plain.
  - exact Hne.
  - apply alpha_no_space. exact Ha.
  - destruct (repeat " "%char k); discriminate.
  - apply all_space_app; [apply all_space_repeat | reflexivity].
Qed.

Lemma ecp_header_text_tokens (symb key : str) :
  ecp_word symb -> key <> [] -> no_space key ->
  split (ljust 2 " " symb ++ py " " ++ key) = [symb; key].
Proof.
  intros [Hne [Ha _]] Hk Hs. destruct (ljust_pad symb) as [k ->].
  replace ((symb ++ repeat " "%char k) ++ py " " ++ key)
    with (symb ++ (repeat " "%char k ++ py " ") ++ key)
    by (rewrite <- !app_assoc; reflexivity).
  rewrite split_word_spaces.
  - f_equal. apply split_one; assumption.
  - exact Hne.
  - apply alpha_no_space. exact Ha.
  - destruct (repeat " "%char k); discriminate.
  - apply all_space_app; [apply all_space_repeat | reflexivity].
Qed.

Lemma ecp_row_text_tokens (r : nat) (e c : float) :
  split (ecp_row_text r [e; c])
  = [str_of_Z (Z.of_nat r); format_9f e; format_9f c].
Proof.
  unfold ecp_row_text.
  destruct (format_15_9f_pad e) as [k1 ->].
  destruct (format_15_9f_pad c) as [k2 ->].
  replace (str_of_Z (Z.of_nat r) ++ py "    " ++ (repeat " "%char k1 ++ format_9f e)
             ++ py "  " ++ repeat " "%char k2 ++ format_9f c)
    with (str_of_Z (Z.of_nat r) ++ (py "    " ++ repeat " "%char k1)
            ++ (format_9f e ++ (py "  " ++ repeat " "%char k2) ++ format_9f c))
    by (rewrite <- !app_assoc; reflexivity).
  rewrite split_word_spaces.
  - f_equal. rewrite split_word_spaces.
    + f_equal. apply split_one; [apply format_9f_nonempty | apply format_9f_no_space].
    + apply format_9f_nonempty.
    + apply format_9f_no_space.
    + discriminate.
    + apply all_space_app; [reflexivity | apply all_space_repeat].
  - apply str_of_Z_nonempty.
  - apply plain_no_space, str_of_Z_plain.
  - discriminate.
  - apply all_space_app; [reflexivity | apply all_space_repeat].
Qed.

Lemma alpha_line_char (c : ascii) : isalpha c = true -> line_char c = true.
Proof.
  intros H. apply isalpha_facts in H. destruct H as [_ [H1 H2]].
  unfold line_char. rewrite H1, H2. reflexivity.
Qed.

Lemma number_line_char (c : ascii) : number_char c = true -> line_char c = true.
Proof.
  intros H. apply number_char_facts in H. destruct H as [_ [H1 H2]].
  unfold line_char. rewrite H1, H2. reflexivity.
Qed.

Lemma plain_line_char (c : ascii) : plain_char c = true -> line_char c = true.
Proof. intros H. apply number_line_char, plain_number_char, H. Qed.

Lemma lower_upper_char (c : ascii) :
  isupper c = true ->
  upper_char (lower_char c) = c /\ isspace (lower_char c) = false
  /\ line_char (lower_char c) = true.
Proof. intros H. revert H. all_chars c; repeat split. Qed.

Lemma ljust_chars (symb : str) :
  forallb isalpha symb = true -> forallb line_char (ljust 2 " " symb) = true.
Proof.
  intros Ha. unfold ljust. rewrite forallb_app, forallb_repeat by reflexivity.
  rewrite (forallb_impl _ _ _ alpha_line_char Ha). reflexivity.
Qed.

Lemma format_15_9f_chars (x : float) : forallb line_char (format_15_9f x) = true.
Proof.
  destruct (format_15_9f_pad x) as [k ->].
  rewrite forallb_app, forallb_repeat by reflexivity.
  rewrite (forallb_impl _ _ _ number_line_char (format_9f_chars x)). reflexivity.
Qed.

Lemma nelec_text_chars (symb : str) (n : Z) :
  ecp_word symb -> forallb line_char (nelec_text symb n) = true.
Proof.
  intros [_ [Ha _]]. unfold nelec_text.
  rewrite !forallb_app, (ljust_chars _ Ha),
    (forallb_impl _ _ _ plain_line_char (str_of_Z_plain n)).
  reflexivity.
Qed.

Lemma ecp_row_text_chars (r : nat) (e c : float) :
  forallb line_char (ecp_row_text r [e; c]) = true.
Proof.
  unfold ecp_row_text.
  rewrite !forallb_app, !format_15_9f_chars,
    (forallb_impl _ _ _ plain_line_char (str_of_Z_plain _)).
  reflexivity.
Qed.

Lemma line_char_no_hash (line : str) :
  forallb line_char line = true -> no_hash line.
Proof.
  unfold no_hash. apply forallb_impl. intros c Hc. unfold line_char in Hc.
  apply andb_true_iff in Hc. apply Hc.
Qed.

Lemma line_char_no_linebreak (line : str) :
  forallb line_char line = true -> no_linebreak line.
Proof.
  unfold no_linebreak. apply forallb_impl. intros c Hc. unfold line_char in Hc.
  apply andb_true_iff in Hc. apply Hc.
Qed.

Lemma cleaned_fix (line : str) : strip (cleaned line) = cleaned line.
Proof. apply upper_strip_fix. Qed.

Lemma cleaned_tokens (line : str) : split (cleaned line) = map upper (split line).
Proof. unfold cleaned. rewrite split_upper, split_strip. reflexivity. Qed.

Lemma cleaned_head (line : str) (c : ascii) (t : str) (toks : list str) :
  split line = (c :: t) :: toks -> exists r, cleaned line = upper_char c :: r.
Proof.
  intros H. pose proof (strip_starts_with_token line) as T. rewrite H in T.
  destruct T as [_ [_ [r E]]]. unfold cleaned. rewrite E.
  exists (upper (t ++ r)). reflexivity.
Qed.

Lemma first_token_of_split (symb line : str) (toks : list str) :
  split line = symb :: toks -> first_token_is symb line = true.
Proof.
  intros H. unfold first_token_is. pose proof (split_1_head line) as Hh.
  rewrite H in Hh. destruct (split_1 line) as [|tok rest]; [discriminate|].
  injection Hh as ->. apply str_eqb_refl.
Qed.

Lemma digit_not_alpha (c : ascii) :
  isdigit c = true ->
  isalpha (upper_char c) = false /\ Ascii.eqb (upper_char c) "#" = false.
Proof. intros H. revert H. all_chars c; split; reflexivity. Qed.

Lemma alpha_not_hash (c : ascii) :
  isalpha c = true ->
  isalpha (upper_char c) = true /\ Ascii.eqb (upper_char c) "#" = false.
Proof. intros H. revert H. all_chars c; split; reflexivity. Qed.

Lemma written_not_other (symb line : str) :
  written symb line -> other_symbol_line symb line = false.
Proof.
  intros [_ [[toks H]|[c [t [toks [H Hc]]]]]].
  - apply first_token_not_other, (first_token_of_split _ _ _ H).
  - destruct (cleaned_head _ _ _ _ H) as [r E]. unfold other_symbol_line.
    fold (cleaned line). rewrite E.
    destruct (digit_not_alpha _ Hc) as [-> _]. reflexivity.
Qed.

Lemma written_nonempty (symb line : str) :
  symb <> [] -> written symb line -> cleaned line <> [] /\ line <> [].
Proof.
  intros Hne [_ H].
  assert (Hs : exists c t toks, split line = (c :: t) :: toks).
  { destruct H as [[toks H]|[c [t [toks [H _]]]]]; [|eauto].
    destruct symb as [|c t]; [contradiction | eauto]. }
  destruct Hs as [c [t [toks Hs]]]. split.
  - destruct (cleaned_head _ _ _ _ Hs) as [r E]. rewrite E. discriminate.
  - intros ->. discriminate.
Qed.

(** The lines that are written are kept by [parse_ecp], stripped and in
    upper case. *)
Lemma clean_written (symb : str) (lines : list str) :
  ecp_word symb -> Forall (written symb) lines ->
  clean_lines (py "ECP") lines = map cleaned lines.
Proof.
  intros [Hne [Ha [He Hc]]]. induction 1 as [|line lines Hl _ IH]; [reflexivity|].
  rewrite clean_lines_cons, clean_line_no_hash
    by (apply line_char_no_hash, Hl).
  fold (cleaned line). unfold cleaned at 1.
  rewrite (keep_line_not_other symb); try assumption.
  - rewrite IH. reflexivity.
  - apply written_not_other, Hl.
  - apply (proj1 (written_nonempty symb line Hne Hl)).
Qed.

Lemma written_plain (symb : str) (lines : list str) :
  symb <> [] -> Forall (written symb) lines -> Forall plain_line lines.
Proof.
  intros Hne. apply Forall_impl. intros line Hl. split.
  - apply (proj2 (written_nonempty symb line Hne Hl)).
  - apply line_char_no_linebreak, Hl.
Qed.

Lemma nelec_text_written (symb : str) (n : Z) :
  ecp_word symb -> written symb (nelec_text symb n).
Proof.
  intros Hw. split; [apply nelec_text_chars, Hw|]. left.
  rewrite nelec_text_tokens by exact Hw. eauto.
Qed.

Lemma ecp_header_text_split (symb : str) (l : Z) :
  ecp_word symb -> -1 <= l < MAXL ->
  forallb line_char (ecp_header_text symb l) = true
  /\ split (ecp_header_text symb l)
     = [symb; if l =? -1 then py "ul" else lower [spdf_char l]].
Proof.
  intros Hw Hl. pose proof Hw as [_ [Ha _]]. unfold ecp_header_text.
  destruct (Z.eqb_spec l (-1)) as [->|Hn].
  - split.
    + rewrite forallb_app, (ljust_chars _ Ha). reflexivity.
    + change (py " ul") with (py " " ++ py "ul").
      apply ecp_header_text_tokens; [exact Hw | discriminate | reflexivity].
  - assert (Hr : 0 <= l < MAXL) by lia.
    destruct (spdf_char_spec l Hr) as [_ [_ [_ Hu]]].
    destruct (lower_upper_char _ Hu) as [_ [Hs Hc]]. split.
    + rewrite !forallb_app, (ljust_chars _ Ha). cbn [lower map forallb].
      rewrite Hc. reflexivity.
    + apply ecp_header_text_tokens; [exact Hw | discriminate|].
      unfold no_space. cbn [lower map forallb]. rewrite Hs. reflexivity.
Qed.

Lemma ecp_header_text_written (symb : str) (l : Z) :
  ecp_word symb -> -1 <= l < MAXL -> written symb (ecp_header_text symb l).
Proof.
  intros Hw Hl. destruct (ecp_header_text_split symb l Hw Hl) as [Hc Ht].
  split; [exact Hc|]. left. rewrite Ht. eauto.
Qed.

Lemma str_of_nat_head (r : nat) :
  exists c t, str_of_Z (Z.of_nat r) = c :: t /\ isdigit c = true.
Proof.
  unfold str_of_Z. destruct (Z.ltb_spec (Z.of_nat r) 0) as [H|_]; [lia|].
  pose proof (digits_of_nonempty (Z.of_nat r)) as Hne.
  pose proof (digits_of_digits (Z.of_nat r)) as Hd.
  destruct (digits_of (Z.of_nat r)) as [|c t]; [contradiction|].
  exists c, t. split; [reflexivity|]. cbn [forallb] in Hd.
  apply andb_true_iff in Hd. apply Hd.
Qed.

Lemma ecp_row_text_written (symb : str) (r : nat) (row : list float) :
  length row = 2%nat -> written symb (ecp_row_text r row).
Proof.
  intros H. destruct row as [|e [|c [|x row]]]; try discriminate.
  split; [apply ecp_row_text_chars|]. right.
  rewrite ecp_row_text_tokens. destruct (str_of_nat_head r) as [d [t [E Hd]]].
  rewrite E. eauto.
Qed.

Lemma cleaned_is_header (line : str) (c : ascii) (t : str) (toks : list str) :
  split line = (c :: t) :: toks -> isalpha c = true ->
  is_header (cleaned line) = true.
Proof.
  intros H Hc. unfold is_header, is_skipped, starts_with_letter.
  rewrite cleaned_fix. destruct (cleaned_head _ _ _ _ H) as [r E]. rewrite E.
  change (py "#") with ["#"%char]. cbn [is_empty startswith orb].
  destruct (alpha_not_hash _ Hc) as [-> ->]. reflexivity.
Qed.

Lemma cleaned_is_data (line : str) (c : ascii) (t : str) (toks : list str) :
  split line = (c :: t) :: toks -> isdigit c = true ->
  is_data (cleaned line) = true.
Proof.
  intros H Hc. unfold is_data, is_skipped, starts_with_letter.
  rewrite cleaned_fix. destruct (cleaned_head _ _ _ _ H) as [r E]. rewrite E.
  change (py "#") with ["#"%char]. cbn [is_empty startswith orb].
  destruct (digit_not_alpha _ Hc) as [-> ->]. reflexivity.
Qed.

Lemma ecp_word_head (symb : str) :
  ecp_word symb -> exists c t, symb = c :: t /\ isalpha c = true.
Proof.
  intros [Hne [Ha _]]. destruct symb as [|c t]; [contradiction|].
  exists c, t. split; [reflexivity|]. cbn [forallb] in Ha.
  apply andb_true_iff in Ha. apply Ha.
Qed.

Lemma py_index_1 {A : Type} (a b : A) (l : list A) :
  py_index (a :: b :: l) 1 = Return b.
Proof. apply (py_index_nat (a :: b :: l) 1 b 1); reflexivity. Qed.

Lemma py_index_2 {A : Type} (a b c : A) (l : list A) :
  py_index (a :: b :: c :: l) 2 = Return c.
Proof. apply (py_index_nat (a :: b :: c :: l) 2 c 2); reflexivity. Qed.

(** The line of [nelec], read again. *)
Lemma parse_nelec_line (st : ecp_state) (symb : str) (n : Z) :
  ecp_word symb ->
  _parse_ecp_line st (cleaned (nelec_text symb n))
  = Return (EcpState (ecp_add st) (Some n) (by_ang st)).
Proof.
  intros Hw. destruct (ecp_word_head symb Hw) as [c [t [-> Hc]]].
  pose proof (nelec_text_tokens _ n Hw) as Ht.
  rewrite _parse_ecp_line_header by apply (cleaned_is_header _ _ _ _ Ht Hc).
  rewrite cleaned_fix, cleaned_tokens, Ht. cbn [map].
  rewrite py_index_1. cbn [bind]. change (upper (py "nelec")) with (py "NELEC").
  rewrite str_eqb_refl.
  rewrite py_index_2. cbn [bind]. rewrite (proj1 (plain_fix _ (str_of_Z_plain n))).
  rewrite int_of_str_str_of_Z. reflexivity.
Qed.

(** The header of a block, read again. *)
Lemma parse_header_line (st : ecp_state) (symb : str) (l : Z) :
  ecp_word symb -> -1 <= l < MAXL ->
  _parse_ecp_line st (cleaned (ecp_header_text symb l))
  = Return (EcpState (ecp_add st ++ [EcpBlock l empty_by_ang]) (nelec st)
                     (Some (length (ecp_add st)))).
Proof.
  intros Hw Hl. destruct (ecp_word_head symb Hw) as [c [t [-> Hc]]].
  destruct (ecp_header_text_split _ l Hw Hl) as [_ Ht].
  rewrite _parse_ecp_line_header by apply (cleaned_is_header _ _ _ _ Ht Hc).
  rewrite cleaned_fix, cleaned_tokens, Ht. cbn [map].
  rewrite py_index_1. cbn [bind].
  destruct (Z.eqb_spec l (-1)) as [->|Hn]; [reflexivity|].
  assert (Hr : 0 <= l < MAXL) by lia.
  destruct (spdf_char_spec l Hr) as [_ [Hd [_ Hu]]].
  destruct (lower_upper_char _ Hu) as [Hlu _].
  change (upper (lower [spdf_char l]))
    with [upper_char (lower_char (spdf_char l))].
  rewrite Hlu, Hd.
  change (py "NELEC") with ("N"%char :: py "ELEC").
  change (py "UL") with ("U"%char :: py "L"). cbn [str_eqb].
  destruct (Ascii.eqb (spdf_char l) "N"), (Ascii.eqb (spdf_char l) "U");
    reflexivity.
Qed.

(** A row of a block, read again into its slot. *)
Lemma parse_row_line (ba : list ecp_block) (b : ecp_block) (nel : option Z)
    (r : nat) (e c : float) :
  (r < length (ecp_by_ang b))%nat ->
  _parse_ecp_line (EcpState (ba ++ [b]) nel (Some (length ba)))
                  (cleaned (ecp_row_text r [e; c]))
  = Return (EcpState
              (ba ++ [set_by_ang
                        (alter_nth (fun slot => slot ++ [[reread e; reread c]])
                                   r (ecp_by_ang b)) b])
              nel (Some (length ba))).
Proof.
  intros Hr. pose proof (ecp_row_text_tokens r e c) as Ht.
  destruct (str_of_nat_head r) as [d [t [E Hd]]].
  rewrite _parse_ecp_line_data
    by (rewrite E in Ht; apply (cleaned_is_data _ _ _ _ Ht Hd)).
  cbv zeta. rewrite cleaned_fix, split_D_to_e, cleaned_tokens, Ht.
  cbn [map]. rewrite py_index_0. cbn [bind].
  destruct (plain_fix _ (str_of_Z_plain (Z.of_nat r))) as [-> ->].
  rewrite int_of_str_str_of_Z.
  cbn [bind by_ang ecp_add nelec read_by_ang]. unfold deref_by_ang.
  rewrite nth_error_last. cbn [bind].
  destruct (nth_error (ecp_by_ang b) r) as [slot|] eqn:En.
  2:{ apply nth_error_None in En. lia. }
  rewrite (py_index_nat _ r slot _ eq_refl En). cbn [bind skipn map_result].
  rewrite !token_reread. cbn [bind].
  rewrite py_alter_nat by exact Hr. cbn [bind].
  rewrite alter_nth_last. reflexivity.
Qed.

Lemma parse_slot_rows (ba : list ecp_block) (l : Z) (nel : option Z)
    (pre : list (list (list float))) (post : list (list (list float)))
    (rows acc : list (list float)) :
  Forall (fun row => length row = 2%nat) rows ->
  for_each _parse_ecp_line
    (map cleaned (ecp_slot_text (length pre, rows)))
    (EcpState (ba ++ [EcpBlock l (pre ++ acc :: post)]) nel (Some (length ba)))
  = Return (EcpState
              (ba ++ [EcpBlock l (pre ++ (acc ++ map (map reread) rows) :: post)])
              nel (Some (length ba))).
Proof.
  intros H. revert acc. unfold ecp_slot_text. cbn [fst snd].
  induction H as [|row rows Hrow _ IH]; intros acc.
  - cbn [map for_each]. rewrite app_nil_r. reflexivity.
  - destruct row as [|e [|c [|x row]]]; try discriminate.
    cbn [map for_each]. rewrite parse_row_line.
    2:{ cbn [ecp_by_ang]. rewrite length_app. cbn [length]. lia. }
    cbn [bind ecp_by_ang set_by_ang ecp_l].
    rewrite <- (Nat.add_0_r (length pre)) at 2.
    rewrite alter_nth_app_r. cbn [alter_nth].
    unfold set_by_ang. cbn [ecp_l].
    rewrite IH, <- app_assoc. reflexivity.
Qed.

Lemma parse_slots (ba : list ecp_block) (l : Z) (nel : option Z)
    (todo done : list (list (list float))) :
  Forall (Forall (fun row => length row = 2%nat)) todo ->
  for_each _parse_ecp_line
    (map cleaned
       (concat (map ecp_slot_text
                    (combine (seq (length done) (length todo)) todo))))
    (EcpState (ba ++ [EcpBlock l (done ++ repeat [] (length todo))]) nel
              (Some (length ba)))
  = Return (EcpState (ba ++ [EcpBlock l (done ++ map (map (map reread)) todo)])
                     nel (Some (length ba))).
Proof.
  intros H. revert done. induction H as [|slot todo Hs _ IH]; intros done.
  - reflexivity.
  - cbn [length seq combine map concat repeat].
    rewrite map_app, for_each_app, (parse_slot_rows _ _ _ _ _ _ _ Hs).
    cbn [bind app].
    replace (done ++ map (map reread) slot :: repeat [] (length todo))
      with ((done ++ [map (map reread) slot]) ++ repeat [] (length todo))
      by (rewrite <- app_assoc; reflexivity).
    replace (S (length done)) with (length (done ++ [map (map reread) slot]))
      by (rewrite length_app; cbn [length]; lia).
    rewrite IH, <- app_assoc. reflexivity.
Qed.

(** The lines of a block, read again. *)
Lemma parse_block (st : ecp_state) (symb : str) (b : ecp_block) :
  ecp_word symb -> ecp_writable b ->
  for_each _parse_ecp_line (map cleaned (ecp_block_text symb b)) st
  = Return (EcpState (ecp_add st ++ [reread_block b]) (nelec st)
                     (Some (length (ecp_add st)))).
Proof.
  intros Hw [Hl [H4 Hrows]]. unfold ecp_block_text. cbn [map for_each].
  rewrite parse_header_line by assumption. cbn [bind].
  unfold enumerate.
  change (seq 0 (length (ecp_by_ang b)))
    with (seq (length (@nil (list (list float)))) (length (ecp_by_ang b))).
  replace empty_by_ang with ([] ++ repeat (@nil (list float)) (length (ecp_by_ang b)))
    by (rewrite H4; reflexivity).
  rewrite (parse_slots _ _ _ _ [] Hrows). reflexivity.
Qed.

Lemma parse_blocks (symb : str) (blocks : list ecp_block) (st : ecp_state) :
  ecp_word symb -> Forall ecp_writable blocks ->
  exists k,
    for_each _parse_ecp_line
      (map cleaned (concat (map (ecp_block_text symb) blocks))) st
    = Return (EcpState (ecp_add st ++ map reread_block blocks) (nelec st) k).
Proof.
  intros Hw H. revert st. induction H as [|b blocks Hb _ IH]; intros st.
  - exists (by_ang st). cbn [map concat for_each]. rewrite app_nil_r.
    destruct st; reflexivity.
  - cbn [map concat]. rewrite map_app, for_each_app, (parse_block _ _ _ Hw Hb).
    cbn [bind].
    destruct (IH (EcpState (ecp_add st ++ [reread_block b]) (nelec st)
                           (Some (length (ecp_add st))))) as [k E].
    exists k. rewrite E. cbn [ecp_add nelec]. rewrite <- app_assoc. reflexivity.
Qed.

Lemma Forall_combine_snd {A B : Type} (Q : B -> Prop) (ks : list A) (l : list B) :
  Forall Q l -> Forall (fun p => Q (snd p)) (combine ks l).
Proof.
  intros H. revert ks. induction H as [|x l Hx _ IH]; intros ks.
  - destruct ks; constructor.
  - destruct ks as [|k ks]; [constructor|]. cbn [combine].
    constructor; [exact Hx | apply IH].
Qed.

Lemma Forall_concat {A : Type} (P : A -> Prop) (ls : list (list A)) :
  Forall (Forall P) ls -> Forall P (concat ls).
Proof.
  induction 1 as [|l ls Hl _ IH]; [constructor|].
  cbn [concat]. apply Forall_app. split; assumption.
Qed.

(** What [convert_ecp_to_nwchem] writes for a block. *)
Lemma ecp_block_lines_text (symb : str) (b : ecp_block) :
  ecp_writable b -> ecp_block_lines symb b = Return (ecp_block_text symb b).
Proof.
  intros [Hl [_ Hrows]]. unfold ecp_block_lines, ecp_block_text, ecp_header_text.
  assert (Hh : (if ecp_l b =? -1 then Return (ljust 2 " " symb ++ py " ul")
                else letter <- py_index SPDF (ecp_l b) ;;
                     Return (ljust 2 " " symb ++ py " " ++ lower letter))
               = Return (if ecp_l b =? -1 then ljust 2 " " symb ++ py " ul"
                         else ljust 2 " " symb ++ py " "
                                ++ lower [spdf_char (ecp_l b)])).
  { destruct (Z.eqb_spec (ecp_l b) (-1)) as [_|Hn]; [reflexivity|].
    assert (Hr : 0 <= ecp_l b < MAXL) by lia.
    destruct (spdf_char_spec _ Hr) as [-> _]. reflexivity. }
  rewrite Hh. cbn [bind].
  rewrite (map_result_ext _ ecp_slot_text
             (fun slot => Forall (fun row => length row = 2%nat) (snd slot))).
  - reflexivity.
  - intros [r rows] Hs. cbn [fst snd] in *. unfold ecp_slot_text. cbn [fst snd].
    apply (map_result_ext _ _ (fun row => length row = 2%nat)); [|exact Hs].
    intros row Hrow. destruct row as [|e [|c [|x row]]]; try discriminate.
    reflexivity.
  - apply Forall_combine_snd. exact Hrows.
Qed.

Lemma ecp_block_text_written (symb : str) (b : ecp_block) :
  ecp_word symb -> ecp_writable b -> Forall (written symb) (ecp_block_text symb b).
Proof.
  intros Hw [Hl [_ Hrows]]. unfold ecp_block_text. constructor.
  - apply ecp_header_text_written; assumption.
  - apply Forall_concat. apply Forall_map.
    apply (Forall_impl _ (P := fun p => Forall (fun row => length row = 2%nat) (snd p))).
    + intros [r rows] Hs. unfold ecp_slot_text. cbn [fst snd] in *.
      apply Forall_map. revert Hs. apply Forall_impl. intros row Hrow.
      apply ecp_row_text_written. exact Hrow.
    + apply Forall_combine_snd. exact Hrows.
Qed.

Lemma reread_block_l (blocks : list ecp_block) :
  map ecp_l (map reread_block blocks) = map ecp_l blocks.
Proof. rewrite map_map. reflexivity. Qed.

Section EcpRoundTrip.

Variable _std_symbol : str -> str.

(** For blocks in ascending order of [l], each with four slots of rows of
    two numbers, and a canonical symbol that is a word of letters,
    [convert_ecp_to_nwchem] writes a text that [parse_ecp] reads as the
    same ECP, with every number replaced by the one that reads back from
    its nine-decimal text. *)
Theorem ecp_round_trip (symb : str) (n : Z) (blocks : list ecp_block) :
  ecp_word (_std_symbol symb) ->
  StronglySorted Z.le (map ecp_l blocks) ->
  Forall ecp_writable blocks ->
  exists s,
    convert_ecp_to_nwchem _std_symbol symb (n, blocks) = Return s
    /\ parse_ecp _std_symbol s None
       = Return (Some (n, map reread_block blocks)).
Proof.
  intros Hw Hs Hb. unfold convert_ecp_to_nwchem. cbn [fst snd].
  rewrite (map_result_ext _ (ecp_block_text (_std_symbol symb)) ecp_writable)
    by (try exact Hb; intros b; apply ecp_block_lines_text).
  cbn [bind].
  exists (join [LF] (nelec_text (_std_symbol symb) n
                       :: concat (map (ecp_block_text (_std_symbol symb)) blocks))).
  split; [reflexivity|].
  assert (Hl : Forall (written (_std_symbol symb))
                 (nelec_text (_std_symbol symb) n
                    :: concat (map (ecp_block_text (_std_symbol symb)) blocks))).
  { constructor; [apply nelec_text_written, Hw|].
    apply Forall_concat, Forall_map. revert Hb. apply Forall_impl.
    intros b. apply ecp_block_text_written, Hw. }
  unfold parse_ecp, ecp_segment. cbn [bind].
  rewrite splitlines_join by (apply (written_plain _ _ (proj1 Hw) Hl)).
  rewrite (clean_written _ _ Hw Hl).
  unfold _parse_ecp, _parse_ecp_loop. cbn [map for_each].
  rewrite parse_nelec_line by exact Hw. cbn [bind ecp_add by_ang].
  destruct (parse_blocks (_std_symbol symb) blocks (EcpState [] (Some n) None)
              Hw Hb) as [k E].
  rewrite E. cbn [bind nelec ecp_add app]. do 3 f_equal.
  apply group_by_range_sorted_id.
  - rewrite reread_block_l. exact Hs.
  - apply Forall_map. revert Hb. apply Forall_impl. intros b [Hr _].
    cbn [reread_block ecp_l]. exact Hr.
Qed.

End EcpRoundTrip.

Lemma ecp_round_trip_witness :
  let blocks :=
    [EcpBlock (-1) [[]; [[binary64_of_ratio false 1 2; float_of_Z 10]]; []; []];
     EcpBlock 0 [[]; []; [[F_inf false; binary64_of_ratio true 5 4]]; []]] in
  exists s,
    convert_ecp_to_nwchem std_symbol_model (py "Na") (10, blocks) = Return s
    /\ parse_ecp std_symbol_model s None
       = Return (Some (10, map reread_block blocks)).
Proof.
  intros blocks.
  apply (ecp_round_trip std_symbol_model (py "Na") 10 blocks).
  - repeat split; discriminate.
  - repeat constructor; discriminate.
  - constructor; [|constructor; [|constructor]].
    + split; [unfold MAXL; cbn [ecp_l]; lia|]. split; [reflexivity|].
      repeat constructor.
    + split; [unfold MAXL; cbn [ecp_l]; lia|]. split; [reflexivity|].
      repeat constructor.
Defined.

(** *** The errors of [convert_ecp_to_nwchem] *)

Lemma ecp_row_line_Return (r : nat) (row : list float) :
  (exists s, ecp_row_line r row = Return s) <-> length row = 2%nat.
Proof.
  destruct row as [|e [|c [|x row]]]; cbn [ecp_row_line length]; split;
    try (intros [s H]; discriminate); try discriminate; eauto.
Qed.

Lemma ecp_row_line_Raise (r : nat) (row : list float) (e : exn) :
  ecp_row_line r row = Raise e -> e = ValueError.
Proof.
  destruct row as [|x [|y [|z row]]]; cbn [ecp_row_line]; intros H;
    try discriminate; injection H as <-; reflexivity.
Qed.

Lemma Forall_combine_seq {B : Type} (Q : nat -> B -> Prop) (R : B -> Prop)
    (l : list B) (k : nat) :
  (forall r b, Q r b <-> R b) ->
  Forall (fun p => Q (fst p) (snd p)) (combine (seq k (length l)) l)
  <-> Forall R l.
Proof.
  intros HQ. revert k. induction l as [|b l IH]; intros k; cbn [length seq combine].
  - split; constructor.
  - split; intros H; inversion H as [|? ? Hb Hl]; subst; constructor.
    + apply (HQ k b). exact Hb.
    + apply (IH (S k)). exact Hl.
    + apply (HQ k b). exact Hb.
    + apply (IH (S k)). exact Hl.
Qed.

Lemma ecp_slots_Return (slots : list (list (list float))) :
  (exists rows,
     map_result (fun slot => map_result (ecp_row_line (fst slot)) (snd slot))
                (enumerate slots) = Return rows)
  <-> Forall (Forall (fun row => length row = 2%nat)) slots.
Proof.
  rewrite map_result_Return. unfold enumerate.
  apply (Forall_combine_seq
           (fun r rows => exists b, map_result (ecp_row_line r) rows = Return b)).
  intros r rows. rewrite map_result_Return. split; apply Forall_impl;
    intros row; apply ecp_row_line_Return.
Qed.

Lemma ecp_block_lines_Return (symb : str) (b : ecp_block) :
  (exists ls, ecp_block_lines symb b = Return ls) <-> ecp_printable b.
Proof.
  unfold ecp_block_lines, ecp_printable. split.
  - intros [ls H]. do 2 bind_inv H. split.
    + destruct (Z.eqb_spec (ecp_l b) (-1)) as [E|_]; [lia|].
      bind_inv Ha. apply SPDF_index. eauto.
    + apply ecp_slots_Return. eauto.
  - intros [Hl Hr]. apply ecp_slots_Return in Hr. destruct Hr as [rows Er].
    rewrite Er. destruct (Z.eqb_spec (ecp_l b) (-1)) as [_|_].
    + cbn [bind]. eauto.
    + apply SPDF_index in Hl. destruct Hl as [letter ->]. cbn [bind]. eauto.
Qed.

Lemma ecp_block_lines_Raise (symb : str) (b : ecp_block) (e : exn) :
  ecp_block_lines symb b = Raise e -> e = IndexError \/ e = ValueError.
Proof.
  unfold ecp_block_lines.
  destruct (Z.eqb_spec (ecp_l b) (-1)) as [_|_]; cbn [bind].
  - destruct (map_result _ (enumerate (ecp_by_ang b))) as [rows|e1] eqn:E;
      cbn [bind]; [discriminate|].
    intros H. injection H as <-. right.
    apply (map_result_Raise_In _ _ _ _ (fun slot e' _ H' =>
             map_result_Raise _ _ _ _ (ecp_row_line_Raise (fst slot)) H') E).
  - destruct (py_index SPDF (ecp_l b)) as [letter|e0] eqn:E0; cbn [bind].
    + destruct (map_result _ (enumerate (ecp_by_ang b))) as [rows|e1] eqn:E;
        cbn [bind]; [discriminate|].
      intros H. injection H as <-. right.
      apply (map_result_Raise_In _ _ _ _ (fun slot e' _ H' =>
               map_result_Raise _ _ _ _ (ecp_row_line_Raise (fst slot)) H') E).
    + intros H. injection H as <-. left. apply (py_index_raise _ _ _ E0).
Qed.

Section ConvertEcp.

Variable _std_symbol : str -> str.

(** [convert_ecp_to_nwchem] returns a text exactly when every block has
    an [l] from -8 to 7 and rows of two numbers; otherwise it raises
    IndexError or ValueError. *)
Theorem convert_ecp_returns_iff (symb : str) (ecp : Ecp) :
  ((exists s, convert_ecp_to_nwchem _std_symbol symb ecp = Return s)
   <-> Forall ecp_printable (snd ecp))
  /\ (forall e, convert_ecp_to_nwchem _std_symbol symb ecp = Raise e ->
                e = IndexError \/ e = ValueError).
Proof.
  unfold convert_ecp_to_nwchem. split; [split|].
  - intros [s H]. bind_inv H.
    assert (Hl : exists ls, map_result (ecp_block_lines (_std_symbol symb))
                              (snd ecp) = Return ls) by eauto.
    apply map_result_Return in Hl. revert Hl. apply Forall_impl.
    intros b. apply ecp_block_lines_Return.
  - intros Hp.
    assert (Hl : exists ls, map_result (ecp_block_lines (_std_symbol symb))
                              (snd ecp) = Return ls).
    { apply map_result_Return. revert Hp. apply Forall_impl.
      intros b. apply ecp_block_lines_Return. }
    destruct Hl as [ls ->]. cbn [bind]. eauto.
  - intros e.
    destruct (map_result (ecp_block_lines (_std_symbol symb)) (snd ecp))
      as [ls|e1] eqn:E; cbn [bind]; [discriminate|].
    intros H. injection H as <-. revert E. clear.
    induction (snd ecp) as [|b bs IH]; cbn [map_result]; [discriminate|].
    destruct (ecp_block_lines (_std_symbol symb) b) as [l|e0] eqn:E0; cbn [bind].
    + destruct (map_result (ecp_block_lines (_std_symbol symb)) bs) as [ls|e2];
        cbn [bind]; [discriminate|].
      intros H. injection H as <-. apply IH. reflexivity.
    + intros H. injection H as <-. apply (ecp_block_lines_Raise _ _ _ E0).
Qed.

End ConvertEcp.

(** *** An ECP written and read again for its symbol *)

(** Without a line of another symbol and without a blank line, the
    second loop of [parse_ecp] keeps every line. *)
Lemma seg_loop_open (symb : str) (lines seg : list str) :
  Forall (fun x => other_symbol_line symb x = false /\ cleaned x <> []) lines ->
  seg_loop symb lines seg = Return (seg ++ map cleaned lines).
Proof.
  intros H. revert seg. induction H as [|x lines [Hx Hne] _ IH]; intros seg.
  - cbn [map]. rewrite app_nil_r. reflexivity.
  - cbn [seg_loop map]. unfold other_symbol_line in Hx. fold (cleaned x) in *.
    assert (Hs : strip (cleaned x) <> []) by (rewrite cleaned_fix; exact Hne).
    destruct (first_token_ends _ Hs) as [tok [rest [_ [_ [_ [_ Hd]]]]]].
    destruct (cleaned x) as [|c r] eqn:E; [contradiction|].
    rewrite py_index_0. cbn [bind].
    destruct (isalpha c).
    + destruct (split_1 (c :: r)) as [|tok' toks]; [discriminate|].
      rewrite py_index_0. cbn [bind]. cbn [andb] in Hx. rewrite Hx.
      cbn [is_empty negb]. rewrite IH, <- app_assoc. reflexivity.
    + cbn [bind is_empty negb]. rewrite IH, <- app_assoc. reflexivity.
Qed.

(** What [_parse_ecp] reads from the lines of an ECP as they are kept. *)
Lemma parse_written_ecp (symb : str) (n : Z) (blocks : list ecp_block) :
  ecp_word symb ->
  StronglySorted Z.le (map ecp_l blocks) ->
  Forall ecp_writable blocks ->
  _parse_ecp (map cleaned (nelec_text symb n
                             :: concat (map (ecp_block_text symb) blocks)))
  = Return (Some (n, map reread_block blocks)).
Proof.
  intros Hw Hs Hb. unfold _parse_ecp, _parse_ecp_loop. cbn [map for_each].
  rewrite parse_nelec_line by exact Hw. cbn [bind ecp_add by_ang].
  destruct (parse_blocks symb blocks (EcpState [] (Some n) None) Hw Hb)
    as [k E].
  rewrite E. cbn [bind nelec ecp_add app]. do 3 f_equal.
  apply group_by_range_sorted_id.
  - rewrite reread_block_l. exact Hs.
  - apply Forall_map. revert Hb. apply Forall_impl. intros b [Hr _].
    cbn [reread_block ecp_l]. exact Hr.
Qed.

Section EcpRoundTripSymbol.

Variable _std_symbol : str -> str.

(** For at least one block, in ascending order of [l], each with four
    slots of rows of two numbers, and a canonical symbol that is a word of
    letters, [parse_ecp] called with the symbol reads the text of
    [convert_ecp_to_nwchem] as the same ECP up to the nine decimals of the
    text. *)
Theorem ecp_round_trip_symbol (symb : str) (n : Z) (blocks : list ecp_block) :
  ecp_word (_std_symbol symb) ->
  blocks <> [] ->
  StronglySorted Z.le (map ecp_l blocks) ->
  Forall ecp_writable blocks ->
  exists s,
    convert_ecp_to_nwchem _std_symbol symb (n, blocks) = Return s
    /\ parse_ecp _std_symbol s (Some symb)
       = Return (Some (n, map reread_block blocks)).
Proof.
  intros Hw Hne Hs Hb. unfold convert_ecp_to_nwchem. cbn [fst snd].
  rewrite (map_result_ext _ (ecp_block_text (_std_symbol symb)) ecp_writable)
    by (try exact Hb; intros b; apply ecp_block_lines_text).
  cbn [bind].
  exists (join [LF] (nelec_text (_std_symbol symb) n
                       :: concat (map (ecp_block_text (_std_symbol symb)) blocks))).
  split; [reflexivity|].
  assert (Hl : Forall (written (_std_symbol symb))
                 (nelec_text (_std_symbol symb) n
                    :: concat (map (ecp_block_text (_std_symbol symb)) blocks))).
  { constructor; [apply nelec_text_written, Hw|].
    apply Forall_concat, Forall_map. revert Hb. apply Forall_impl.
    intros b. apply ecp_block_text_written, Hw. }
  unfold parse_ecp, ecp_segment.
  rewrite splitlines_join by (apply (written_plain _ _ (proj1 Hw) Hl)).
  cbn [find_symb_loop].
  rewrite (first_token_of_split _ _ _ (nelec_text_tokens _ n Hw)).
  replace (0 + 1 =? length (nelec_text (_std_symbol symb) n
             :: concat (map (ecp_block_text (_std_symbol symb)) blocks)))%nat
    with false.
  2:{ symmetry. apply Nat.eqb_neq. destruct blocks as [|b blocks];
        [contradiction|]. cbn [map concat ecp_block_text app length]. lia. }
  cbn [skipn]. rewrite seg_loop_open.
  2:{ revert Hl. apply Forall_impl. intros x Hx. split.
      - apply (written_not_other _ _ Hx).
      - apply (proj1 (written_nonempty _ _ (proj1 Hw) Hx)). }
  cbn [bind app]. unfold _parse_ecp at 1, _parse_ecp_loop.
  rewrite for_each_clean_ecp.
  - apply (parse_written_ecp _ n blocks Hw Hs Hb).
  - apply Forall_map. revert Hl. apply Forall_impl. intros x Hx.
    destruct Hw as [Hn [_ [He Hc]]].
    apply (line_kept_or_skipped (_std_symbol symb)); try assumption.
    + left. apply line_char_no_hash, Hx.
    + apply (written_not_other _ _ Hx).
    + apply (proj1 (written_nonempty _ _ Hn Hx)).
Qed.

End EcpRoundTripSymbol.

Lemma ecp_round_trip_symbol_witness :
  let blocks :=
    [EcpBlock (-1) [[]; [[binary64_of_ratio false 1 2; float_of_Z 10]]; []; []];
     EcpBlock 1 [[[F_nan; float_of_Z 3]]; []; []; []]] in
  exists s,
    convert_ecp_to_nwchem std_symbol_model (py "K") (18, blocks) = Return s
    /\ parse_ecp std_symbol_model s (Some (py "K"))
       = Return (Some (18, map reread_block blocks)).
Proof.
  intros blocks.
  apply (ecp_round_trip_symbol std_symbol_model (py "K") 18 blocks).
  - repeat split; discriminate.
  - discriminate.
  - repeat constructor; discriminate.
  - constructor; [|constructor; [|constructor]].
    + split; [unfold MAXL; cbn [ecp_l]; lia|]. split; [reflexivity|].
      repeat constructor.
    + split; [unfold MAXL; cbn [ecp_l]; lia|]. split; [reflexivity|].
      repeat constructor.
Defined.

(** *** A basis written and read again for its symbol *)

Lemma delimiter_needs_hash (s : str) :
  no_hash s -> contains_match BASIS_SET_DELIMITER s = false.
Proof.
  unfold no_hash. induction s as [|c s IH]; [reflexivity|].
  cbn [forallb]. intros H. apply andb_true_iff in H. destruct H as [Hc Hs].
  apply negb_true_iff in Hc. cbn [contains_match BASIS_SET_DELIMITER].
  rewrite Hc. apply IH. exact Hs.
Qed.

Lemma re_split_aux_skip (re : str -> option nat) (a t : str) :
  re_split_aux re (length a) (a ++ t) = re_split_aux re 0 t.
Proof.
  induction a as [|c a IH]; [reflexivity|]. cbn [length app re_split_aux].
  exact IH.
Qed.

(** The summary line and the line feed after it are one match of the
    delimiter. *)
Lemma delimiter_at_summary (tail t : str) :
  no_linebreak tail ->
  BASIS_SET_DELIMITER (py "#BASIS SET: (" ++ tail ++ LF :: t)
  = Some (length (py "#BASIS SET: (" ++ tail ++ [LF])).
Proof.
  intros Hn.
  change (py "#BASIS SET: (" ++ tail ++ LF :: t)
    with ("#"%char :: py "BASIS SET" ++ (py ": (" ++ tail) ++ LF :: t).
  cbn [BASIS_SET_DELIMITER]. change (Ascii.eqb "#" "#") with true. cbv iota.
  change (skip_blanks (py "BASIS SET" ++ (py ": (" ++ tail) ++ LF :: t))
    with (py "BASIS SET" ++ (py ": (" ++ tail) ++ LF :: t).
  cbv zeta.
  change (startswith (py "BASIS SET" ++ (py ": (" ++ tail) ++ LF :: t)
                     (py "BASIS SET"))
    with (startswith ((py ": (" ++ tail) ++ LF :: t) []).
  rewrite startswith_nil.
  change (skipn 9 (py "BASIS SET" ++ (py ": (" ++ tail) ++ LF :: t))
    with ((py ": (" ++ tail) ++ LF :: t).
  rewrite (span_until not_LF).
  - f_equal. unfold py. cbn [list_ascii_of_string app length].
    rewrite !length_app. cbn [length]. lia.
  - rewrite forallb_app. cbn [forallb].
    change (not_LF ":" && (not_LF " " && (not_LF "(" && true))) with true.
    cbn [andb]. revert Hn. unfold no_linebreak. apply forallb_impl.
    intros c. unfold not_LF. revert c. intros c. all_chars c.
  - reflexivity.
Qed.

Lemma re_split_summary (tail t : str) :
  no_linebreak tail -> no_hash t ->
  re_split BASIS_SET_DELIMITER (py "#BASIS SET: (" ++ tail ++ LF :: t)
  = [[]; t].
Proof.
  intros Hn Hh. unfold re_split.
  pose proof (delimiter_at_summary tail t Hn) as Hd.
  change (py "#BASIS SET: (" ++ tail ++ LF :: t)
    with ("#"%char :: py "BASIS SET: (" ++ tail ++ LF :: t) in *.
  cbn [re_split_aux]. rewrite Hd.
  change (length (py "#BASIS SET: (" ++ tail ++ [LF]) - 1)%nat
    with (length (py "BASIS SET: (" ++ tail ++ [LF]) - 0)%nat.
  rewrite Nat.sub_0_r.
  replace (py "BASIS SET: (" ++ tail ++ LF :: t)
    with ((py "BASIS SET: (" ++ tail ++ [LF]) ++ t)
    by (rewrite <- !app_assoc; reflexivity).
  rewrite re_split_aux_skip, (re_split_aux_no_match _ _ (delimiter_needs_hash _ Hh)).
  reflexivity.
Qed.

Lemma summary_line_shape (basis : Basis) (s : str) :
  summary_line basis = Return s -> exists tail, s = py "#BASIS SET: (" ++ tail.
Proof.
  unfold summary_line. intros H. do 3 bind_inv H. injection H as <-.
  eexists. reflexivity.
Qed.

Lemma no_hash_app (a b : str) : no_hash a -> no_hash b -> no_hash (a ++ b).
Proof.
  unfold no_hash. intros Ha Hb. rewrite forallb_app, Ha, Hb. reflexivity.
Qed.

Lemma no_hash_join (l : list str) :
  Forall no_hash l -> no_hash (join [LF] l).
Proof.
  induction 1 as [|a l Ha Hl IH]; [reflexivity|].
  destruct l as [|a' l]; [exact Ha|].
  change (join [LF] (a :: a' :: l)) with (a ++ [LF] ++ join [LF] (a' :: l)).
  repeat apply no_hash_app; try assumption. reflexivity.
Qed.

Lemma shell_text_no_hash (symb : str) (b : shell) :
  element_word symb -> 0 <= shell_l b < MAXL ->
  Forall no_hash (shell_text symb b).
Proof.
  intros [_ [Ha _]] Hl. destruct (spdf_char_spec _ Hl) as [_ [_ [_ Hc]]].
  unfold shell_text. constructor.
  - apply header_text_chars.
    + revert Ha. apply forallb_impl. intros d Hd. apply isalpha_facts in Hd.
      destruct Hd as [_ [-> _]]. reflexivity.
    + reflexivity.
    + apply isupper_facts in Hc. destruct Hc as [_ [_ [_ [-> _]]]]. reflexivity.
  - apply Forall_map. apply Forall_forall. intros row _. apply row_line_no_hash.
Qed.

Lemma shells_text_no_hash (symb : str) (basis : Basis) :
  element_word symb -> Forall (fun b => 0 <= shell_l b < MAXL) basis ->
  Forall no_hash (concat (map (shell_text symb) basis)).
Proof.
  intros Hw Hl. apply Forall_concat, Forall_map. revert Hl. apply Forall_impl.
  intros b. apply shell_text_no_hash, Hw.
Qed.

(** The text of the shells starts with the symbol. *)
Lemma shells_text_first_token (symb : str) (b : shell) (basis : Basis) :
  element_word symb ->
  first_token_is symb (join [LF] (concat (map (shell_text symb) (b :: basis))))
  = true.
Proof.
  intros [Hne [Ha _]]. cbn [map concat]. unfold shell_text at 1.
  cbn [app]. unfold header_text, ljust.
  set (more := map row_line (shell_rows b) ++ concat (map (shell_text symb) basis)).
  match goal with
  | |- first_token_is _ ?t = true =>
      assert (E : exists rest, t = symb ++ " "%char :: rest)
  end.
  { change (py "    ") with (" "%char :: py "   ").
    destruct more as [|m more].
    - cbn [join]. destruct (2 - length symb)%nat;
        rewrite <- !app_assoc; cbn [repeat app]; eexists; reflexivity.
    - cbn [join].
      destruct (2 - length symb)%nat; rewrite <- !app_assoc; cbn [repeat app];
        eexists; reflexivity. }
  destruct E as [rest ->].
  apply (first_token_of_split _ _ (split (" "%char :: rest))).
  apply split_word; [exact Hne | apply alpha_no_space, Ha | reflexivity].
Qed.

Section RoundTripSymbol.

Variable _std_symbol : str -> str.

(** For a sorted basis of at least one writable shell and a canonical
    symbol that is a word of letters, [parse] called with the symbol
    reads the text of [convert_basis_to_nwchem] as the same shells up to
    the nine decimals of the text: the summary line is the delimiter
    that opens the chunk of the element. *)
Theorem basis_round_trip_symbol (symb : str) (basis : Basis) :
  element_word (_std_symbol symb) ->
  basis <> [] ->
  StronglySorted Z.le (map shell_l basis) ->
  Forall (fun b => 0 <= shell_l b < MAXL) basis ->
  Forall writable basis ->
  exists s, convert_basis_to_nwchem _std_symbol symb basis = Return s
            /\ parse _std_symbol s (Some symb) = Return (map reread_shell basis).
Proof.
  intros Hw Hne Hs Hl Hr.
  destruct (summary_line_ok basis Hl Hr) as [rest [E1 N1]].
  destruct (summary_line_shape _ _ E1) as [tail Et].
  assert (Nt : no_linebreak tail).
  { rewrite Et in N1. unfold no_linebreak in *. rewrite forallb_app in N1.
    apply andb_true_iff in N1. apply N1. }
  unfold convert_basis_to_nwchem. rewrite E1. cbn [bind].
  rewrite (map_result_ext _ (shell_text (_std_symbol symb)) _ basis
             (shell_lines_text (_std_symbol symb)) Hl).
  cbn [bind]. eexists. split; [reflexivity|].
  destruct basis as [|b basis]; [contradiction|].
  match goal with
  | |- parse _ ?t _ = _ =>
      assert (Ej : t = py "#BASIS SET: (" ++ tail ++ LF
                         :: join [LF] (concat (map (shell_text (_std_symbol symb))
                                                   (b :: basis))))
  end.
  { rewrite Et. cbn [map concat]. unfold shell_text at 1 3.
    cbn [app join]. rewrite <- app_assoc. reflexivity. }
  rewrite Ej. unfold parse, basis_segment.
  rewrite re_split_summary.
  2:{ exact Nt. }
  2:{ apply no_hash_join, shells_text_no_hash; assumption. }
  unfold _search_seg. cbn [skipn _search_seg_loop].
  pose proof (shells_text_first_token (_std_symbol symb) b basis Hw) as Hf.
  unfold first_token_is in Hf.
  destruct (split_1 (join [LF] (concat (map (shell_text (_std_symbol symb))
                                            (b :: basis)))))
    as [|dat0 dats]; [discriminate|].
  rewrite Hf. cbn [bind].
  rewrite splitlines_join by (apply shells_text_plain; assumption).
  rewrite clean_shells by assumption.
  unfold _parse, _parse_loop.
  destruct (for_each_shells (_std_symbol symb) (b :: basis) Hw Hl Hr
              (ParseState [] None)) as [k E].
  rewrite E. cbn [bind basis_add app]. f_equal.
  apply group_by_range_sorted_id.
  - rewrite reread_shell_l. exact Hs.
  - apply Forall_map. exact Hl.
Qed.

End RoundTripSymbol.

Lemma basis_round_trip_symbol_witness :
  let basis :=
    [Shell 0 [[binary64_of_decimal false 13070 (-2);
               binary64_of_decimal false 15433 (-5)]];
     Shell 1 [[binary64_of_ratio false 5 2; binary64_of_ratio true 1 4]]] in
  exists s, convert_basis_to_nwchem std_symbol_model (py "Na") basis = Return s
            /\ parse std_symbol_model s (Some (py "Na"))
               = Return (map reread_shell basis).
Proof.
  intros basis.
  apply (basis_round_trip_symbol std_symbol_model (py "Na") basis).
  - repeat split; discriminate.
  - discriminate.
  - repeat constructor; discriminate.
  - repeat constructor; discriminate.
  - repeat constructor; discriminate.
Defined.

(** *** The segment of an element in an ECP text *)

Lemma split_char_head (s : str) :
  exists t, split_char "#" s = fst (span not_hash s) :: t.
Proof.
  induction s as [|c s [t IH]]; [exists []; reflexivity|].
  cbn [split_char span]. unfold not_hash at 1.
  destruct (Ascii.eqb c "#"); cbn [negb].
  - eexists. reflexivity.
  - rewrite IH. destruct (span not_hash s) as [a b]. eexists. reflexivity.
Qed.

Lemma clean_line_span (s : str) :
  clean_line s = upper (strip (fst (span not_hash s))).
Proof.
  unfold clean_line. destruct (split_char_head s) as [t ->]. reflexivity.
Qed.

Lemma span_app (p : ascii -> bool) (a r : str) :
  span p (a ++ r)
  = if forallb p a then (a ++ fst (span p r), snd (span p r))
    else (fst (span p a), snd (span p a) ++ r).
Proof.
  induction a as [|c a IH]; cbn [app forallb span].
  - destruct (span p r); reflexivity.
  - destruct (p c); cbn [andb]; [|reflexivity].
    rewrite IH. destruct (forallb p a).
    + reflexivity.
    + destruct (span p a). reflexivity.
Qed.

Lemma space_not_hash (ws : str) : all_space ws -> forallb not_hash ws = true.
Proof.
  unfold all_space. apply forallb_impl. intros c. unfold not_hash.
  all_chars c.
Qed.

(** Blanks around a line do not change what is kept of it. *)
Lemma clean_line_strip (x : str) : clean_line (strip x) = clean_line x.
Proof.
  rewrite !clean_line_span.
  destruct (strip_split x) as [a [b [Ha [Hb [Hx Ht]]]]].
  rewrite Hx at 2. rewrite span_app, (space_not_hash a Ha). cbn [fst].
  rewrite strip_spaces_l by exact Ha. rewrite span_app.
  destruct (forallb not_hash (strip x)) eqn:E; cbn [fst]; [|reflexivity].
  rewrite (span_all not_hash (strip x) E). cbn [fst].
  rewrite (span_all not_hash b (space_not_hash b Hb)). cbn [fst].
  rewrite strip_idem. f_equal. symmetry.
  apply (strip_trimmed [] (strip x) b); [reflexivity | exact Hb | exact Ht].
Qed.

Lemma clean_line_cleaned (x : str) : clean_line (cleaned x) = clean_line x.
Proof. unfold cleaned. rewrite clean_line_upper. apply clean_line_strip. Qed.

Lemma clean_lines_cleaned (word : str) (lines : list str) :
  clean_lines word (map cleaned lines) = clean_lines word lines.
Proof.
  unfold clean_lines. rewrite map_map. f_equal. apply map_ext.
  exact clean_line_cleaned.
Qed.

(** The second loop of [parse_ecp] appends the lines that neither end the
    segment nor are blank. *)
Lemma seg_loop_app (symb : str) (body rest seg : list str) :
  Forall (fun x => other_symbol_line symb x = false /\ strip x <> []) body ->
  seg_loop symb (body ++ rest) seg
  = seg_loop symb rest (seg ++ map cleaned body).
Proof.
  intros H. revert seg. induction H as [|x body [Hx Hne] _ IH]; intros seg.
  - cbn [map app]. rewrite app_nil_r. reflexivity.
  - cbn [seg_loop map app]. unfold other_symbol_line in Hx. fold (cleaned x) in *.
    assert (Hc : cleaned x <> []).
    { unfold cleaned. destruct (strip x); [contradiction | discriminate]. }
    assert (Hs : strip (cleaned x) <> []) by (rewrite cleaned_fix; exact Hc).
    destruct (first_token_ends _ Hs) as [tok [rest' [_ [_ [_ [_ Hd]]]]]].
    destruct (cleaned x) as [|c r] eqn:E; [contradiction|].
    rewrite py_index_0. cbn [bind].
    destruct (isalpha c).
    + destruct (split_1 (c :: r)) as [|tok' toks]; [discriminate|].
      rewrite py_index_0. cbn [bind]. cbn [andb] in Hx. rewrite Hx.
      cbn [is_empty negb]. rewrite IH, <- app_assoc. reflexivity.
    + cbn [bind is_empty negb]. rewrite IH, <- app_assoc. reflexivity.
Qed.

Lemma seg_loop_stop (symb stop : str) (post seg : list str) :
  other_symbol_line symb stop = true ->
  seg_loop symb (stop :: post) seg = Return seg.
Proof.
  unfold other_symbol_line. intros H. cbn [seg_loop].
  destruct (upper (strip stop)) as [|c r]; [discriminate|].
  rewrite py_index_0. cbn [bind].
  destruct (isalpha c); [|discriminate].
  destruct (split_1 (c :: r)) as [|tok toks]; [discriminate|].
  rewrite py_index_0. cbn [bind]. cbn [andb] in H. rewrite H. reflexivity.
Qed.

Lemma first_token_nonblank (symb line : str) :
  first_token_is symb line = true -> strip line <> [].
Proof.
  unfold first_token_is. intros H E.
  pose proof (strip_starts_with_token line) as T.
  pose proof (split_1_head line) as Hh.
  destruct (split_1 line) as [|tok toks]; [discriminate|].
  destruct (split line) as [|tok' toks']; [discriminate|].
  destruct T as [Hne [_ [r' Hr]]]. rewrite E in Hr.
  destruct tok'; [contradiction | discriminate].
Qed.

Section EcpSegment.

Variable _std_symbol : str -> str.

(** With a symbol, [parse_ecp] reads the lines from the first line that
    starts with the symbol up to the next line that starts with a letter
    and another word, as [parse_ecp] without symbol reads these lines
    alone; the lines before and after do not matter. *)
Theorem parse_ecp_segment (string symb only : str) (pre : list str)
    (first : str) (body : list str) (stop : str) (post : list str) :
  splitlines string = pre ++ (first :: body) ++ stop :: post ->
  splitlines only = first :: body ->
  forallb (fun dat => negb (first_token_is (_std_symbol symb) dat)) pre = true ->
  first_token_is (_std_symbol symb) first = true ->
  Forall (fun x => other_symbol_line (_std_symbol symb) x = false
                   /\ strip x <> []) body ->
  other_symbol_line (_std_symbol symb) stop = true ->
  parse_ecp _std_symbol string (Some symb) = parse_ecp _std_symbol only None.
Proof.
  intros Hl Ho Hpre Hfirst Hbody Hstop. unfold parse_ecp, ecp_segment.
  rewrite Hl, Ho, (find_symb_loop_app _ _ _ _ _ Hpre).
  cbn [find_symb_loop app]. rewrite Hfirst.
  replace (0 + length pre + 1 =? length (pre ++ first :: body ++ stop :: post))%nat
    with false.
  2:{ symmetry. apply Nat.eqb_neq. rewrite !length_app. cbn [length].
      rewrite length_app. cbn [length]. lia. }
  rewrite skipn_app, Nat.add_0_l, Nat.sub_diag, skipn_all. cbn [skipn app].
  change (first :: body ++ stop :: post) with ((first :: body) ++ stop :: post).
  rewrite seg_loop_app.
  2:{ constructor; [|exact Hbody]. split.
      - apply first_token_not_other, Hfirst.
      - apply (first_token_nonblank _ _ Hfirst). }
  rewrite (seg_loop_stop _ _ _ _ Hstop). cbn [bind app].
  rewrite clean_lines_cleaned. reflexivity.
Qed.

End EcpSegment.

Lemma parse_ecp_segment_witness :
  let string := text [py "K nelec 18"; py "K ul"; py "1 0.25 2.0";
                      py "Na nelec 10"; py "Na ul"; py "1 0.5 10.0  # local";
                      py "Rb nelec 28"; py "Rb ul"] in
  let only := text [py "Na nelec 10"; py "Na ul"; py "1 0.5 10.0  # local"] in
  parse_ecp std_symbol_model string (Some (py "Na"))
  = parse_ecp std_symbol_model only None.
Proof.
  intros string only.
  apply (parse_ecp_segment std_symbol_model string (py "Na") only
           [py "K nelec 18"; py "K ul"; py "1 0.25 2.0"]
           (py "Na nelec 10") [py "Na ul"; py "1 0.5 10.0  # local"]
           (py "Rb nelec 28") [py "Rb ul"]); try reflexivity.
  constructor; [split; [reflexivity | discriminate]|].
  constructor; [split; [reflexivity | discriminate]|].
  constructor.
Defined.

(** *** The line [end] in a basis file *)

Section LowercaseEnd.

Variable _std_symbol : str -> str.

(** A line [end] that is not written in upper case is dropped by [parse]
    but kept by [search_seg], whose test for [END] looks at the line as
    it is written: [load] then reads it as a header without shell type
    and raises IndexError. *)
Theorem load_lowercase_end (content symb seg : str) (pre : list str)
    (x : str) (post : list str) (st : parse_state) :
  _search_seg (re_split BASIS_SET_DELIMITER content) (_std_symbol symb)
  = Some seg ->
  splitlines seg = pre ++ x :: post ->
  _parse_loop (map upper (filter search_seg_keeps pre)) = Return st ->
  contains (py "END") x = false ->
  upper (strip x) = py "END" ->
  load _std_symbol content symb = Raise IndexError
  /\ parse _std_symbol content (Some symb)
     = _parse (clean_lines (py "BASIS") (pre ++ post)).
Proof.
  intros Hseg Hl Hpre Hc Hx. split.
  - unfold load, search_seg. rewrite Hseg, Hl.
    fold search_seg_keeps. rewrite filter_app, map_app. cbn [filter].
    unfold search_seg_keeps at 2. rewrite Hc.
    destruct x as [|c x]; [discriminate|]. cbn [is_empty negb andb map].
    rewrite (_parse_after _ _ _ _ Hpre).
    change (upper_char c :: map upper_char x) with (upper (c :: x)).
    rewrite <- _parse_line_strip, strip_upper, Hx. reflexivity.
  - unfold parse, basis_segment. rewrite Hseg. cbn [bind]. rewrite Hl.
    rewrite !clean_lines_app, clean_lines_cons.
    rewrite <- clean_line_strip, <- clean_line_upper, Hx. reflexivity.
Qed.

End LowercaseEnd.

Lemma load_lowercase_end_witness :
  let content := text [py "# BASIS SET: (1s)"; py "Na S"; py "1.0 1.0"; py "end"] in
  load std_symbol_model content (py "Na") = Raise IndexError
  /\ parse std_symbol_model content (Some (py "Na"))
     = _parse (clean_lines (py "BASIS") [py "Na S"; py "1.0 1.0"]).
Proof.
  intros content.
  apply (load_lowercase_end std_symbol_model content (py "Na")
           (text [py "Na S"; py "1.0 1.0"; py "end"])
           [py "Na S"; py "1.0 1.0"] (py "end") []
           (ParseState [Shell 0 [[float_of_Z 1; float_of_Z 1]]] (Some (py "S"))));
    reflexivity.
Defined.
